(** * The key registry of cryptodev-linux (ncr-key.c)

    A shallow embedding of [src/ncr-key.c]: key items live in kernel
    memory, the registry is a linked list of pointers to them, every
    operation borrows an item with [ncr_key_item_get] and gives it back
    with [_ncr_key_item_put].  Kernel memory, the registry, the data
    store, the limiter and the random pool are threaded through the
    operations as one state; reading freed memory is a fault.

    One operation runs at a time: the semaphore [lst->sem], which the
    source takes around every scan of the list, and the [err()] log lines
    have no counterpart.  Values copied from and to user space are the
    arguments and results of the operations. *)

From Stdlib Require Import ZArith NArith List Lia Bool.
From stdpp Require Import base numbers option list.

Local Open Scope Z_scope.

(** ** Machine integers and errno values *)

Abbreviation byte := Byte.byte.

Definition INT_MAX : Z := 2147483647.
Definition INT_MIN : Z := -2147483648.

(** [int] arithmetic: the result is reduced into the 32-bit signed range. *)
Definition wrap_int (z : Z) : Z := (z + 2 ^ 31) mod 2 ^ 32 - 2 ^ 31.

(** C's [a > b] on unsigned values *)
#[global] Instance N_gt_dec : RelDecision N.gt :=
  fun a b => decide ((a ?= b)%N = Gt).

(** linux/errno.h *)
Definition EINVAL : Z := 22.
Definition ENOMEM : Z := 12.
Definition EPERM : Z := 1.

(** ** What ncr.h and ncr_int.h declare

    The two headers are not among the sources; the constants and the
    algorithm catalog they declare are kept abstract. *)
Class NcrHeaders := {
  MAX_KEY_SIZE : N;
  MAX_KEY_ID_SIZE : N;
  NCR_KEY_TYPE_SECRET : Z;
  NCR_KEY_TYPE_PUBLIC : Z;
  NCR_KEY_TYPE_PRIVATE : Z;
  NCR_KEY_FLAG_EXPORTABLE : N;
  NCR_DATA_FLAG_EXPORTABLE : N;
  NCR_ALG_AES_CBC : Z;
  ncr_algorithm_to_key_type : Z -> Z;
  (** the number of keys one owner may hold (LIMIT_TYPE_KEY) *)
  max_keys_per_owner : Z
}.

(** ** Structures *)

(** [struct file *]: only its identity matters here. *)
Abbreviation file := nat.

(** Addresses of key items in kernel memory. *)
Abbreviation addr := nat.

(** [struct key_item], with the fields ncr-key.c reads and writes. *)
Record key_item := {
  ki_type : Z;                 (* ncr_key_type_t type *)
  ki_flags : N;                (* unsigned int flags *)
  ki_algorithm : Z;            (* algorithm *)
  ki_key_id : list byte;       (* uint8_t key_id[MAX_KEY_ID_SIZE] *)
  ki_key_id_size : N;          (* size_t key_id_size *)
  ki_secret_data : list byte;  (* key.secret.data[MAX_KEY_SIZE] *)
  ki_secret_size : N;          (* key.secret.size *)
  ki_refcnt : Z;               (* atomic_t refcnt *)
  ki_filp : file;              (* struct file *filp *)
  ki_desc : Z                  (* ncr_key_t desc *)
}.

(** [struct data_item] of the data store, with the fields ncr-key.c uses. *)
Record data_item := {
  di_data : list byte;         (* uint8_t *data, max_data_size bytes *)
  di_data_size : N;
  di_max_data_size : N;
  di_flags : N;
  di_refcnt : Z;
  di_desc : Z
}.

(** [struct ncr_key_generate_st], flattened. *)
Record ncr_key_generate_st := {
  gen_desc : Z;
  gen_algorithm : Z;           (* params.algorithm *)
  gen_keyflags : N;            (* params.keyflags *)
  gen_bits : N                 (* params.params.secret.bits, unsigned *)
}.

(** [struct ncr_key_data_st] *)
Record ncr_key_data_st := {
  kd_key : Z;
  kd_data : Z;
  kd_key_id : list byte;
  kd_key_id_size : N;
  kd_type : Z;
  kd_flags : N;
  kd_algorithm : Z
}.

(** [struct ncr_key_info_st] *)
Record ncr_key_info_st := {
  info_key : Z;
  info_flags : N;
  info_type : Z;
  info_algorithm : Z
}.

(** ** Kernel state *)

Record kernel := {
  k_heap : list (option key_item);  (* kmalloc'ed key items; None once freed *)
  k_keys : list addr;               (* key_lst->list, head first *)
  k_data : list data_item;          (* data_lst->list *)
  k_limits : file -> Z;             (* the limiter's counter for keys, per owner *)
  k_random : nat -> byte            (* what get_random_bytes will deliver *)
}.

Definition with_heap (h : list (option key_item)) (s : kernel) : kernel :=
  {| k_heap := h; k_keys := k_keys s; k_data := k_data s;
     k_limits := k_limits s; k_random := k_random s |}.

Definition with_keys (l : list addr) (s : kernel) : kernel :=
  {| k_heap := k_heap s; k_keys := l; k_data := k_data s;
     k_limits := k_limits s; k_random := k_random s |}.

Definition with_data (d : list data_item) (s : kernel) : kernel :=
  {| k_heap := k_heap s; k_keys := k_keys s; k_data := d;
     k_limits := k_limits s; k_random := k_random s |}.

Definition with_limits (c : file -> Z) (s : kernel) : kernel :=
  {| k_heap := k_heap s; k_keys := k_keys s; k_data := k_data s;
     k_limits := c; k_random := k_random s |}.

Definition with_random (r : nat -> byte) (s : kernel) : kernel :=
  {| k_heap := k_heap s; k_keys := k_keys s; k_data := k_data s;
     k_limits := k_limits s; k_random := r |}.

(** ** The monad of kernel code: state, and [None] for a memory fault *)

Definition M (A : Type) : Type := kernel -> option (A * kernel).

#[global] Instance M_ret : MRet M := fun A a s => Some (a, s).
#[global] Instance M_bind : MBind M := fun A B f m s =>
  match m s with
  | Some (a, s') => f a s'
  | None => None
  end.

Definition skip : M unit := mret tt.

(** ** Kernel memory *)

(** read [*p] *)
Definition load (p : addr) : M key_item := fun s =>
  match k_heap s !! p with
  | Some (Some k) => Some (k, s)
  | _ => None
  end.

(** write [*p] *)
Definition store (p : addr) (k : key_item) : M unit := fun s =>
  match k_heap s !! p with
  | Some (Some _) => Some (tt, with_heap (<[p := Some k]> (k_heap s)) s)
  | _ => None
  end.

Definition update (p : addr) (f : key_item -> key_item) : M unit :=
  k ← load p; store p (f k).

(** [kmalloc(sizeof(struct key_item), GFP_KERNEL)]: [outcome] is what the
    allocator answers, nothing on failure and otherwise the uninitialised
    contents of the new block, which sits at the next unused address. *)
Definition kmalloc (outcome : option key_item) : M (option addr) := fun s =>
  match outcome with
  | None => Some (None, s)
  | Some junk => Some (Some (length (k_heap s)),
                       with_heap (k_heap s ++ [Some junk]) s)
  end.

Definition kfree (p : addr) : M unit := fun s =>
  match k_heap s !! p with
  | Some (Some _) => Some (tt, with_heap (<[p := None]> (k_heap s)) s)
  | _ => None
  end.

(** [memcpy(dst, src, n)] on arrays: the first [n] bytes of [dst] are
    replaced by the first [n] bytes of [src]. *)
Definition memcpy (dst src : list byte) (n : N) : list byte :=
  take (N.to_nat n) src ++ drop (N.to_nat n) dst.

(** [get_random_bytes(buf, n)] *)
Definition get_random_bytes (n : N) : M (list byte) := fun s =>
  Some (map (k_random s) (seq 0 (N.to_nat n)),
        with_random (fun i => k_random s (N.to_nat n + i)%nat) s).

(** field writes *)
Definition set_type (v : Z) (k : key_item) : key_item :=
  {| ki_type := v; ki_flags := ki_flags k; ki_algorithm := ki_algorithm k;
     ki_key_id := ki_key_id k; ki_key_id_size := ki_key_id_size k;
     ki_secret_data := ki_secret_data k; ki_secret_size := ki_secret_size k;
     ki_refcnt := ki_refcnt k; ki_filp := ki_filp k; ki_desc := ki_desc k |}.

Definition set_flags (v : N) (k : key_item) : key_item :=
  {| ki_type := ki_type k; ki_flags := v; ki_algorithm := ki_algorithm k;
     ki_key_id := ki_key_id k; ki_key_id_size := ki_key_id_size k;
     ki_secret_data := ki_secret_data k; ki_secret_size := ki_secret_size k;
     ki_refcnt := ki_refcnt k; ki_filp := ki_filp k; ki_desc := ki_desc k |}.

Definition set_algorithm (v : Z) (k : key_item) : key_item :=
  {| ki_type := ki_type k; ki_flags := ki_flags k; ki_algorithm := v;
     ki_key_id := ki_key_id k; ki_key_id_size := ki_key_id_size k;
     ki_secret_data := ki_secret_data k; ki_secret_size := ki_secret_size k;
     ki_refcnt := ki_refcnt k; ki_filp := ki_filp k; ki_desc := ki_desc k |}.

Definition set_key_id (v : list byte) (k : key_item) : key_item :=
  {| ki_type := ki_type k; ki_flags := ki_flags k; ki_algorithm := ki_algorithm k;
     ki_key_id := v; ki_key_id_size := ki_key_id_size k;
     ki_secret_data := ki_secret_data k; ki_secret_size := ki_secret_size k;
     ki_refcnt := ki_refcnt k; ki_filp := ki_filp k; ki_desc := ki_desc k |}.

Definition set_key_id_size (v : N) (k : key_item) : key_item :=
  {| ki_type := ki_type k; ki_flags := ki_flags k; ki_algorithm := ki_algorithm k;
     ki_key_id := ki_key_id k; ki_key_id_size := v;
     ki_secret_data := ki_secret_data k; ki_secret_size := ki_secret_size k;
     ki_refcnt := ki_refcnt k; ki_filp := ki_filp k; ki_desc := ki_desc k |}.

Definition set_secret_data (v : list byte) (k : key_item) : key_item :=
  {| ki_type := ki_type k; ki_flags := ki_flags k; ki_algorithm := ki_algorithm k;
     ki_key_id := ki_key_id k; ki_key_id_size := ki_key_id_size k;
     ki_secret_data := v; ki_secret_size := ki_secret_size k;
     ki_refcnt := ki_refcnt k; ki_filp := ki_filp k; ki_desc := ki_desc k |}.

Definition set_secret_size (v : N) (k : key_item) : key_item :=
  {| ki_type := ki_type k; ki_flags := ki_flags k; ki_algorithm := ki_algorithm k;
     ki_key_id := ki_key_id k; ki_key_id_size := ki_key_id_size k;
     ki_secret_data := ki_secret_data k; ki_secret_size := v;
     ki_refcnt := ki_refcnt k; ki_filp := ki_filp k; ki_desc := ki_desc k |}.

Definition set_refcnt (v : Z) (k : key_item) : key_item :=
  {| ki_type := ki_type k; ki_flags := ki_flags k; ki_algorithm := ki_algorithm k;
     ki_key_id := ki_key_id k; ki_key_id_size := ki_key_id_size k;
     ki_secret_data := ki_secret_data k; ki_secret_size := ki_secret_size k;
     ki_refcnt := v; ki_filp := ki_filp k; ki_desc := ki_desc k |}.

Definition set_filp (v : file) (k : key_item) : key_item :=
  {| ki_type := ki_type k; ki_flags := ki_flags k; ki_algorithm := ki_algorithm k;
     ki_key_id := ki_key_id k; ki_key_id_size := ki_key_id_size k;
     ki_secret_data := ki_secret_data k; ki_secret_size := ki_secret_size k;
     ki_refcnt := ki_refcnt k; ki_filp := v; ki_desc := ki_desc k |}.

Definition set_desc (v : Z) (k : key_item) : key_item :=
  {| ki_type := ki_type k; ki_flags := ki_flags k; ki_algorithm := ki_algorithm k;
     ki_key_id := ki_key_id k; ki_key_id_size := ki_key_id_size k;
     ki_secret_data := ki_secret_data k; ki_secret_size := ki_secret_size k;
     ki_refcnt := ki_refcnt k; ki_filp := ki_filp k; ki_desc := v |}.

(** list.h on the registry's list of item pointers *)
Definition list_add (p : addr) : M unit := fun s =>
  Some (tt, with_keys (p :: k_keys s) s).

Fixpoint unlink (p : addr) (l : list addr) : list addr :=
  match l with
  | [] => []
  | q :: l' => if decide (q = p) then l' else q :: unlink p l'
  end.

Definition list_del (p : addr) : M unit := fun s =>
  Some (tt, with_keys (unlink p (k_keys s)) s).

(** ** The collaborators of ncr-key.c *)

Section Limiter.
Context {hdr : NcrHeaders}.

(** Modelled from the spec: the Resource Limiter (ncr-limits.c is not
    among the sources).  [admit(owner, resource_kind) -> Ok |
    ResourceExhausted] keeps one counter per owner, refuses when the
    owner's limit is reached and counts the key otherwise;
    [release(owner, resource_kind)] gives the slot back. *)
Definition ncr_limits_add_and_check (filp : file) : M Z := fun s =>
  if decide (max_keys_per_owner <= k_limits s filp)
  then Some (- EPERM, s)
  else Some (0, with_limits
                  (fun f => if decide (f = filp) then k_limits s f + 1
                            else k_limits s f) s).

Definition ncr_limits_remove (filp : file) : M unit := fun s =>
  Some (tt, with_limits
              (fun f => if decide (f = filp) then k_limits s f - 1
                        else k_limits s f) s).
End Limiter.

(** Modelled from the spec: the Data Buffer Store (ncr-data.c is not among
    the sources).  [borrow(handle) -> {bytes, capacity, exportable} |
    NotFound] looks the buffer up by its handle and takes a reference,
    [release(handle)] drops it.  A borrowed buffer is named by its
    position in the store. *)
Fixpoint data_find (l : list data_item) (desc : Z) : option nat :=
  match l with
  | [] => None
  | d :: l' => if decide (di_desc d = desc) then Some 0%nat
               else S <$> data_find l' desc
  end.

Definition di_set_refcnt (v : Z) (d : data_item) : data_item :=
  {| di_data := di_data d; di_data_size := di_data_size d;
     di_max_data_size := di_max_data_size d; di_flags := di_flags d;
     di_refcnt := v; di_desc := di_desc d |}.

Definition di_set_flags (v : N) (d : data_item) : data_item :=
  {| di_data := di_data d; di_data_size := di_data_size d;
     di_max_data_size := di_max_data_size d; di_flags := v;
     di_refcnt := di_refcnt d; di_desc := di_desc d |}.

Definition di_set_data (v : list byte) (d : data_item) : data_item :=
  {| di_data := v; di_data_size := di_data_size d;
     di_max_data_size := di_max_data_size d; di_flags := di_flags d;
     di_refcnt := di_refcnt d; di_desc := di_desc d |}.

Definition di_set_data_size (v : N) (d : data_item) : data_item :=
  {| di_data := di_data d; di_data_size := v;
     di_max_data_size := di_max_data_size d; di_flags := di_flags d;
     di_refcnt := di_refcnt d; di_desc := di_desc d |}.

(** read and write [*ditem] *)
Definition dload (i : nat) : M data_item := fun s =>
  match k_data s !! i with
  | Some d => Some (d, s)
  | None => None
  end.

Definition dupdate (i : nat) (f : data_item -> data_item) : M unit := fun s =>
  match k_data s !! i with
  | Some d => Some (tt, with_data (<[i := f d]> (k_data s)) s)
  | None => None
  end.

Definition ncr_data_item_get (desc : Z) : M (option nat) := fun s =>
  match data_find (k_data s) desc with
  | None => Some (None, s)
  | Some i =>
      (dupdate i (fun d => di_set_refcnt (wrap_int (di_refcnt d + 1)) d);;
       mret (Some i)) s
  end.

Definition _ncr_data_item_put (i : nat) : M unit :=
  dupdate i (fun d => di_set_refcnt (wrap_int (di_refcnt d - 1)) d).

(** ** ncr-key.c *)

Section NcrKey.
Context {hdr : NcrHeaders}.

(** the body of the loop of [_ncr_key_get_new_desc] *)
Fixpoint max_desc (l : list addr) (mx : Z) : M Z :=
  match l with
  | [] => mret mx
  | item :: l' => k ← load item; max_desc l' (Z.max mx (ki_desc k))
  end.

Definition _ncr_key_get_new_desc : M Z := fun s =>
  (mx ← max_desc (k_keys s) 0;
   mret (wrap_int (mx + 1))) s.

(** the scan of [ncr_key_item_get] *)
Fixpoint find_desc (l : list addr) (desc : Z) : M (option addr) :=
  match l with
  | [] => mret None
  | item :: l' =>
      k ← load item;
      if decide (ki_desc k = desc) then mret (Some item)
      else find_desc l' desc
  end.

Definition atomic_inc (item : addr) : M unit :=
  update item (fun k => set_refcnt (wrap_int (ki_refcnt k + 1)) k).

Definition ncr_key_item_get (desc : Z) : M (option addr) := fun s =>
  (r ← find_desc (k_keys s) desc;
   match r with
   | Some item => atomic_inc item;; mret (Some item)
   | None => mret None
   end) s.

(** [atomic_dec_and_test]: decrement, and tell whether zero was reached *)
Definition atomic_dec_and_test (item : addr) : M bool :=
  update item (fun k => set_refcnt (wrap_int (ki_refcnt k - 1)) k);;
  k ← load item;
  mret (bool_decide (ki_refcnt k = 0)).

Definition _ncr_key_item_put (item : addr) : M unit :=
  z ← atomic_dec_and_test item;
  if z : bool then
    k ← load item;
    ncr_limits_remove (ki_filp k);;
    kfree item
  else skip.

(** [memset(key, 0, sizeof( *key))] *)
Definition zero_key_item : key_item :=
  {| ki_type := 0; ki_flags := 0; ki_algorithm := 0;
     ki_key_id := replicate (N.to_nat MAX_KEY_ID_SIZE) Byte.x00;
     ki_key_id_size := 0;
     ki_secret_data := replicate (N.to_nat MAX_KEY_SIZE) Byte.x00;
     ki_secret_size := 0;
     ki_refcnt := 0; ki_filp := 0%nat; ki_desc := 0 |}.

(** [arg] is the [ncr_key_t] the caller's pointer refers to; the result
    carries the return value and what [arg] refers to afterwards. *)
Definition ncr_key_init (outcome : option key_item) (filp : file) (arg : Z)
  : M (Z * Z) :=
  ret ← ncr_limits_add_and_check filp;
  if decide (ret < 0) then mret (ret, arg)
  else
    key ← kmalloc outcome;
    match key with
    | None => mret (- ENOMEM, arg)
    | Some key =>
        store key zero_key_item;;
        update key (set_refcnt 1);;
        desc ← _ncr_key_get_new_desc;
        update key (set_desc desc);;
        update key (set_filp filp);;
        list_add key;;
        k ← load key;
        mret (0, ki_desc k)
    end.

(** the loop of [ncr_key_deinit]: unlink and release the first match *)
Fixpoint deinit_scan (l : list addr) (desc : Z) : M unit :=
  match l with
  | [] => skip
  | item :: l' =>
      k ← load item;
      if decide (ki_desc k = desc)
      then list_del item;; _ncr_key_item_put item
      else deinit_scan l' desc
  end.

Definition ncr_key_deinit (arg : Z) : M Z := fun s =>
  (deinit_scan (k_keys s) arg;; mret 0) s.

(** the loop of [ncr_key_list_deinit] *)
Fixpoint deinit_all (l : list addr) : M unit :=
  match l with
  | [] => skip
  | item :: l' => list_del item;; _ncr_key_item_put item;; deinit_all l'
  end.

Definition ncr_key_list_deinit : M unit := fun s =>
  deinit_all (k_keys s) s.

(** the [fail:] label of export and import *)
Definition fail_put (item : addr) (ditem : option nat) (ret : Z) : M Z :=
  _ncr_key_item_put item;;
  match ditem with
  | Some d => _ncr_data_item_put d
  | None => skip
  end;;
  mret ret.

Definition ncr_key_export (data : ncr_key_data_st) : M Z :=
  item ← ncr_key_item_get (kd_key data);
  match item with
  | None => mret (- EINVAL)
  | Some item =>
      ditem ← ncr_data_item_get (kd_data data);
      match ditem with
      | None => fail_put item None (- EINVAL)
      | Some ditem =>
          k ← load item;
          if decide (ki_type k = NCR_KEY_TYPE_SECRET) then
            d ← dload ditem;
            if decide (ki_secret_size k > di_max_data_size d)%N then
              fail_put item (Some ditem) (- EINVAL)
            else
              dupdate ditem (di_set_flags 0);;
              (if decide (N.land (ki_flags k) NCR_KEY_FLAG_EXPORTABLE ≠ 0%N)
               then dupdate ditem (fun d =>
                      di_set_flags (N.lor (di_flags d) NCR_DATA_FLAG_EXPORTABLE) d)
               else skip);;
              (if decide (ki_secret_size k > 0)%N
               then dupdate ditem (fun d =>
                      di_set_data (memcpy (di_data d) (ki_secret_data k)
                                          (ki_secret_size k)) d)
               else skip);;
              dupdate ditem (di_set_data_size (ki_secret_size k));;
              _ncr_key_item_put item;;
              _ncr_data_item_put ditem;;
              mret 0
          else (* NCR_KEY_TYPE_PUBLIC, NCR_KEY_TYPE_PRIVATE, default *)
            fail_put item (Some ditem) (- EINVAL)
      end
  end.

Definition ncr_key_import (data : ncr_key_data_st) : M Z :=
  item ← ncr_key_item_get (kd_key data);
  match item with
  | None => mret (- EINVAL)
  | Some item =>
      ditem ← ncr_data_item_get (kd_data data);
      match ditem with
      | None => fail_put item None (- EINVAL)
      | Some ditem =>
          update item (set_type (kd_type data));;
          update item (set_algorithm (kd_algorithm data));;
          update item (set_flags (kd_flags data));;
          d ← dload ditem;
          (if decide (N.land (di_flags d) NCR_DATA_FLAG_EXPORTABLE ≠ 0%N)
           then update item (fun k =>
                  set_flags (N.lor (ki_flags k) NCR_KEY_FLAG_EXPORTABLE) k)
           else skip);;
          k ← load item;
          if decide (ki_type k = NCR_KEY_TYPE_SECRET) then
            if decide (kd_key_id_size data > MAX_KEY_ID_SIZE)%N then
              fail_put item (Some ditem) (- EINVAL)
            else
              update item (set_key_id_size (kd_key_id_size data));;
              (if decide (kd_key_id_size data > 0)%N
               then update item (fun k =>
                      set_key_id (memcpy (ki_key_id k) (kd_key_id data)
                                         (kd_key_id_size data)) k)
               else skip);;
              d ← dload ditem;
              if decide (di_data_size d > MAX_KEY_SIZE)%N then
                fail_put item (Some ditem) (- EINVAL)
              else
                update item (fun k =>
                  set_secret_data (memcpy (ki_secret_data k) (di_data d)
                                          (di_data_size d)) k);;
                update item (set_secret_size (di_data_size d));;
                _ncr_key_item_put item;;
                _ncr_data_item_put ditem;;
                mret 0
          else (* NCR_KEY_TYPE_PRIVATE, NCR_KEY_TYPE_PUBLIC, default *)
            fail_put item (Some ditem) (- EINVAL)
      end
  end.

Definition ncr_key_generate (gen : ncr_key_generate_st) : M Z :=
  item ← ncr_key_item_get (gen_desc gen);
  match item with
  | None => mret (- EINVAL)
  | Some item =>
      (* we generate only secret keys *)
      update item (set_type (ncr_algorithm_to_key_type (gen_algorithm gen)));;
      k ← load item;
      if decide (ki_type k ≠ NCR_KEY_TYPE_SECRET) then
        _ncr_key_item_put item;; mret (- EINVAL)
      else
        update item (set_flags (gen_keyflags gen));;
        update item (set_algorithm (* arbitrary *) NCR_ALG_AES_CBC);;
        let size := (gen_bits gen / 8)%N in
        if decide ((gen_bits gen mod 8)%N ≠ 0%N ∨ (size > MAX_KEY_SIZE)%N) then
          _ncr_key_item_put item;; mret (- EINVAL)
        else
          rnd ← get_random_bytes size;
          update item (fun k =>
            set_secret_data (memcpy (ki_secret_data k) rnd size) k);;
          update item (set_secret_size size);;
          (* generate random key id *)
          update item (set_key_id_size 5);;
          k ← load item;
          rnd ← get_random_bytes (ki_key_id_size k);
          update item (fun k =>
            set_key_id (memcpy (ki_key_id k) rnd (ki_key_id_size k)) k);;
          _ncr_key_item_put item;;
          mret 0
  end.

(** The result carries the return value and the function's own
    [struct ncr_key_info_st info] as it stands at the return: the source
    fills it and has no [copy_to_user] for it. *)
Definition ncr_key_info (arg : ncr_key_info_st) : M (Z * ncr_key_info_st) :=
  let info := arg in
  item ← ncr_key_item_get (info_key info);
  match item with
  | None => mret (- EINVAL, info)
  | Some item =>
      k ← load item;
      let info := {| info_key := info_key info; info_flags := ki_flags k;
                     info_type := ki_type k;
                     info_algorithm := ki_algorithm k |} in
      _ncr_key_item_put item;;
      mret (0, info)
  end.

(* FIXME those require public key subsystem *)
Definition ncr_key_generate_pair {A} (arg : A) : M Z := mret (- EINVAL).
Definition ncr_key_derive {A} (arg : A) : M Z := mret (- EINVAL).
Definition ncr_key_get_public {A} (arg : A) : M Z := mret (- EINVAL).

End NcrKey.

(** * Vocabulary of the statements *)

(** the item [k] sits at address [p] *)
Definition key_at (s : kernel) (p : addr) (k : key_item) : Prop :=
  k_heap s !! p = Some (Some k).

(** the state after [*p = k] *)
Definition put_key (p : addr) (k : key_item) (s : kernel) : kernel :=
  with_heap (<[p := Some k]> (k_heap s)) s.

(** The item the scan of the registry stops at for the handle [desc]. *)
Fixpoint key_of (h : list (option key_item)) (l : list addr) (desc : Z)
  : option (addr * key_item) :=
  match l with
  | [] => None
  | p :: l' =>
      match h !! p with
      | Some (Some k) =>
          if decide (ki_desc k = desc) then Some (p, k) else key_of h l' desc
      | _ => None
      end
  end.

(** [desc] is the handle of the live key item [k], which sits at [p]: the
    registry links it, and holds its reference to it. *)
Definition live (s : kernel) (desc : Z) (p : addr) (k : key_item) : Prop :=
  key_of (k_heap s) (k_keys s) desc = Some (p, k) /\
  1 <= ki_refcnt k <= INT_MAX.

(** [desc] is the handle of the data buffer [d], the [i]-th of the store. *)
Definition dlive (s : kernel) (desc : Z) (i : nat) (d : data_item) : Prop :=
  data_find (k_data s) desc = Some i /\ k_data s !! i = Some d.

(** the bytes a key holds, and the bytes a data buffer holds *)
Definition material (k : key_item) : list byte :=
  take (N.to_nat (ki_secret_size k)) (ki_secret_data k).

Definition buffer_bytes (d : data_item) : list byte :=
  take (N.to_nat (di_data_size d)) (di_data d).

(** the state after [*ditem = d] *)
Definition put_data (i : nat) (d : data_item) (s : kernel) : kernel :=
  with_data (<[i := d]> (k_data s)) s.

(** the pointer [p] of the registry refers to an item the registry holds
    a reference to *)
Definition valid_ref (h : list (option key_item)) (p : addr) : Prop :=
  match h !! p with
  | Some (Some k) => 1 <= ki_refcnt k <= INT_MAX
  | _ => False
  end.

(** every node of the list is linked once and refers to a held item *)
Definition registry_ok (s : kernel) : Prop :=
  NoDup (k_keys s) /\ Forall (valid_ref (k_heap s)) (k_keys s).

(** no item of the registry has the handle [desc] *)
Definition unknown (s : kernel) (desc : Z) : Prop :=
  Forall (fun p => forall k, key_at s p k -> ki_desc k <> desc) (k_keys s).

Definition data_at (s : kernel) (i : nat) (d : data_item) : Prop :=
  k_data s !! i = Some d.

(** a buffer after it was borrowed and given back *)
Definition released (d : data_item) : data_item :=
  di_set_refcnt (wrap_int (wrap_int (di_refcnt d + 1) - 1)) d.

(** the handle stored in the item at [p] *)
Definition handle_of (h : list (option key_item)) (p : addr) : Z :=
  match h !! p with
  | Some (Some k) => ki_desc k
  | _ => 0
  end.

(** the handles of the registry, in list order *)
Definition handles (s : kernel) : list Z :=
  map (handle_of (k_heap s)) (k_keys s).

(** what the loop of [_ncr_key_get_new_desc] computes *)
Definition max_handle (s : kernel) : Z := fold_left Z.max (handles s) 0.

(** a registry whose handles are positive and pairwise distinct *)
Definition registry_inv (s : kernel) : Prop :=
  registry_ok s /\ NoDup (handles s) /\
  Forall (fun h => 1 <= h <= INT_MAX) (handles s).

Definition owned_by (f : file) (o : option key_item) : Z :=
  match o with
  | Some k => if decide (ki_filp k = f) then 1 else 0
  | None => 0
  end.

(** the number of key items of owner [f] in kernel memory *)
Fixpoint held (h : list (option key_item)) (f : file) : Z :=
  match h with
  | [] => 0
  | o :: h' => owned_by f o + held h' f
  end.

(** every owner is charged for exactly the items it has in memory *)
Definition paired (s : kernel) : Prop :=
  forall f, k_limits s f = held (k_heap s) f.

(** [m] keeps [P] *)
Definition preserves (P : kernel -> Prop) {A} (m : M A) : Prop :=
  forall s a s', P s -> m s = Some (a, s') -> P s'.

(** the state after the last reference to the item at [p], an item of
    owner [filp], was given back: the owner's slot is released and the
    memory of the item freed *)
Definition freed (p : addr) (filp : file) (s : kernel) : kernel :=
  with_heap (<[p := None]> (k_heap s))
    (with_limits (fun f => if decide (f = filp) then k_limits s f - 1
                           else k_limits s f) s).

(** a key flag word, or a buffer flag word, has the bit [bit] *)
Definition has_flag (flags bit : N) : Prop := N.land flags bit <> 0%N.

(** a sound state: the registry is well formed and the limiter charges
    every owner for exactly the items it has *)
Definition sound (s : kernel) : Prop := registry_inv s /\ paired s.

(** ** What the operations leave behind *)

Section Outcomes.
Context {hdr : NcrHeaders}.

(** what a successful [ncr_key_generate] leaves in the item *)
Definition generated (gen : ncr_key_generate_st) (s : kernel) (k : key_item)
  : key_item :=
  let size := (gen_bits gen / 8)%N in
  {| ki_type := NCR_KEY_TYPE_SECRET;
     ki_flags := gen_keyflags gen;
     ki_algorithm := NCR_ALG_AES_CBC;
     ki_key_id :=
       memcpy (ki_key_id k)
              (map (fun i => k_random s (N.to_nat size + i)%nat)
                   (seq 0 (N.to_nat 5))) 5;
     ki_key_id_size := 5;
     ki_secret_data :=
       memcpy (ki_secret_data k)
              (map (k_random s) (seq 0 (N.to_nat size))) size;
     ki_secret_size := size;
     ki_refcnt := ki_refcnt k;
     ki_filp := ki_filp k;
     ki_desc := ki_desc k |}.

(** what [ncr_key_export] returns and leaves in the buffer, borrow apart *)
Definition export_outcome (k : key_item) (d : data_item) : Z * data_item :=
  if decide (ki_type k = NCR_KEY_TYPE_SECRET) then
    if decide (ki_secret_size k > di_max_data_size d)%N then (- EINVAL, d)
    else
      (0, {| di_data :=
               if decide (ki_secret_size k > 0)%N
               then memcpy (di_data d) (ki_secret_data k) (ki_secret_size k)
               else di_data d;
             di_data_size := ki_secret_size k;
             di_max_data_size := di_max_data_size d;
             di_flags :=
               if decide (N.land (ki_flags k) NCR_KEY_FLAG_EXPORTABLE ≠ 0%N)
               then N.lor 0 NCR_DATA_FLAG_EXPORTABLE
               else 0%N;
             di_refcnt := di_refcnt d;
             di_desc := di_desc d |})
  else (- EINVAL, d).

(** the flags [ncr_key_import] gives the key *)
Definition import_flags (data : ncr_key_data_st) (d : data_item) : N :=
  if decide (N.land (di_flags d) NCR_DATA_FLAG_EXPORTABLE ≠ 0%N)
  then N.lor (kd_flags data) NCR_KEY_FLAG_EXPORTABLE
  else kd_flags data.

(** what [ncr_key_import] returns and leaves in the key item, borrow apart *)
Definition import_outcome (data : ncr_key_data_st) (d : data_item)
  (k : key_item) : Z * key_item :=
  let k1 := set_flags (import_flags data d)
              (set_algorithm (kd_algorithm data)
                 (set_type (kd_type data) k)) in
  if decide (kd_type data = NCR_KEY_TYPE_SECRET) then
    if decide (kd_key_id_size data > MAX_KEY_ID_SIZE)%N then (- EINVAL, k1)
    else
      let k2 := set_key_id
                  (if decide (kd_key_id_size data > 0)%N
                   then memcpy (ki_key_id k) (kd_key_id data)
                               (kd_key_id_size data)
                   else ki_key_id k)
                  (set_key_id_size (kd_key_id_size data) k1) in
      if decide (di_data_size d > MAX_KEY_SIZE)%N then (- EINVAL, k2)
      else
        (0, set_secret_size (di_data_size d)
              (set_secret_data
                 (memcpy (ki_secret_data k) (di_data d) (di_data_size d))
                 k2))
  else (- EINVAL, k1).

(** what [ncr_key_info] reads out of the item *)
Definition info_of (arg : ncr_key_info_st) (k : key_item) : ncr_key_info_st :=
  {| info_key := info_key arg; info_flags := ki_flags k;
     info_type := ki_type k; info_algorithm := ki_algorithm k |}.

(** the item [ncr_key_init] links into the registry *)
Definition fresh_item (filp : file) (desc : Z) : key_item :=
  set_filp filp (set_desc desc (set_refcnt 1 zero_key_item)).

(** the limiter after it has counted one more key of [filp] *)
Definition count_key (filp : file) (s : kernel) : kernel :=
  with_limits (fun f => if decide (f = filp) then k_limits s f + 1
                        else k_limits s f) s.

(** the state a successful [ncr_key_init] leaves *)
Definition allocated (filp : file) (s : kernel) : kernel :=
  with_keys (length (k_heap s) :: k_keys s)
    (with_heap
       (k_heap s ++ [Some (fresh_item filp (wrap_int (max_handle s + 1)))])
       (count_key filp s)).

(** [N] calls of [ncr_key_init] in a row, each with its own owner and its
    own answer of the allocator; the handles of the calls that succeeded
    are collected. *)
Fixpoint allocate_all (reqs : list (option key_item * file)) : M (list Z) :=
  match reqs with
  | [] => mret []
  | (outcome, filp) :: rest =>
      r ← ncr_key_init outcome filp 0;
      hs ← allocate_all rest;
      mret (if decide (r.1 = 0) then r.2 :: hs else hs)
  end.

(** the arrays of a key item have the lengths the structure declares,
    and its two length fields stay within them *)
Definition key_sized (k : key_item) : Prop :=
  length (ki_secret_data k) = N.to_nat MAX_KEY_SIZE /\
  length (ki_key_id k) = N.to_nat MAX_KEY_ID_SIZE /\
  (ki_secret_size k <= MAX_KEY_SIZE)%N /\
  (ki_key_id_size k <= MAX_KEY_ID_SIZE)%N.

(** the array of a data buffer has the buffer's capacity, and the length
    of its contents stays within it *)
Definition data_sized (d : data_item) : Prop :=
  length (di_data d) = N.to_nat (di_max_data_size d) /\
  (di_data_size d <= di_max_data_size d)%N.

(** every key item and every data buffer in memory is so *)
Definition sized (s : kernel) : Prop :=
  (forall p k, key_at s p k -> key_sized k) /\
  (forall i d, data_at s i d -> data_sized d).

End Outcomes.

(** * Sample sessions *)

(** ** A concrete set of headers *)

Module Sample.
(** Modelled from the spec: the Algorithm Catalog
    ([ncr_algorithm_to_key_type] is declared in the absent ncr_int.h).
    [classify(algorithm_id) -> {Secret, Public, Private}], with every
    unrecognised identifier mapped to a classification that fails
    generation's Secret check.  In this sample catalog the identifiers
    2 to 5 stand for secret-key ciphers (3 being AES-CBC) and 140 and 141
    for public-key algorithms. *)
Definition catalog (a : Z) : Z :=
  if decide (2 <= a <= 5) then 1
  else if decide (140 <= a <= 141) then 2
  else 0.

(** Modelled from the spec: the constants of ncr.h and ncr_int.h, with
    three distinct classifications, one Exportable bit on keys and one
    on data buffers, and the bounds [MAX_KEY_SIZE] and
    [MAX_KEY_ID_SIZE]; the 5-byte key id of [generate] fits. *)
Definition headers : NcrHeaders :=
  {| MAX_KEY_SIZE := 32;
     MAX_KEY_ID_SIZE := 20;
     NCR_KEY_TYPE_SECRET := 1;
     NCR_KEY_TYPE_PUBLIC := 2;
     NCR_KEY_TYPE_PRIVATE := 3;
     NCR_KEY_FLAG_EXPORTABLE := 1;
     NCR_DATA_FLAG_EXPORTABLE := 1;
     NCR_ALG_AES_CBC := 3;
     ncr_algorithm_to_key_type := catalog;
     max_keys_per_owner := 4 |}.

(** a data buffer of capacity [cap] holding [bs] *)
Definition buffer (desc : Z) (cap : N) (bs : list byte) (fl : N) : data_item :=
  {| di_data := bs ++ replicate (N.to_nat cap - length bs) Byte.x00;
     di_data_size := N.of_nat (length bs);
     di_max_data_size := cap;
     di_flags := fl; di_refcnt := 1; di_desc := desc |}.

(** a session that has just been opened, with the data buffers [bufs] *)
Definition boot (bufs : list data_item) : kernel :=
  {| k_heap := []; k_keys := []; k_data := bufs;
     k_limits := fun _ => 0;
     k_random := fun i => if Nat.even i then Byte.x5a else Byte.xc3 |}.

(** three data buffers, with handles 10, 11 and 12 *)
Definition bufs : list data_item :=
  [buffer 10 16 [Byte.x01; Byte.x02; Byte.x03] 0;
   buffer 11 2 [] 1;
   buffer 12 64 [] 0].

(** a key item as [allocate] leaves it, of owner 7 and with handle 1 *)
Definition item0 : key_item :=
  set_filp 7%nat (set_desc 1 (set_refcnt 1
    (zero_key_item (hdr := headers)))).

(** the session after owner 7 has allocated one key, which got handle 1 *)
Definition session : kernel :=
  {| k_heap := [Some item0];
     k_keys := [0%nat];
     k_data := bufs;
     k_limits := fun f => if decide (f = 7%nat) then 1 else 0;
     k_random := fun i => if Nat.even i then Byte.x5a else Byte.xc3 |}.

(** a request to generate an exportable 3DES-CBC key (algorithm 2) *)
Definition gen_3des (bits : N) : ncr_key_generate_st :=
  {| gen_desc := 1; gen_algorithm := 2; gen_keyflags := 1; gen_bits := bits |}.

(** an info request on handle 1 *)
Definition ask : ncr_key_info_st :=
  {| info_key := 1; info_flags := 0; info_type := 0; info_algorithm := 0 |}.

(** the state a run ends in *)
Definition run {A} (m : M A) (s : kernel) : kernel :=
  match m s with
  | Some (_, s') => s'
  | None => s
  end.

(** [session] once handle 1 holds a generated 16-byte key *)
Definition keyed : kernel :=
  run (ncr_key_generate (hdr := headers) (gen_3des 128))
           session.

(** the item behind handle 1 in [keyed] *)
Definition key16 : key_item :=
  generated (hdr := headers) (gen_3des 128) session item0.

(** a request on key 1 and the data buffer [buf] *)
Definition on_buffer (buf : Z) : ncr_key_data_st :=
  {| kd_key := 1; kd_data := buf; kd_key_id := [Byte.x09];
     kd_key_id_size := 1; kd_type := 1; kd_flags := 0; kd_algorithm := 3 |}.

(** a request to generate an RSA key (algorithm 140, public-key) *)
Definition gen_rsa : ncr_key_generate_st :=
  {| gen_desc := 1; gen_algorithm := 140; gen_keyflags := 0; gen_bits := 128 |}.

(** [session] after that request has failed: handle 1 is classified Public *)
Definition rsa_tried : kernel :=
  run (ncr_key_generate (hdr := headers) gen_rsa) session.

(** an import request on key 1 and buffer 10 that asks for a Public key *)
Definition import_public : ncr_key_data_st :=
  {| kd_key := 1; kd_data := 10; kd_key_id := [Byte.x09];
     kd_key_id_size := 1; kd_type := 2; kd_flags := 0; kd_algorithm := 140 |}.

(** a registry whose only item has the largest handle an [int] holds *)
Definition at_top : kernel :=
  {| k_heap := [Some (set_desc INT_MAX item0)];
     k_keys := [0%nat];
     k_data := [];
     k_limits := fun f => if decide (f = 7%nat) then 1 else 0;
     k_random := fun _ => Byte.x00 |}.

(** a second key item, of owner 8 and with handle 2 *)
Definition item1 : key_item :=
  set_filp 8%nat (set_desc 2 (set_refcnt 1
    (zero_key_item (hdr := headers)))).

(** [session] after owner 8 has allocated a key too, which got handle 2 *)
Definition two_keys : kernel :=
  {| k_heap := [Some item0; Some item1];
     k_keys := [1%nat; 0%nat];
     k_data := bufs;
     k_limits := fun f => if decide (f = 7%nat) then 1
                          else if decide (f = 8%nat) then 1 else 0;
     k_random := fun i => if Nat.even i then Byte.x5a else Byte.xc3 |}.

(** a request to generate a 3DES-CBC key that is not exportable and whose
    length is not a whole number of bytes *)
Definition gen_odd : ncr_key_generate_st :=
  {| gen_desc := 1; gen_algorithm := 2; gen_keyflags := 0; gen_bits := 129 |}.

(** a data buffer, with handle 13, that holds 40 bytes: more than a key
    can take *)
Definition long_buffer : data_item :=
  buffer 13 64 (replicate 40 Byte.xff) 0.

(** [keyed] with that buffer in the data store as well *)
Definition keyed_long : kernel :=
  with_data (bufs ++ [long_buffer]) keyed.

(** a request to generate an exportable 16-byte AES-CBC key on handle 2 *)
Definition gen_second : ncr_key_generate_st :=
  {| gen_desc := 2; gen_algorithm := 3; gen_keyflags := 1; gen_bits := 128 |}.

(** a request on key 2 and the data buffer [buf] *)
Definition second_to (buf : Z) : ncr_key_data_st :=
  {| kd_key := 2; kd_data := buf; kd_key_id := [];
     kd_key_id_size := 0; kd_type := 1; kd_flags := 0; kd_algorithm := 3 |}.
End Sample.

(** * Reasoning about kernel code *)

(** ** Machine arithmetic *)

Lemma wrap_int_id z : INT_MIN <= z <= INT_MAX -> wrap_int z = z.
Proof.
  unfold wrap_int, INT_MIN, INT_MAX. intros Hz.
  rewrite Z.mod_small by lia. lia.
Qed.

Lemma wrap_int_inc_dec r :
  INT_MIN <= r <= INT_MAX -> wrap_int (wrap_int (r + 1) - 1) = r.
Proof.
  unfold INT_MIN, INT_MAX. intros Hr.
  destruct (decide (r = 2147483647)) as [->|Hne]; [reflexivity|].
  rewrite (wrap_int_id (r + 1)) by (unfold INT_MIN, INT_MAX; lia).
  rewrite wrap_int_id by (unfold INT_MIN, INT_MAX; lia). lia.
Qed.

(** ** Running the monad *)

Lemma bind_some {A B} (m : M A) (f : A -> M B) s a s' :
  m s = Some (a, s') -> (m ≫= f) s = f a s'.
Proof. unfold mbind, M_bind. intros ->. reflexivity. Qed.

Lemma bind_inv {A B} (m : M A) (f : A -> M B) s b s2 :
  (m ≫= f) s = Some (b, s2) ->
  exists a s1, m s = Some (a, s1) /\ f a s1 = Some (b, s2).
Proof.
  unfold mbind, M_bind. destruct (m s) as [[a s1]|]; [|discriminate].
  intros Hf. exists a, s1. auto.
Qed.

(** ** Kernel memory *)

Lemma key_at_put s p k0 k : key_at s p k0 -> key_at (put_key p k s) p k.
Proof.
  unfold key_at, put_key. cbn. intros Hp.
  apply list_lookup_insert_eq. eapply lookup_lt_Some, Hp.
Qed.

Lemma put_put p k1 k2 s : put_key p k2 (put_key p k1 s) = put_key p k2 s.
Proof.
  unfold put_key, with_heap. cbn. f_equal. apply list_insert_insert_eq.
Qed.

Lemma put_same s p k : key_at s p k -> put_key p k s = s.
Proof.
  unfold key_at, put_key, with_heap. intros Hp. destruct s. cbn in *.
  f_equal. apply list_insert_id, Hp.
Qed.

Lemma load_at s p k : key_at s p k -> load p s = Some (k, s).
Proof. unfold key_at, load. intros ->. reflexivity. Qed.

Lemma store_at s p k0 k : key_at s p k0 -> store p k s = Some (tt, put_key p k s).
Proof. unfold key_at, store. intros ->. reflexivity. Qed.

Lemma update_at s p k f :
  key_at s p k -> update p f s = Some (tt, put_key p (f k) s).
Proof.
  intros Hp. unfold update.
  rewrite (bind_some _ _ _ _ _ (load_at _ _ _ Hp)).
  eapply store_at, Hp.
Qed.

Lemma load_inv s p k s' : load p s = Some (k, s') -> s' = s /\ key_at s p k.
Proof.
  unfold load, key_at. destruct (k_heap s !! p) as [[k0|]|]; [|discriminate..].
  intros [= -> ->]. auto.
Qed.

(** ** Handles *)

Lemma key_of_cons h p l desc :
  key_of h (p :: l) desc =
    match h !! p with
    | Some (Some k) =>
        if decide (ki_desc k = desc) then Some (p, k) else key_of h l desc
    | _ => None
    end.
Proof. reflexivity. Qed.

Lemma key_of_at h l desc p k :
  key_of h l desc = Some (p, k) ->
  h !! p = Some (Some k) /\ ki_desc k = desc /\ p ∈ l.
Proof.
  induction l as [|q l IH]; cbn; [discriminate|].
  destruct (h !! q) as [[kq|]|] eqn:Hq; [|discriminate..].
  destruct (decide (ki_desc kq = desc)) as [Hd|Hd].
  - intros [= -> ->]. repeat split; auto. apply list_elem_of_here.
  - intros Hl. destruct (IH Hl) as (? & ? & ?).
    repeat split; auto. by apply list_elem_of_further.
Qed.

Lemma key_of_insert h l desc p k k' :
  key_of h l desc = Some (p, k) -> ki_desc k' = desc ->
  key_of (<[p := Some k']> h) l desc = Some (p, k').
Proof.
  intros Hl Hd. induction l as [|q l IH]; [discriminate|].
  rewrite key_of_cons in Hl |- *.
  destruct (h !! q) as [[kq|]|] eqn:Hq; [|discriminate..].
  destruct (decide (q = p)) as [->|Hne].
  - rewrite list_lookup_insert_eq by (eapply lookup_lt_Some, Hq).
    rewrite decide_True by done.
    destruct (decide (ki_desc kq = desc)); [done|].
    apply key_of_at in Hl as (Hp & ? & _). congruence.
  - rewrite list_lookup_insert_ne by done. rewrite Hq.
    destruct (decide (ki_desc kq = desc)); [congruence|]. auto.
Qed.

Section NcrKeyFacts.
Context {hdr : NcrHeaders}.

Lemma find_desc_key_of s l desc p k :
  key_of (k_heap s) l desc = Some (p, k) ->
  find_desc l desc s = Some (Some p, s).
Proof.
  induction l as [|q l IH]; cbn; [discriminate|].
  destruct (k_heap s !! q) as [[kq|]|] eqn:Hq; [|discriminate..].
  rewrite (bind_some _ _ _ _ _ (load_at s q kq Hq)).
  destruct (decide (ki_desc kq = desc)); [by intros [= -> ->]|]. auto.
Qed.

Lemma live_at s desc p k : live s desc p k -> key_at s p k.
Proof. intros [Hl _]. by apply key_of_at in Hl as (? & _). Qed.

Lemma live_desc s desc p k : live s desc p k -> ki_desc k = desc.
Proof. intros [Hl _]. by apply key_of_at in Hl as (_ & ? & _). Qed.

(** a borrow: the item is found and its reference count goes up *)
Lemma ncr_key_item_get_live s desc p k :
  live s desc p k ->
  ncr_key_item_get desc s =
    Some (Some p, put_key p (set_refcnt (wrap_int (ki_refcnt k + 1)) k) s).
Proof.
  intros Hl. pose proof (live_at _ _ _ _ Hl) as Hp. destruct Hl as [Hl _].
  unfold ncr_key_item_get.
  rewrite (bind_some _ _ _ _ _ (find_desc_key_of _ _ _ _ _ Hl)).
  unfold atomic_inc.
  rewrite (bind_some _ _ _ _ _ (update_at _ _ _ _ Hp)). reflexivity.
Qed.

Lemma atomic_dec_and_test_at s p k :
  key_at s p k ->
  atomic_dec_and_test p s =
    Some (bool_decide (wrap_int (ki_refcnt k - 1) = 0),
          put_key p (set_refcnt (wrap_int (ki_refcnt k - 1)) k) s).
Proof.
  intros Hp. unfold atomic_dec_and_test.
  rewrite (bind_some _ _ _ _ _ (update_at _ _ _ _ Hp)).
  rewrite (bind_some _ _ _ _ _ (load_at _ _ _ (key_at_put _ _ _ _ Hp))).
  reflexivity.
Qed.

(** giving back a reference that is not the last one *)
Lemma _ncr_key_item_put_held s p k :
  key_at s p k -> wrap_int (ki_refcnt k - 1) <> 0 ->
  _ncr_key_item_put p s =
    Some (tt, put_key p (set_refcnt (wrap_int (ki_refcnt k - 1)) k) s).
Proof.
  intros Hp Hr. unfold _ncr_key_item_put.
  rewrite (bind_some _ _ _ _ _ (atomic_dec_and_test_at _ _ _ Hp)).
  by rewrite bool_decide_false.
Qed.

End NcrKeyFacts.

Lemma put_key_with_random p k r s :
  put_key p k (with_random r s) = with_random r (put_key p k s).
Proof. reflexivity. Qed.

Lemma put_key_put_data p k i d s :
  put_key p k (put_data i d s) = put_data i d (put_key p k s).
Proof. reflexivity. Qed.

Lemma with_random_twice r1 r2 s :
  with_random r2 (with_random r1 s) = with_random r2 s.
Proof. reflexivity. Qed.

Lemma key_at_with_random s r p k : key_at s p k -> key_at (with_random r s) p k.
Proof. exact id. Qed.

Lemma key_at_put_data s i d p k : key_at s p k -> key_at (put_data i d s) p k.
Proof. exact id. Qed.

Create HintDb heap.
#[export] Hint Resolve key_at_put key_at_with_random key_at_put_data : heap.

(** reading a field that was just written *)
Ltac norm :=
  cbn [fst snd ki_type ki_flags ki_algorithm ki_key_id ki_key_id_size
       ki_secret_data ki_secret_size ki_refcnt ki_filp ki_desc
       set_type set_flags set_algorithm set_key_id set_key_id_size
       set_secret_data set_secret_size set_refcnt set_filp set_desc
       di_data di_data_size di_max_data_size di_flags di_refcnt di_desc
       di_set_refcnt di_set_flags di_set_data di_set_data_size].

(** one step of kernel code on the item at [p] *)
Ltac step :=
  rewrite ?put_key_with_random, ?put_key_put_data, ?put_put;
  first
    [ erewrite (bind_some (update _ _)) by (apply update_at; eauto with heap)
    | erewrite (bind_some (load _)) by (apply load_at; eauto with heap)
    | erewrite (bind_some (get_random_bytes _)) by reflexivity ];
  cbv beta; norm.

(** ** Runs of [ncr_key_generate] *)

Section Generate.
Context {hdr : NcrHeaders}.

Lemma ncr_key_generate_ok s gen p k :
  live s (gen_desc gen) p k ->
  ncr_algorithm_to_key_type (gen_algorithm gen) = NCR_KEY_TYPE_SECRET ->
  (gen_bits gen mod 8 = 0)%N ->
  (gen_bits gen / 8 <= MAX_KEY_SIZE)%N ->
  ncr_key_generate gen s =
    Some (0, with_random
               (fun i => k_random s
                           (N.to_nat (gen_bits gen / 8) + (N.to_nat 5 + i))%nat)
               (put_key p (generated gen s k) s)).
Proof.
  intros Hl Hty Hmod Hsz.
  pose proof (live_at _ _ _ _ Hl) as Hp. destruct (Hl) as [_ Hr].
  unfold ncr_key_generate.
  rewrite (bind_some _ _ _ _ _ (ncr_key_item_get_live _ _ _ _ Hl)).
  do 2 step. cbn [ki_type set_type set_refcnt].
  rewrite decide_False by (intros Hne; apply Hne, Hty).
  do 2 step.
  rewrite decide_False by (intros [?|?]; [done|lia]).
  do 5 step. cbn [ki_key_id_size set_key_id_size].
  do 2 step.
  erewrite bind_some.
  2:{ apply _ncr_key_item_put_held; [eauto with heap|].
      cbn. rewrite wrap_int_inc_dec by (unfold INT_MIN; lia). lia. }
  rewrite ?put_key_with_random, ?put_put, with_random_twice.
  unfold mret, M_ret. do 4 f_equal.
  unfold generated. cbn.
  rewrite wrap_int_inc_dec by (unfold INT_MIN; lia). rewrite Hty.
  reflexivity.
Qed.

End Generate.

(** ** The registry as a whole *)

Lemma key_of_total h l desc :
  Forall (valid_ref h) l ->
  (exists p k, key_of h l desc = Some (p, k) /\ 1 <= ki_refcnt k <= INT_MAX) \/
  (key_of h l desc = None /\
   Forall (fun p => forall k, h !! p = Some (Some k) -> ki_desc k <> desc) l).
Proof.
  induction 1 as [|q l Hq Hl IH]; [right; split; [done|constructor]|].
  rewrite key_of_cons. unfold valid_ref in Hq.
  destruct (h !! q) as [[kq|]|] eqn:Eq; [|done..].
  destruct (decide (ki_desc kq = desc)) as [Hd|Hd]; [left; eauto|].
  destruct IH as [IH|[IH1 IH2]]; [by left|right]. split; [done|].
  constructor; [|done]. intros k Hk. by simplify_eq.
Qed.

Lemma registry_ok_lookup s desc :
  registry_ok s -> (exists p k, live s desc p k) \/ unknown s desc.
Proof.
  intros [_ Hv].
  destruct (key_of_total _ _ desc Hv) as [(p & k & ? & ?)|[_ Hu]].
  - left. exists p, k. by split.
  - by right.
Qed.

Section NotFound.
Context {hdr : NcrHeaders}.

Lemma find_desc_unknown s l desc :
  Forall (valid_ref (k_heap s)) l ->
  Forall (fun p => forall k, key_at s p k -> ki_desc k <> desc) l ->
  find_desc l desc s = Some (None, s).
Proof.
  induction 1 as [|q l Hq Hl IH]; [reflexivity|]. intros Hu.
  apply Forall_cons in Hu as [Hd Hu]. unfold valid_ref in Hq. cbn.
  destruct (k_heap s !! q) as [[kq|]|] eqn:Eq; [|done..].
  rewrite (bind_some _ _ _ _ _ (load_at s q kq Eq)).
  rewrite decide_False by (by apply Hd). auto.
Qed.

(** a lookup of a handle no item has: nothing is borrowed *)
Lemma ncr_key_item_get_unknown s desc :
  registry_ok s -> unknown s desc ->
  ncr_key_item_get desc s = Some (None, s).
Proof.
  intros [_ Hv] Hu. unfold ncr_key_item_get.
  by rewrite (bind_some _ _ _ _ _ (find_desc_unknown _ _ _ Hv Hu)).
Qed.

End NotFound.

(** borrowing and giving back leaves the item as it was *)
Lemma restore_refcnt (k k' : key_item) :
  1 <= ki_refcnt k <= INT_MAX ->
  ki_refcnt k' = wrap_int (ki_refcnt k + 1) ->
  wrap_int (ki_refcnt k' - 1) = ki_refcnt k /\ wrap_int (ki_refcnt k' - 1) <> 0.
Proof.
  intros Hr ->. rewrite wrap_int_inc_dec by (unfold INT_MIN; lia). lia.
Qed.

Section GenerateFailures.
Context {hdr : NcrHeaders}.

Lemma ncr_key_generate_unknown s gen :
  registry_ok s -> unknown s (gen_desc gen) ->
  ncr_key_generate gen s = Some (- EINVAL, s).
Proof.
  intros Hok Hu. unfold ncr_key_generate.
  by rewrite (bind_some _ _ _ _ _ (ncr_key_item_get_unknown _ _ Hok Hu)).
Qed.

Lemma ncr_key_generate_not_secret s gen p k :
  live s (gen_desc gen) p k ->
  ncr_algorithm_to_key_type (gen_algorithm gen) <> NCR_KEY_TYPE_SECRET ->
  ncr_key_generate gen s =
    Some (- EINVAL,
          put_key p (set_type (ncr_algorithm_to_key_type (gen_algorithm gen)) k) s).
Proof.
  intros Hl Hty.
  pose proof (live_at _ _ _ _ Hl) as Hp. destruct (Hl) as [_ Hr].
  unfold ncr_key_generate.
  rewrite (bind_some _ _ _ _ _ (ncr_key_item_get_live _ _ _ _ Hl)).
  do 2 step. cbn [ki_type set_type set_refcnt].
  rewrite decide_True by done.
  destruct (restore_refcnt k
    (set_type (ncr_algorithm_to_key_type (gen_algorithm gen))
       (set_refcnt (wrap_int (ki_refcnt k + 1)) k)) Hr eq_refl) as [Hr1 Hr2].
  erewrite bind_some by (apply _ncr_key_item_put_held; eauto with heap).
  rewrite !put_put, Hr1. reflexivity.
Qed.

Lemma ncr_key_generate_bad_bits s gen p k :
  live s (gen_desc gen) p k ->
  ncr_algorithm_to_key_type (gen_algorithm gen) = NCR_KEY_TYPE_SECRET ->
  (gen_bits gen mod 8 <> 0)%N \/ (gen_bits gen / 8 > MAX_KEY_SIZE)%N ->
  ncr_key_generate gen s =
    Some (- EINVAL,
          put_key p (set_algorithm NCR_ALG_AES_CBC
                       (set_flags (gen_keyflags gen)
                          (set_type NCR_KEY_TYPE_SECRET k))) s).
Proof.
  intros Hl Hty Hbits.
  pose proof (live_at _ _ _ _ Hl) as Hp. destruct (Hl) as [_ Hr].
  unfold ncr_key_generate.
  rewrite (bind_some _ _ _ _ _ (ncr_key_item_get_live _ _ _ _ Hl)).
  do 2 step. cbn [ki_type set_type set_refcnt].
  rewrite decide_False by (intros Hne; apply Hne, Hty).
  do 2 step. rewrite decide_True by done.
  destruct (restore_refcnt k
    (set_algorithm NCR_ALG_AES_CBC (set_flags (gen_keyflags gen)
       (set_type (ncr_algorithm_to_key_type (gen_algorithm gen))
          (set_refcnt (wrap_int (ki_refcnt k + 1)) k)))) Hr eq_refl)
    as [Hr1 Hr2].
  erewrite bind_some by (apply _ncr_key_item_put_held; eauto with heap).
  rewrite !put_put, Hr1, Hty. reflexivity.
Qed.

End GenerateFailures.

(** ** The data store *)

Lemma data_at_put s i d0 d : data_at s i d0 -> data_at (put_data i d s) i d.
Proof.
  unfold data_at, put_data. cbn. intros Hi.
  apply list_lookup_insert_eq. eapply lookup_lt_Some, Hi.
Qed.

Lemma data_at_put_key s p k i d : data_at s i d -> data_at (put_key p k s) i d.
Proof. exact id. Qed.

Lemma put_data_twice i d1 d2 s :
  put_data i d2 (put_data i d1 s) = put_data i d2 s.
Proof.
  unfold put_data, with_data. cbn. f_equal. apply list_insert_insert_eq.
Qed.

Lemma dload_at s i d : data_at s i d -> dload i s = Some (d, s).
Proof. unfold data_at, dload. intros ->. reflexivity. Qed.

Lemma dupdate_at s i d f :
  data_at s i d -> dupdate i f s = Some (tt, put_data i (f d) s).
Proof. unfold data_at, dupdate. intros ->. reflexivity. Qed.

#[export] Hint Resolve data_at_put data_at_put_key : heap.

Lemma data_find_lt l desc i : data_find l desc = Some i -> (i < length l)%nat.
Proof.
  revert i. induction l as [|d l IH]; intros i; cbn; [discriminate|].
  destruct (decide (di_desc d = desc)); [intros [= <-]; lia|].
  destruct (data_find l desc) as [j|]; [|discriminate].
  intros [= <-]. specialize (IH j eq_refl). lia.
Qed.

(** rewriting a buffer in place, keeping its handle, moves no handle *)
Lemma data_find_insert l i d d' desc :
  l !! i = Some d -> di_desc d' = di_desc d ->
  data_find (<[i := d']> l) desc = data_find l desc.
Proof.
  revert i. induction l as [|d0 l IH]; intros i; [done|].
  destruct i as [|i].
  - intros [= ->] Hd. change (<[0%nat := d']> (d :: l)) with (d' :: l).
    unfold data_find. by rewrite Hd.
  - intros Hi Hd. change (<[S i := d']> (d0 :: l)) with (d0 :: <[i := d']> l).
    change (data_find (d0 :: <[i := d']> l) desc)
      with (if decide (di_desc d0 = desc) then Some 0%nat
            else S <$> data_find (<[i := d']> l) desc).
    by rewrite (IH i Hi Hd).
Qed.

Lemma ncr_data_item_get_live s desc i d :
  dlive s desc i d ->
  ncr_data_item_get desc s =
    Some (Some i, put_data i (di_set_refcnt (wrap_int (di_refcnt d + 1)) d) s).
Proof.
  intros [Hf Hi]. unfold ncr_data_item_get. rewrite Hf.
  by rewrite (bind_some _ _ _ _ _ (dupdate_at _ _ _ _ Hi)).
Qed.

Lemma ncr_data_item_get_unknown s desc :
  data_find (k_data s) desc = None ->
  ncr_data_item_get desc s = Some (None, s).
Proof. unfold ncr_data_item_get. by intros ->. Qed.

Lemma _ncr_data_item_put_at s i d :
  data_at s i d ->
  _ncr_data_item_put i s =
    Some (tt, put_data i (di_set_refcnt (wrap_int (di_refcnt d - 1)) d) s).
Proof.
  intros Hi. unfold _ncr_data_item_put. by rewrite (dupdate_at _ _ _ _ Hi).
Qed.

(** one step of kernel code on the item at [p] and the buffer at [i] *)
Ltac dstep :=
  rewrite ?put_key_put_data, ?put_put, ?put_data_twice;
  first
    [ erewrite (bind_some (update _ _)) by (apply update_at; eauto with heap)
    | erewrite (bind_some (load _)) by (apply load_at; eauto with heap)
    | erewrite (bind_some (dupdate _ _)) by (apply dupdate_at; eauto with heap)
    | erewrite (bind_some (dload _)) by (apply dload_at; eauto with heap)
    | erewrite (bind_some (_ncr_data_item_put _))
        by (apply _ncr_data_item_put_at; eauto with heap)
    | erewrite (bind_some skip) by reflexivity ];
  cbv beta match; norm.

(** ** Runs of [ncr_key_export], [ncr_key_import] and [ncr_key_info] *)

(** give the borrowed item back *)
Ltac put_step :=
  rewrite ?put_key_put_data, ?put_put, ?put_data_twice;
  erewrite (bind_some (_ncr_key_item_put _))
    by (apply _ncr_key_item_put_held;
        [ eauto with heap
        | norm; rewrite wrap_int_inc_dec by (unfold INT_MIN; lia); lia ]);
  cbv beta match; norm.

Lemma set_refcnt_back (k : key_item) r :
  set_refcnt (ki_refcnt k) (set_refcnt r k) = k.
Proof. by destruct k. Qed.

(** the end of a run: compare the states reached *)
Ltac settle Hp Hr :=
  rewrite ?put_key_put_data, ?put_put, ?put_data_twice;
  norm;
  match type of Hr with
  | _ <= ki_refcnt ?k <= _ =>
      rewrite ?(wrap_int_inc_dec (ki_refcnt k)) by (unfold INT_MIN; lia);
      rewrite ?set_refcnt_back, ?(put_same _ _ _ Hp);
      try reflexivity;
      destruct k; reflexivity
  end.

Section ExportImport.
Context {hdr : NcrHeaders}.

Lemma ncr_key_export_run s data p k i d :
  live s (kd_key data) p k -> dlive s (kd_data data) i d ->
  ncr_key_export data s =
    Some (fst (export_outcome k d),
          put_data i (released (snd (export_outcome k d))) s).
Proof.
  intros Hl Hd.
  pose proof (live_at _ _ _ _ Hl) as Hp. destruct (Hl) as [_ Hr].
  destruct (Hd) as [_ Hi]. fold (data_at s i d) in Hi.
  unfold ncr_key_export.
  rewrite (bind_some _ _ _ _ _ (ncr_key_item_get_live _ _ _ _ Hl)).
  erewrite (bind_some (ncr_data_item_get _))
    by (apply ncr_data_item_get_live; apply Hd).
  cbv beta match. dstep.
  cbn [ki_type ki_secret_size ki_flags ki_secret_data set_refcnt].
  unfold export_outcome.
  destruct (decide (ki_type k = NCR_KEY_TYPE_SECRET)) as [Hty|Hty].
  - dstep. cbn [di_max_data_size di_set_refcnt].
    destruct (decide (ki_secret_size k > di_max_data_size d)%N) as [Hsz|Hsz].
    + unfold fail_put. put_step. dstep. settle Hp Hr.
    + dstep.
      destruct (decide (N.land (ki_flags k) NCR_KEY_FLAG_EXPORTABLE ≠ 0%N));
        destruct (decide (ki_secret_size k > 0)%N);
        repeat dstep; put_step; dstep; settle Hp Hr.
  - unfold fail_put. put_step. dstep. settle Hp Hr.
Qed.

End ExportImport.

Section ImportRun.
Context {hdr : NcrHeaders}.

Lemma ncr_key_import_run s data p k i d :
  live s (kd_key data) p k -> dlive s (kd_data data) i d ->
  ncr_key_import data s =
    Some (fst (import_outcome data d k),
          put_data i (released d)
            (put_key p (snd (import_outcome data d k)) s)).
Proof.
  intros Hl Hd.
  pose proof (live_at _ _ _ _ Hl) as Hp. destruct (Hl) as [_ Hr].
  destruct (Hd) as [_ Hi]. fold (data_at s i d) in Hi.
  unfold ncr_key_import.
  rewrite (bind_some _ _ _ _ _ (ncr_key_item_get_live _ _ _ _ Hl)).
  erewrite (bind_some (ncr_data_item_get _))
    by (apply ncr_data_item_get_live; apply Hd).
  cbv beta match. do 4 dstep. cbn [di_flags di_set_refcnt].
  unfold import_outcome, import_flags.
  destruct (decide (N.land (di_flags d) NCR_DATA_FLAG_EXPORTABLE ≠ 0%N));
    repeat dstep; cbn [ki_type set_type set_flags set_algorithm set_refcnt];
    (destruct (decide (kd_type data = NCR_KEY_TYPE_SECRET));
     [ destruct (decide (kd_key_id_size data > MAX_KEY_ID_SIZE)%N);
       [ unfold fail_put; put_step; dstep; settle Hp Hr
       | dstep;
         destruct (decide (kd_key_id_size data > 0)%N);
         repeat dstep; cbn [di_data_size di_set_refcnt];
         (destruct (decide (di_data_size d > MAX_KEY_SIZE)%N);
          [ unfold fail_put; put_step; dstep; settle Hp Hr
          | repeat dstep; put_step; dstep; settle Hp Hr ]) ]
     | unfold fail_put; put_step; dstep; settle Hp Hr ]).
Qed.

End ImportRun.

Lemma live_put s desc p k k' :
  live s desc p k -> ki_desc k' = desc -> 1 <= ki_refcnt k' <= INT_MAX ->
  live (put_key p k' s) desc p k'.
Proof.
  intros [Hl _] Hd Hr. split; [|done]. cbn. by eapply key_of_insert.
Qed.

Lemma live_with_random s r desc p k :
  live s desc p k -> live (with_random r s) desc p k.
Proof. exact id. Qed.

Lemma live_put_data s i d desc p k :
  live s desc p k -> live (put_data i d s) desc p k.
Proof. exact id. Qed.

Section Info.
Context {hdr : NcrHeaders}.

Lemma ncr_key_info_run s arg p k :
  live s (info_key arg) p k ->
  ncr_key_info arg s = Some ((0, info_of arg k), s).
Proof.
  intros Hl.
  pose proof (live_at _ _ _ _ Hl) as Hp. destruct (Hl) as [_ Hr].
  unfold ncr_key_info. cbv zeta.
  rewrite (bind_some _ _ _ _ _ (ncr_key_item_get_live _ _ _ _ Hl)).
  cbv beta match. dstep. put_step. settle Hp Hr.
Qed.

End Info.

(** * The claims *)

(** ** generate and info *)

Section Claims.
Context {hdr : NcrHeaders}.

Lemma generate_inv s gen p k s1 :
  live s (gen_desc gen) p k ->
  ncr_key_generate gen s = Some (0, s1) ->
  ncr_algorithm_to_key_type (gen_algorithm gen) = NCR_KEY_TYPE_SECRET /\
  s1 = with_random
         (fun i => k_random s
                     (N.to_nat (gen_bits gen / 8) + (N.to_nat 5 + i))%nat)
         (put_key p (generated gen s k) s).
Proof.
  intros Hl Hrun.
  destruct (decide (ncr_algorithm_to_key_type (gen_algorithm gen)
                    = NCR_KEY_TYPE_SECRET)) as [Hty|Hty].
  - destruct (decide ((gen_bits gen mod 8)%N ≠ 0%N
                      ∨ (gen_bits gen / 8 > MAX_KEY_SIZE)%N)) as [Hb|Hb].
    + rewrite (ncr_key_generate_bad_bits _ _ _ _ Hl Hty Hb) in Hrun.
      discriminate.
    + rewrite (ncr_key_generate_ok _ _ _ _ Hl Hty) in Hrun.
      * by injection Hrun as <-.
      * destruct (decide ((gen_bits gen mod 8)%N = 0%N)); tauto.
      * apply N.le_ngt. intros Hlt. apply Hb. right. by apply N.gt_lt_iff.
  - rewrite (ncr_key_generate_not_secret _ _ _ _ Hl Hty) in Hrun.
    discriminate.
Qed.

(** what [info] reads once [generate] has succeeded *)
Lemma info_after_generate s gen p k s1 arg :
  live s (gen_desc gen) p k ->
  ncr_key_generate gen s = Some (0, s1) ->
  info_key arg = gen_desc gen ->
  ncr_key_info arg s1 = Some ((0, info_of arg (generated gen s k)), s1).
Proof.
  intros Hl Hrun Harg.
  destruct (generate_inv _ _ _ _ _ Hl Hrun) as [Hty ->].
  apply (ncr_key_info_run _ _ p). rewrite Harg.
  apply live_with_random. eapply live_put; [apply Hl| |apply Hl].
  by apply live_desc in Hl.
Qed.

(** whatever the catalog, a secret-key algorithm other than AES-CBC is not
    what [info] reads after [generate] *)
Lemma info_after_generate_other s gen p k s1 arg :
  live s (gen_desc gen) p k ->
  ncr_key_generate gen s = Some (0, s1) ->
  info_key arg = gen_desc gen ->
  gen_algorithm gen <> NCR_ALG_AES_CBC ->
  exists info,
    ncr_key_info arg s1 = Some ((0, info), s1) /\
    info_algorithm info <> gen_algorithm gen.
Proof.
  intros Hl Hrun Harg Hne. eexists. split.
  - by eapply info_after_generate.
  - cbn. congruence.
Qed.

(** C1, as the code has it: if [generate(H, algorithm=A,
    requested_bits=128, keyflags=Exportable)] succeeds on a live handle
    [H], then a subsequent [info(H)] succeeds and reads
    classification Secret, flags Exportable and the algorithm
    [NCR_ALG_AES_CBC], the fixed tag [generate] stores whatever [A] was. *)
Theorem generate_then_info s gen p k s1 arg :
  live s (gen_desc gen) p k ->
  gen_bits gen = 128%N ->
  gen_keyflags gen = NCR_KEY_FLAG_EXPORTABLE ->
  ncr_key_generate gen s = Some (0, s1) ->
  info_key arg = gen_desc gen ->
  exists info,
    ncr_key_info arg s1 = Some ((0, info), s1) /\
    info_type info = NCR_KEY_TYPE_SECRET /\
    info_flags info = NCR_KEY_FLAG_EXPORTABLE /\
    info_algorithm info = NCR_ALG_AES_CBC.
Proof.
  intros Hl Hbits Hfl Hrun Harg.
  exists (info_of arg (generated gen s k)). split.
  - by eapply info_after_generate.
  - by rewrite <- Hfl.
Qed.
End Claims.

(** C1, as stated, fails: 3DES-CBC (algorithm 2) is a secret-key algorithm,
    [generate] succeeds with it, and [info] then reads AES-CBC (3). *)
Lemma generate_then_info_other_algorithm :
  exists s1 info,
    ncr_key_generate (hdr := Sample.headers) (Sample.gen_3des 128) Sample.session
      = Some (0, s1) /\
    ncr_key_info Sample.ask s1 = Some ((0, info), s1) /\
    info_type info = 1 /\ info_flags info = 1%N /\
    info_algorithm info = 3 /\
    info_algorithm info <> gen_algorithm (Sample.gen_3des 128).
Proof.
  eexists _, _. split; [cbv; reflexivity|].
  split; [cbv; reflexivity|].
  repeat split. discriminate.
Qed.

Lemma session_reached :
  ncr_key_init (hdr := Sample.headers) (Some Sample.item0) 7%nat 0
    (Sample.boot Sample.bufs) = Some ((0, 1), Sample.session).
Proof. vm_compute. reflexivity. Qed.

Lemma generate_then_info_witness :
  exists info,
    ncr_key_info Sample.ask
      (Sample.run (ncr_key_generate (hdr := Sample.headers) (Sample.gen_3des 128))
                Sample.session)
    = Some ((0, info),
            Sample.run (ncr_key_generate (hdr := Sample.headers) (Sample.gen_3des 128))
                     Sample.session) /\
    info_type info = 1 /\ info_flags info = 1%N /\ info_algorithm info = 3.
Proof.
  apply (generate_then_info (hdr := Sample.headers) Sample.session
           (Sample.gen_3des 128) 0%nat Sample.item0).
  - split; [vm_compute; reflexivity|]. cbn. unfold INT_MAX. lia.
  - reflexivity.
  - reflexivity.
  - vm_compute; reflexivity.
  - reflexivity.
Defined.

Section ClaimsGenerate.
Context {hdr : NcrHeaders}.

Lemma material_generated gen s k :
  length (material (generated gen s k)) = N.to_nat (gen_bits gen / 8).
Proof.
  unfold material, generated, memcpy. cbn [ki_secret_size ki_secret_data].
  rewrite length_take, length_app, length_take, length_map, length_seq.
  lia.
Qed.

(** C8: whatever the handle, [generate] fails with -EINVAL when
    [requested_bits] is not a multiple of 8 or [requested_bits / 8]
    exceeds [MAX_KEY_SIZE]; otherwise, on a live handle and with an
    algorithm the catalog classifies as Secret, it succeeds and the
    item's material is a byte sequence of length [requested_bits / 8]. *)
Theorem generate_checks_bits s gen :
  registry_ok s ->
  ((gen_bits gen mod 8 <> 0)%N \/ (gen_bits gen / 8 > MAX_KEY_SIZE)%N ->
   exists s', ncr_key_generate gen s = Some (- EINVAL, s')) /\
  (~ ((gen_bits gen mod 8 <> 0)%N \/ (gen_bits gen / 8 > MAX_KEY_SIZE)%N) ->
   forall p k,
     live s (gen_desc gen) p k ->
     ncr_algorithm_to_key_type (gen_algorithm gen) = NCR_KEY_TYPE_SECRET ->
     exists s' k',
       ncr_key_generate gen s = Some (0, s') /\
       key_at s' p k' /\
       ki_secret_size k' = (gen_bits gen / 8)%N /\
       length (material k') = N.to_nat (gen_bits gen / 8)).
Proof.
  intros Hok. split.
  - intros Hbad.
    destruct (registry_ok_lookup s (gen_desc gen) Hok) as [(p & k & Hl)|Hu].
    + destruct (decide (ncr_algorithm_to_key_type (gen_algorithm gen)
                        = NCR_KEY_TYPE_SECRET)) as [Hty|Hty].
      * eexists. by apply ncr_key_generate_bad_bits.
      * eexists. by apply ncr_key_generate_not_secret.
    + eexists. by apply ncr_key_generate_unknown.
  - intros Hgood p k Hl Hty.
    eexists _, (generated gen s k). split; [|split; [|split]].
    + apply ncr_key_generate_ok; [done..| |].
      * destruct (decide ((gen_bits gen mod 8)%N = 0%N)); tauto.
      * apply N.le_ngt. intros Hlt. apply Hgood. right.
        by apply N.gt_lt_iff.
    + apply key_at_with_random. eapply key_at_put, live_at, Hl.
    + reflexivity.
    + apply material_generated.
Qed.

(** C10: when [generate] fails its [requested_bits] validation, the
    item's key material, material length, key id and key id length are
    what they were before the call, while classification, flags and
    algorithm have been written by the failing call. *)
Theorem generate_bad_bits_frame s gen p k :
  live s (gen_desc gen) p k ->
  ncr_algorithm_to_key_type (gen_algorithm gen) = NCR_KEY_TYPE_SECRET ->
  (gen_bits gen mod 8 <> 0)%N \/ (gen_bits gen / 8 > MAX_KEY_SIZE)%N ->
  exists s' k',
    ncr_key_generate gen s = Some (- EINVAL, s') /\
    key_at s' p k' /\
    ki_secret_data k' = ki_secret_data k /\
    ki_secret_size k' = ki_secret_size k /\
    ki_key_id k' = ki_key_id k /\
    ki_key_id_size k' = ki_key_id_size k /\
    ki_type k' = NCR_KEY_TYPE_SECRET /\
    ki_flags k' = gen_keyflags gen /\
    ki_algorithm k' = NCR_ALG_AES_CBC.
Proof.
  intros Hl Hty Hbad. eexists _, _. split.
  - by apply ncr_key_generate_bad_bits.
  - split; [eapply key_at_put, live_at, Hl|]. by repeat split.
Qed.

End ClaimsGenerate.

Lemma session_ok : registry_ok Sample.session.
Proof.
  split; [apply NoDup_singleton|].
  repeat constructor; cbn; unfold INT_MAX; lia.
Qed.

Lemma session_live : live Sample.session 1 0%nat Sample.item0.
Proof. split; [vm_compute; reflexivity|]. cbn. unfold INT_MAX. lia. Qed.

Lemma generate_checks_bits_witness :
  (exists s', ncr_key_generate (hdr := Sample.headers) (Sample.gen_3des 255)
                Sample.session = Some (- EINVAL, s')) /\
  (exists s', ncr_key_generate (hdr := Sample.headers) (Sample.gen_3des 264)
                Sample.session = Some (- EINVAL, s')) /\
  (exists s' k',
     ncr_key_generate (hdr := Sample.headers) (Sample.gen_3des 128) Sample.session
       = Some (0, s') /\
     key_at s' 0%nat k' /\ ki_secret_size k' = 16%N /\
     length (material k') = 16%nat).
Proof.
  split; [|split].
  - apply (proj1 (generate_checks_bits (hdr := Sample.headers) Sample.session
                    (Sample.gen_3des 255) session_ok)).
    left. discriminate.
  - apply (proj1 (generate_checks_bits (hdr := Sample.headers) Sample.session
                    (Sample.gen_3des 264) session_ok)).
    right. reflexivity.
  - eapply (proj2 (generate_checks_bits (hdr := Sample.headers) Sample.session
                     (Sample.gen_3des 128) session_ok)).
    + intros [Hb|Hb]; [by apply Hb|discriminate Hb].
    + exact session_live.
    + reflexivity.
Defined.

Lemma generate_bad_bits_frame_witness :
  exists s' k',
    ncr_key_generate (hdr := Sample.headers) (Sample.gen_3des 255) Sample.session
      = Some (- EINVAL, s') /\
    key_at s' 0%nat k' /\
    ki_secret_data k' = replicate 32 Byte.x00 /\
    ki_secret_size k' = 0%N /\
    ki_key_id k' = replicate 20 Byte.x00 /\
    ki_key_id_size k' = 0%N /\
    ki_type k' = 1 /\ ki_flags k' = 1%N /\ ki_algorithm k' = 3.
Proof.
  apply (generate_bad_bits_frame (hdr := Sample.headers) Sample.session
           (Sample.gen_3des 255) 0%nat _ session_live).
  - reflexivity.
  - left. discriminate.
Defined.

(** ** Failed validation *)

Section ClaimsValidation.
Context {hdr : NcrHeaders}.

(** C2, as the code has it: a call to [generate] or [import] that fails
    one of its validation checks leaves the key item's material bytes and
    material length as they were, and of the other persisted fields it
    rewrites exactly those the code assigns before the failing check:
    - [generate] failing on the classification rewrites the
      classification alone, with what the catalog says of the requested
      algorithm; algorithm, flags and key id are kept;
    - [generate] failing on the requested bits rewrites classification,
      flags and algorithm; the key id is kept;
    - [import] failing on the classification or on the length of the key
      id rewrites classification, algorithm and flags; the key id is kept;
    - [import] failing on the length of the source buffer rewrites
      classification, algorithm and flags, and the key id with its
      length as well. *)
Theorem failed_validation_keeps_material s p k :
  (forall gen,
     live s (gen_desc gen) p k ->
     ncr_algorithm_to_key_type (gen_algorithm gen) <> NCR_KEY_TYPE_SECRET ->
     exists s' k',
       ncr_key_generate gen s = Some (- EINVAL, s') /\
       key_at s' p k' /\
       ki_secret_data k' = ki_secret_data k /\
       ki_secret_size k' = ki_secret_size k /\
       ki_key_id k' = ki_key_id k /\
       ki_key_id_size k' = ki_key_id_size k /\
       ki_type k' = ncr_algorithm_to_key_type (gen_algorithm gen) /\
       ki_flags k' = ki_flags k /\
       ki_algorithm k' = ki_algorithm k) /\
  (forall gen,
     live s (gen_desc gen) p k ->
     ncr_algorithm_to_key_type (gen_algorithm gen) = NCR_KEY_TYPE_SECRET ->
     (gen_bits gen mod 8 <> 0)%N \/ (gen_bits gen / 8 > MAX_KEY_SIZE)%N ->
     exists s' k',
       ncr_key_generate gen s = Some (- EINVAL, s') /\
       key_at s' p k' /\
       ki_secret_data k' = ki_secret_data k /\
       ki_secret_size k' = ki_secret_size k /\
       ki_key_id k' = ki_key_id k /\
       ki_key_id_size k' = ki_key_id_size k /\
       ki_type k' = NCR_KEY_TYPE_SECRET /\
       ki_flags k' = gen_keyflags gen /\
       ki_algorithm k' = NCR_ALG_AES_CBC) /\
  (forall data i d,
     live s (kd_key data) p k ->
     dlive s (kd_data data) i d ->
     kd_type data <> NCR_KEY_TYPE_SECRET \/
     (kd_key_id_size data > MAX_KEY_ID_SIZE)%N ->
     exists s' k',
       ncr_key_import data s = Some (- EINVAL, s') /\
       key_at s' p k' /\
       ki_secret_data k' = ki_secret_data k /\
       ki_secret_size k' = ki_secret_size k /\
       ki_key_id k' = ki_key_id k /\
       ki_key_id_size k' = ki_key_id_size k /\
       ki_type k' = kd_type data /\
       ki_flags k' = import_flags data d /\
       ki_algorithm k' = kd_algorithm data) /\
  (forall data i d,
     live s (kd_key data) p k ->
     dlive s (kd_data data) i d ->
     kd_type data = NCR_KEY_TYPE_SECRET ->
     (kd_key_id_size data <= MAX_KEY_ID_SIZE)%N ->
     (di_data_size d > MAX_KEY_SIZE)%N ->
     exists s' k',
       ncr_key_import data s = Some (- EINVAL, s') /\
       key_at s' p k' /\
       ki_secret_data k' = ki_secret_data k /\
       ki_secret_size k' = ki_secret_size k /\
       ki_key_id k' =
         (if decide (kd_key_id_size data > 0)%N
          then memcpy (ki_key_id k) (kd_key_id data) (kd_key_id_size data)
          else ki_key_id k) /\
       ki_key_id_size k' = kd_key_id_size data /\
       ki_type k' = kd_type data /\
       ki_flags k' = import_flags data d /\
       ki_algorithm k' = kd_algorithm data).
Proof.
  split; [|split; [|split]].
  - intros gen Hl Hty.
    eexists _, _. split; [by apply ncr_key_generate_not_secret|].
    split; [eapply key_at_put, live_at, Hl|]. by repeat split.
  - intros gen Hl Hty Hbits.
    eexists _, _. split; [by apply ncr_key_generate_bad_bits|].
    split; [eapply key_at_put, live_at, Hl|]. by repeat split.
  - intros data i d Hl Hd Hbad.
    exists (put_data i (released d)
              (put_key p (snd (import_outcome data d k)) s)),
           (snd (import_outcome data d k)).
    rewrite (ncr_key_import_run _ _ _ _ _ _ Hl Hd).
    assert (Hp : key_at (put_data i (released d)
                   (put_key p (import_outcome data d k).2 s)) p
                   (import_outcome data d k).2)
      by (eapply key_at_put_data, key_at_put, live_at, Hl).
    unfold import_outcome in *.
    destruct (decide (kd_type data = NCR_KEY_TYPE_SECRET)) as [Hty|Hty];
      [destruct (decide (kd_key_id_size data > MAX_KEY_ID_SIZE)%N)
         as [Hid|Hid]|];
      cbn [fst snd] in *.
    + split; [reflexivity|]. split; [exact Hp|]. by repeat split.
    + destruct Hbad as [?|?]; done.
    + split; [reflexivity|]. split; [exact Hp|]. by repeat split.
  - intros data i d Hl Hd Hty Hid Hsz.
    exists (put_data i (released d)
              (put_key p (snd (import_outcome data d k)) s)),
           (snd (import_outcome data d k)).
    rewrite (ncr_key_import_run _ _ _ _ _ _ Hl Hd).
    assert (Hp : key_at (put_data i (released d)
                   (put_key p (import_outcome data d k).2 s)) p
                   (import_outcome data d k).2)
      by (eapply key_at_put_data, key_at_put, live_at, Hl).
    unfold import_outcome in *. rewrite decide_True in * by done.
    rewrite decide_False in * by (intros Hgt; apply N.gt_lt_iff in Hgt; lia).
    rewrite decide_True in * by done. cbn [fst snd] in *.
    split; [reflexivity|]. split; [exact Hp|]. by repeat split.
Qed.

End ClaimsValidation.

(** C2, as stated, fails: on a freshly allocated item, [generate] with
    255 bits fails and has rewritten classification, flags and algorithm. *)
Lemma failed_generate_rewrites_fields :
  exists s' k k',
    key_at Sample.session 0%nat k /\
    ncr_key_generate (hdr := Sample.headers) (Sample.gen_3des 255) Sample.session
      = Some (- EINVAL, s') /\
    key_at s' 0%nat k' /\
    ki_type k = 0 /\ ki_type k' = 1 /\
    ki_flags k = 0%N /\ ki_flags k' = 1%N /\
    ki_algorithm k = 0 /\ ki_algorithm k' = 3.
Proof.
  eexists _, _, _. split; [cbv; reflexivity|]. split; [cbv; reflexivity|].
  split; [cbv; reflexivity|]. by repeat split.
Qed.

(** ** The asymmetric stubs *)

Section ClaimsStubs.
Context {hdr : NcrHeaders}.

(** C6, as the code has it: for every input, each of [generate_pair],
    [derive] and [get_public] fails with -EINVAL, the code the other
    operations return for an invalid argument, and changes nothing. *)
Theorem asymmetric_stubs_fail {A B C} (a : A) (b : B) (c : C) s :
  ncr_key_generate_pair a s = Some (- EINVAL, s) /\
  ncr_key_derive b s = Some (- EINVAL, s) /\
  ncr_key_get_public c s = Some (- EINVAL, s).
Proof. by repeat split. Qed.

End ClaimsStubs.

(** C6, as stated, fails: on the handle of a live key, [generate_pair]
    returns the very code [generate] returns for a request that is not
    byte-aligned, so the two failures cannot be told apart. *)
Lemma asymmetric_stub_code_is_einval :
  exists r s1 s2,
    ncr_key_generate_pair (Sample.gen_3des 255) Sample.session
      = Some (r, s1) /\
    ncr_key_generate (hdr := Sample.headers) (Sample.gen_3des 255) Sample.session
      = Some (r, s2) /\
    r = - EINVAL.
Proof.
  eexists _, _, _. split; [reflexivity|]. split; [cbv; reflexivity|].
  reflexivity.
Qed.

(** ** export and import *)

Lemma dlive_found s desc i :
  data_find (k_data s) desc = Some i -> exists d, dlive s desc i d.
Proof.
  intros Hf. destruct (lookup_lt_is_Some_2 (k_data s) i) as [d Hd].
  - by eapply data_find_lt.
  - exists d. by split.
Qed.

Lemma take_memcpy dst src n :
  (N.to_nat n <= length src)%nat ->
  take (N.to_nat n) (memcpy dst src n) = take (N.to_nat n) src.
Proof.
  intros Hn. unfold memcpy.
  rewrite take_app_le by (rewrite length_take; lia).
  rewrite take_take. f_equal. lia.
Qed.

Section ClaimsExport.
Context {hdr : NcrHeaders}.

(** an export into a buffer that does not exist: the key is given back *)
Lemma ncr_key_export_no_buffer s data p k :
  live s (kd_key data) p k ->
  data_find (k_data s) (kd_data data) = None ->
  ncr_key_export data s = Some (- EINVAL, s).
Proof.
  intros Hl Hd.
  pose proof (live_at _ _ _ _ Hl) as Hp. destruct (Hl) as [_ Hr].
  unfold ncr_key_export.
  rewrite (bind_some _ _ _ _ _ (ncr_key_item_get_live _ _ _ _ Hl)).
  erewrite (bind_some (ncr_data_item_get _))
    by (by apply ncr_data_item_get_unknown).
  cbv beta match. unfold fail_put. put_step. dstep. settle Hp Hr.
Qed.

(** C4: for a Secret key whose material fits the destination buffer,
    [export] succeeds and the buffer's flags become exactly the
    Exportable bit when the key's Exportable flag is set and zero
    otherwise, whatever they were: the buffer is exportable afterwards
    if and only if the key is. *)
Theorem export_sets_exportability s data p k i d :
  live s (kd_key data) p k ->
  dlive s (kd_data data) i d ->
  ki_type k = NCR_KEY_TYPE_SECRET ->
  (ki_secret_size k <= di_max_data_size d)%N ->
  NCR_DATA_FLAG_EXPORTABLE <> 0%N ->
  exists s' d',
    ncr_key_export data s = Some (0, s') /\
    data_at s' i d' /\
    di_flags d' =
      (if decide (N.land (ki_flags k) NCR_KEY_FLAG_EXPORTABLE ≠ 0%N)
       then NCR_DATA_FLAG_EXPORTABLE else 0%N) /\
    (N.land (di_flags d') NCR_DATA_FLAG_EXPORTABLE <> 0%N <->
     N.land (ki_flags k) NCR_KEY_FLAG_EXPORTABLE <> 0%N).
Proof.
  intros Hl Hd Hty Hsz Hbit.
  exists (put_data i (released (snd (export_outcome k d))) s),
         (released (snd (export_outcome k d))).
  rewrite (ncr_key_export_run _ _ _ _ _ _ Hl Hd).
  assert (Hi : data_at (put_data i (released (export_outcome k d).2) s) i
                 (released (export_outcome k d).2))
    by (eapply data_at_put, Hd).
  unfold export_outcome in *. rewrite decide_True in * by done.
  rewrite decide_False in * by (intros Hgt; apply N.gt_lt_iff in Hgt; lia).
  split; [reflexivity|]. split; [exact Hi|]. cbn.
  destruct (decide (N.land (ki_flags k) NCR_KEY_FLAG_EXPORTABLE ≠ 0%N))
    as [He|He].
  - split; [reflexivity|]. by rewrite N.land_diag.
  - split; [reflexivity|]. by rewrite N.land_0_l.
Qed.

(** C7: on a live Secret key, [export] fails with -EINVAL when the
    material is longer than the buffer's capacity and otherwise succeeds,
    the buffer's bytes and length then being the key's material; on a key
    classified Public or Private it always fails with -EINVAL. *)
Theorem export_checks_capacity s data p k :
  live s (kd_key data) p k ->
  (forall i d,
     dlive s (kd_data data) i d ->
     ki_type k = NCR_KEY_TYPE_SECRET ->
     (ki_secret_size k > di_max_data_size d)%N ->
     exists s', ncr_key_export data s = Some (- EINVAL, s')) /\
  (forall i d,
     dlive s (kd_data data) i d ->
     ki_type k = NCR_KEY_TYPE_SECRET ->
     (ki_secret_size k <= di_max_data_size d)%N ->
     (N.to_nat (ki_secret_size k) <= length (ki_secret_data k))%nat ->
     exists s' d',
       ncr_key_export data s = Some (0, s') /\
       data_at s' i d' /\
       buffer_bytes d' = material k /\
       di_data_size d' = ki_secret_size k) /\
  (NCR_KEY_TYPE_PUBLIC <> NCR_KEY_TYPE_SECRET ->
   NCR_KEY_TYPE_PRIVATE <> NCR_KEY_TYPE_SECRET ->
   ki_type k = NCR_KEY_TYPE_PUBLIC \/ ki_type k = NCR_KEY_TYPE_PRIVATE ->
   exists s', ncr_key_export data s = Some (- EINVAL, s')).
Proof.
  intros Hl. split; [|split].
  - intros i d Hd Hty Hsz. eexists.
    rewrite (ncr_key_export_run _ _ _ _ _ _ Hl Hd). unfold export_outcome.
    rewrite decide_True by done. rewrite decide_True by done. reflexivity.
  - intros i d Hd Hty Hsz Hfit.
    exists (put_data i (released (snd (export_outcome k d))) s),
           (released (snd (export_outcome k d))).
    rewrite (ncr_key_export_run _ _ _ _ _ _ Hl Hd).
    assert (Hi : data_at (put_data i (released (export_outcome k d).2) s) i
                   (released (export_outcome k d).2))
      by (eapply data_at_put, Hd).
    unfold export_outcome in *. rewrite decide_True in * by done.
    rewrite decide_False in * by (intros Hgt; apply N.gt_lt_iff in Hgt; lia).
    split; [reflexivity|]. split; [exact Hi|]. split; [|reflexivity].
    unfold buffer_bytes, material. cbn.
    destruct (decide (ki_secret_size k > 0)%N) as [Hpos|Hpos].
    + by apply take_memcpy.
    + assert (ki_secret_size k = 0%N) as ->
        by (destruct (ki_secret_size k); [done|by destruct Hpos]).
      reflexivity.
  - intros Hpub Hpriv Hty.
    assert (ki_type k <> NCR_KEY_TYPE_SECRET) as Hne
      by (destruct Hty as [-> | ->]; done).
    destruct (data_find (k_data s) (kd_data data)) as [i|] eqn:Hf.
    + destruct (dlive_found _ _ _ Hf) as [d Hd]. eexists.
      rewrite (ncr_key_export_run _ _ _ _ _ _ Hl Hd). unfold export_outcome.
      rewrite decide_False by done. reflexivity.
    + eexists. by eapply ncr_key_export_no_buffer.
Qed.

End ClaimsExport.

Lemma dlive_put_data s desc i d d' j dj :
  data_at s i d -> di_desc d' = di_desc d ->
  dlive s desc j dj ->
  dlive (put_data i d' s) desc j (if decide (j = i) then d' else dj).
Proof.
  intros Hi Hdesc [Hf Hj]. split; cbn.
  - by rewrite (data_find_insert _ _ _ _ _ Hi Hdesc).
  - destruct (decide (j = i)) as [->|Hne].
    + apply list_lookup_insert_eq. eapply lookup_lt_Some, Hi.
    + by rewrite list_lookup_insert_ne.
Qed.

Section ClaimsRoundTrip.
Context {hdr : NcrHeaders}.

(** C5: importing the bytes [B] of a data buffer, of length at most
    [MAX_KEY_SIZE], into a key item with classification Secret, and then
    exporting that key into a data buffer of capacity at least the length
    of [B], succeeds twice and leaves [B], with its length, in the
    destination buffer. *)
Theorem import_export_identity s imp exp p k i d j dj :
  live s (kd_key imp) p k ->
  dlive s (kd_data imp) i d ->
  kd_type imp = NCR_KEY_TYPE_SECRET ->
  (kd_key_id_size imp <= MAX_KEY_ID_SIZE)%N ->
  (di_data_size d <= MAX_KEY_SIZE)%N ->
  (N.to_nat (di_data_size d) <= length (di_data d))%nat ->
  kd_key exp = kd_key imp ->
  dlive s (kd_data exp) j dj ->
  (di_data_size d <= di_max_data_size dj)%N ->
  exists s1 s2 d',
    ncr_key_import imp s = Some (0, s1) /\
    ncr_key_export exp s1 = Some (0, s2) /\
    data_at s2 j d' /\
    buffer_bytes d' = buffer_bytes d /\
    di_data_size d' = di_data_size d.
Proof.
  intros Hl Hd Hty Hid Hsz Hwf Hkey Hdj Hcap.
  pose proof (ncr_key_import_run _ _ _ _ _ _ Hl Hd) as Himp.
  set (k1 := snd (import_outcome imp d k)) in *.
  set (s1 := put_data i (released d) (put_key p k1 s)) in *.
  set (dj1 := if decide (j = i) then released d else dj).
  assert (Hout : import_outcome imp d k =
                 (0, set_secret_size (di_data_size d)
                       (set_secret_data
                          (memcpy (ki_secret_data k) (di_data d)
                                  (di_data_size d))
                          (set_key_id
                             (if decide (kd_key_id_size imp > 0)%N
                              then memcpy (ki_key_id k) (kd_key_id imp)
                                          (kd_key_id_size imp)
                              else ki_key_id k)
                             (set_key_id_size (kd_key_id_size imp)
                                (set_flags (import_flags imp d)
                                   (set_algorithm (kd_algorithm imp)
                                      (set_type (kd_type imp) k)))))))).
  { unfold import_outcome. rewrite decide_True by done.
    rewrite decide_False by (intros Hgt; apply N.gt_lt_iff in Hgt; lia).
    rewrite decide_False by (intros Hgt; apply N.gt_lt_iff in Hgt; lia).
    reflexivity. }
  assert (Hl1 : live s1 (kd_key exp) p k1).
  { apply live_put_data. rewrite Hkey. eapply live_put; [apply Hl| |].
    - subst k1. rewrite Hout. cbn. by apply live_desc in Hl.
    - subst k1. rewrite Hout. cbn. apply Hl. }
  assert (Hdj1 : dlive s1 (kd_data exp) j dj1).
  { apply (dlive_put_data (put_key p k1 s) _ i d); [apply Hd|done|apply Hdj]. }
  assert (Hcap1 : di_max_data_size dj1 = di_max_data_size dj).
  { subst dj1. destruct (decide (j = i)) as [->|]; [|done].
    destruct Hd as [_ Hd], Hdj as [_ Hdj]. by simplify_eq. }
  pose proof (ncr_key_export_run _ _ _ _ _ _ Hl1 Hdj1) as Hexp.
  assert (Hk1 : ki_type k1 = NCR_KEY_TYPE_SECRET /\
                ki_secret_size k1 = di_data_size d /\
                ki_secret_data k1 =
                  memcpy (ki_secret_data k) (di_data d) (di_data_size d)).
  { subst k1. rewrite Hout. by cbn. }
  destruct Hk1 as (Hty1 & Hsz1 & Hdata1).
  exists s1, (put_data j (released (snd (export_outcome k1 dj1))) s1),
         (released (snd (export_outcome k1 dj1))).
  split; [by rewrite Himp, Hout|].
  assert (Hj : data_at (put_data j (released (export_outcome k1 dj1).2) s1) j
                 (released (export_outcome k1 dj1).2))
    by (eapply data_at_put, Hdj1).
  rewrite Hexp. unfold export_outcome in *.
  rewrite decide_True in * by done.
  rewrite decide_False in *
    by (intros Hgt; apply N.gt_lt_iff in Hgt; lia).
  split; [reflexivity|]. split; [exact Hj|]. split; [|by cbn].
  unfold buffer_bytes. cbn. rewrite Hsz1, Hdata1.
  destruct (decide (di_data_size d > 0)%N) as [Hpos|Hpos].
  - rewrite take_memcpy; [by apply take_memcpy|].
    unfold memcpy. rewrite length_app, length_take. lia.
  - assert (di_data_size d = 0%N) as ->
      by (destruct (di_data_size d); [done|by destruct Hpos]).
    reflexivity.
Qed.

End ClaimsRoundTrip.

Lemma keyed_live : live Sample.keyed 1 0%nat Sample.key16.
Proof. split; [vm_compute; reflexivity|]. cbn. unfold INT_MAX. lia. Qed.

Lemma keyed_long_live : live Sample.keyed_long 1 0%nat Sample.key16.
Proof. split; [vm_compute; reflexivity|]. cbn. unfold INT_MAX. lia. Qed.

Lemma failed_validation_keeps_material_witness :
  (exists s' k',
     ncr_key_generate (hdr := Sample.headers) Sample.gen_rsa Sample.keyed
       = Some (- EINVAL, s') /\
     key_at s' 0%nat k' /\
     ki_secret_data k' = ki_secret_data Sample.key16 /\
     ki_secret_size k' = 16%N /\
     ki_key_id k' = ki_key_id Sample.key16 /\
     ki_key_id_size k' = 5%N /\
     ki_type k' = 2 /\ ki_flags k' = 1%N /\ ki_algorithm k' = 3) /\
  (exists s' k',
     ncr_key_generate (hdr := Sample.headers) Sample.gen_odd Sample.keyed
       = Some (- EINVAL, s') /\
     key_at s' 0%nat k' /\
     ki_secret_data k' = ki_secret_data Sample.key16 /\
     ki_secret_size k' = 16%N /\
     ki_key_id k' = ki_key_id Sample.key16 /\
     ki_key_id_size k' = 5%N /\
     ki_type k' = 1 /\ ki_flags k' = 0%N /\ ki_algorithm k' = 3) /\
  (exists s' k',
     ncr_key_import (hdr := Sample.headers) Sample.import_public Sample.keyed
       = Some (- EINVAL, s') /\
     key_at s' 0%nat k' /\
     ki_secret_data k' = ki_secret_data Sample.key16 /\
     ki_secret_size k' = 16%N /\
     ki_key_id k' = ki_key_id Sample.key16 /\
     ki_key_id_size k' = 5%N /\
     ki_type k' = 2 /\ ki_flags k' = 0%N /\ ki_algorithm k' = 140) /\
  (exists s' k',
     ncr_key_import (hdr := Sample.headers) (Sample.on_buffer 13)
       Sample.keyed_long = Some (- EINVAL, s') /\
     key_at s' 0%nat k' /\
     ki_secret_data k' = ki_secret_data Sample.key16 /\
     ki_secret_size k' = 16%N /\
     ki_key_id k' =
       memcpy (ki_key_id Sample.key16) [Byte.x09] 1 /\
     ki_key_id_size k' = 1%N /\
     ki_type k' = 1 /\ ki_flags k' = 0%N /\ ki_algorithm k' = 3).
Proof.
  split; [|split; [|split]].
  - apply (proj1 (failed_validation_keeps_material (hdr := Sample.headers)
                    Sample.keyed 0%nat Sample.key16) Sample.gen_rsa
             keyed_live).
    discriminate.
  - apply (proj1 (proj2 (failed_validation_keeps_material
                           (hdr := Sample.headers)
                           Sample.keyed 0%nat Sample.key16)) Sample.gen_odd
             keyed_live).
    + reflexivity.
    + left. discriminate.
  - apply (proj1 (proj2 (proj2 (failed_validation_keeps_material
                                  (hdr := Sample.headers)
                                  Sample.keyed 0%nat Sample.key16)))
             Sample.import_public 0%nat
             (Sample.buffer 10 16 [Byte.x01; Byte.x02; Byte.x03] 0)
             keyed_live).
    + split; reflexivity.
    + left. discriminate.
  - apply (proj2 (proj2 (proj2 (failed_validation_keeps_material
                                  (hdr := Sample.headers)
                                  Sample.keyed_long 0%nat Sample.key16)))
             (Sample.on_buffer 13) 3%nat Sample.long_buffer
             keyed_long_live).
    + split; reflexivity.
    + reflexivity.
    + vm_compute. discriminate.
    + reflexivity.
Defined.

Lemma export_sets_exportability_witness :
  exists s' d',
    ncr_key_export (hdr := Sample.headers) (Sample.on_buffer 12) Sample.keyed
      = Some (0, s') /\
    data_at s' 2%nat d' /\
    di_flags d' = 1%N /\
    (N.land (di_flags d') 1 <> 0%N <-> N.land 1 1 <> 0%N).
Proof.
  apply (export_sets_exportability (hdr := Sample.headers) Sample.keyed
           (Sample.on_buffer 12) 0%nat Sample.key16 2%nat
           (Sample.buffer 12 64 [] 0) keyed_live).
  - split; reflexivity.
  - reflexivity.
  - vm_compute. discriminate.
  - discriminate.
Defined.

Lemma rsa_tried_live :
  live Sample.rsa_tried 1 0%nat (set_type 2 Sample.item0).
Proof. split; [vm_compute; reflexivity|]. cbn. unfold INT_MAX. lia. Qed.

Lemma export_checks_capacity_witness :
  (exists s', ncr_key_export (hdr := Sample.headers) (Sample.on_buffer 11)
                Sample.keyed = Some (- EINVAL, s')) /\
  (exists s' d',
     ncr_key_export (hdr := Sample.headers) (Sample.on_buffer 10) Sample.keyed
       = Some (0, s') /\
     data_at s' 0%nat d' /\
     buffer_bytes d' = material Sample.key16 /\
     di_data_size d' = 16%N) /\
  (exists s', ncr_key_export (hdr := Sample.headers) (Sample.on_buffer 12)
                Sample.rsa_tried = Some (- EINVAL, s')).
Proof.
  split; [|split].
  - apply (proj1 (export_checks_capacity (hdr := Sample.headers) Sample.keyed
                    (Sample.on_buffer 11) 0%nat Sample.key16 keyed_live)
             1%nat (Sample.buffer 11 2 [] 1)).
    + split; reflexivity.
    + reflexivity.
    + reflexivity.
  - apply (proj1 (proj2 (export_checks_capacity (hdr := Sample.headers)
             Sample.keyed (Sample.on_buffer 10) 0%nat Sample.key16 keyed_live))
             0%nat (Sample.buffer 10 16 [Byte.x01; Byte.x02; Byte.x03] 0)).
    + split; reflexivity.
    + reflexivity.
    + vm_compute. discriminate.
    + vm_compute. lia.
  - apply (proj2 (proj2 (export_checks_capacity (hdr := Sample.headers)
             Sample.rsa_tried (Sample.on_buffer 12) 0%nat _ rsa_tried_live))).
    + discriminate.
    + discriminate.
    + left. reflexivity.
Defined.

Lemma import_export_identity_witness :
  exists s1 s2 d',
    ncr_key_import (hdr := Sample.headers) (Sample.on_buffer 10) Sample.session
      = Some (0, s1) /\
    ncr_key_export (hdr := Sample.headers) (Sample.on_buffer 12) s1 = Some (0, s2) /\
    data_at s2 2%nat d' /\
    buffer_bytes d' = [Byte.x01; Byte.x02; Byte.x03] /\
    di_data_size d' = 3%N.
Proof.
  apply (import_export_identity (hdr := Sample.headers) Sample.session
           (Sample.on_buffer 10) (Sample.on_buffer 12) 0%nat _
           0%nat (Sample.buffer 10 16 [Byte.x01; Byte.x02; Byte.x03] 0)
           2%nat (Sample.buffer 12 64 [] 0) session_live).
  - split; reflexivity.
  - reflexivity.
  - vm_compute. discriminate.
  - vm_compute. discriminate.
  - vm_compute. lia.
  - reflexivity.
  - split; reflexivity.
  - vm_compute. discriminate.
Defined.

(** ** allocate *)

Lemma fold_left_max_ge l mx : mx <= fold_left Z.max l mx.
Proof.
  revert mx. induction l as [|x l IH]; intros mx; cbn; [lia|].
  specialize (IH (Z.max mx x)). lia.
Qed.

Lemma fold_left_max_upper l mx x : x ∈ l -> x <= fold_left Z.max l mx.
Proof.
  revert mx. induction l as [|y l IH]; intros mx Hx.
  - by apply not_elem_of_nil in Hx.
  - cbn. apply elem_of_cons in Hx as [->|Hx]; [|by apply IH].
    pose proof (fold_left_max_ge l (Z.max mx y)). lia.
Qed.

Lemma fold_left_max_in l mx :
  fold_left Z.max l mx = mx \/ fold_left Z.max l mx ∈ l.
Proof.
  revert mx. induction l as [|y l IH]; intros mx; cbn; [by left|].
  destruct (IH (Z.max mx y)) as [Heq|Hin].
  - rewrite Heq. destruct (Z.max_spec mx y) as [[_ ->]|[_ ->]].
    + right. apply list_elem_of_here.
    + by left.
  - right. by apply list_elem_of_further.
Qed.

Lemma valid_ref_app h x p : valid_ref h p -> valid_ref (h ++ x) p.
Proof.
  unfold valid_ref. destruct (h !! p) as [[k|]|] eqn:Hp; [|done..].
  by rewrite (lookup_app_l_Some _ _ _ _ Hp).
Qed.

Lemma valid_ref_lt h p : valid_ref h p -> (p < length h)%nat.
Proof.
  unfold valid_ref. destruct (h !! p) as [[k|]|] eqn:Hp; [|done..].
  intros _. by eapply lookup_lt_Some.
Qed.

Lemma valid_ref_insert_ne h p q x :
  p <> q -> valid_ref h q -> valid_ref (<[p := x]> h) q.
Proof. unfold valid_ref. intros Hne. by rewrite list_lookup_insert_ne. Qed.

Lemma handle_of_insert_ne h p q x :
  p <> q -> handle_of (<[p := x]> h) q = handle_of h q.
Proof. unfold handle_of. intros Hne. by rewrite list_lookup_insert_ne. Qed.

Lemma handle_of_app h x p : valid_ref h p -> handle_of (h ++ x) p = handle_of h p.
Proof.
  unfold valid_ref, handle_of. destruct (h !! p) as [[k|]|] eqn:Hp; [|done..].
  by rewrite (lookup_app_l_Some _ _ _ _ Hp).
Qed.

Section MaxDesc.
Context {hdr : NcrHeaders}.

Lemma max_desc_run s l mx :
  Forall (valid_ref (k_heap s)) l ->
  max_desc l mx s =
    Some (fold_left Z.max (map (handle_of (k_heap s)) l) mx, s).
Proof.
  intros Hv. revert mx. induction Hv as [|p l Hp Hl IH]; intros mx.
  - reflexivity.
  - cbn [max_desc map fold_left]. unfold valid_ref in Hp.
    unfold handle_of at 2.
    destruct (k_heap s !! p) as [[k|]|] eqn:Ep; [|done..].
    rewrite (bind_some _ _ _ _ _ (load_at s p k Ep)). apply IH.
Qed.

Lemma _ncr_key_get_new_desc_run s :
  Forall (valid_ref (k_heap s)) (k_keys s) ->
  _ncr_key_get_new_desc s = Some (wrap_int (max_handle s + 1), s).
Proof.
  intros Hv. unfold _ncr_key_get_new_desc.
  by rewrite (bind_some _ _ _ _ _ (max_desc_run _ _ _ Hv)).
Qed.

End MaxDesc.

Lemma handles_frame h h' l :
  Forall (fun p => handle_of h' p = handle_of h p) l ->
  map (handle_of h') l = map (handle_of h) l.
Proof. induction 1; cbn; congruence. Qed.

Section Allocate.
Context {hdr : NcrHeaders}.

Lemma ncr_limits_add_and_check_admits s filp :
  k_limits s filp < max_keys_per_owner ->
  ncr_limits_add_and_check filp s = Some (0, count_key filp s).
Proof.
  intros Hlt. unfold ncr_limits_add_and_check.
  by rewrite decide_False by lia.
Qed.

Lemma ncr_limits_add_and_check_refuses s filp :
  max_keys_per_owner <= k_limits s filp ->
  ncr_limits_add_and_check filp s = Some (- EPERM, s).
Proof.
  intros Hle. unfold ncr_limits_add_and_check. by rewrite decide_True.
Qed.

Lemma ncr_key_init_ok s junk filp arg :
  Forall (valid_ref (k_heap s)) (k_keys s) ->
  k_limits s filp < max_keys_per_owner ->
  ncr_key_init (Some junk) filp arg s =
    Some ((0, wrap_int (max_handle s + 1)), allocated filp s).
Proof.
  intros Hv Hlim. unfold ncr_key_init.
  rewrite (bind_some _ _ _ _ _ (ncr_limits_add_and_check_admits _ _ Hlim)).
  rewrite decide_False by lia.
  erewrite (bind_some (kmalloc _)) by reflexivity. cbv beta match.
  set (a := length (k_heap (count_key filp s))).
  set (s2 := with_heap (k_heap (count_key filp s) ++ [Some junk])
               (count_key filp s)).
  assert (Ha : key_at s2 a junk).
  { unfold key_at, s2, a. cbn. by rewrite lookup_app_r, Nat.sub_diag. }
  erewrite (bind_some (store _ _)) by (eapply store_at, Ha).
  step.
  assert (Hfr : forall K, Forall (fun p =>
            handle_of (k_heap (put_key a K s2)) p = handle_of (k_heap s) p)
            (k_keys s)).
  { intros K. eapply Forall_impl; [exact Hv|]. intros p Hp. cbn.
    pose proof (valid_ref_lt _ _ Hp).
    rewrite handle_of_insert_ne by (unfold a; cbn; lia).
    by apply handle_of_app. }
  assert (Hv2 : forall K, Forall (valid_ref (k_heap (put_key a K s2)))
                            (k_keys (put_key a K s2))).
  { intros K. eapply Forall_impl; [exact Hv|]. intros p Hp. cbn.
    pose proof (valid_ref_lt _ _ Hp).
    apply valid_ref_insert_ne; [unfold a; cbn; lia|].
    by apply valid_ref_app. }
  assert (Hmax : forall K, max_handle (put_key a K s2) = max_handle s).
  { intros K. unfold max_handle, handles.
    change (k_keys (put_key a K s2)) with (k_keys s).
    by rewrite (handles_frame _ _ _ (Hfr K)). }
  rewrite ?put_put.
  erewrite (bind_some _ncr_key_get_new_desc)
    by (apply _ncr_key_get_new_desc_run, Hv2).
  cbv beta. rewrite !Hmax.
  do 2 step. rewrite ?put_put.
  erewrite (bind_some (list_add _)) by reflexivity.
  erewrite (bind_some (load _))
    by (apply load_at; exact (key_at_put _ _ _ _ Ha)).
  cbv beta. norm. unfold mret, M_ret. do 2 f_equal.
  unfold allocated, put_key, s2, with_keys, with_heap.
  cbn. f_equal.
  rewrite insert_app_r_alt by (unfold a; cbn; lia).
  unfold a. cbn. by rewrite Nat.sub_diag.
Qed.

(** with [INT_MAX] among the handles the increment wraps around *)
Lemma ncr_key_init_at_int_max s junk filp arg :
  Forall (valid_ref (k_heap s)) (k_keys s) ->
  k_limits s filp < max_keys_per_owner ->
  max_handle s = INT_MAX ->
  ncr_key_init (Some junk) filp arg s = Some ((0, INT_MIN), allocated filp s).
Proof.
  intros Hv Hlim Hmax. rewrite (ncr_key_init_ok _ _ _ _ Hv Hlim).
  by rewrite Hmax.
Qed.

Lemma ncr_key_init_refused s outcome filp arg :
  max_keys_per_owner <= k_limits s filp ->
  ncr_key_init outcome filp arg s = Some ((- EPERM, arg), s).
Proof.
  intros Hle. unfold ncr_key_init.
  rewrite (bind_some _ _ _ _ _ (ncr_limits_add_and_check_refuses _ _ Hle)).
  by rewrite decide_True.
Qed.

Lemma ncr_key_init_enomem s filp arg :
  k_limits s filp < max_keys_per_owner ->
  ncr_key_init None filp arg s = Some ((- ENOMEM, arg), count_key filp s).
Proof.
  intros Hlim. unfold ncr_key_init.
  rewrite (bind_some _ _ _ _ _ (ncr_limits_add_and_check_admits _ _ Hlim)).
  by rewrite decide_False by lia.
Qed.

End Allocate.

Lemma fold_left_max_max l a b :
  fold_left Z.max l (Z.max a b) = Z.max a (fold_left Z.max l b).
Proof.
  revert b. induction l as [|x l IH]; intros b; cbn; [done|].
  by rewrite <- Z.max_assoc, IH.
Qed.

Section AllocateHandles.
Context {hdr : NcrHeaders}.

Lemma handles_allocated filp s :
  Forall (valid_ref (k_heap s)) (k_keys s) ->
  handles (allocated filp s) = wrap_int (max_handle s + 1) :: handles s.
Proof.
  intros Hv. unfold handles, allocated. cbn [k_keys k_heap with_keys with_heap map].
  f_equal.
  - unfold handle_of. cbn. by rewrite lookup_app_r, Nat.sub_diag.
  - apply handles_frame. eapply Forall_impl; [exact Hv|].
    intros p Hp. by apply handle_of_app.
Qed.

Lemma registry_ok_allocated filp s :
  registry_ok s -> registry_ok (allocated filp s).
Proof.
  intros [Hnd Hv]. split; cbn.
  - apply NoDup_cons. split; [|done]. intros Hin.
    rewrite Forall_forall in Hv. apply Hv, valid_ref_lt in Hin. lia.
  - constructor.
    + unfold valid_ref. rewrite lookup_app_r, Nat.sub_diag by lia. cbn.
      unfold INT_MAX. lia.
    + eapply Forall_impl; [exact Hv|]. intros p Hp. by apply valid_ref_app.
Qed.

(** the handle [allocate] returns refers to the item it has created *)
Lemma allocated_live filp s :
  registry_ok s ->
  live (allocated filp s) (wrap_int (max_handle s + 1)) (length (k_heap s))
       (fresh_item filp (wrap_int (max_handle s + 1))).
Proof.
  intros _. split; [|cbn; unfold INT_MAX; lia].
  cbn [allocated k_heap k_keys with_keys with_heap]. rewrite key_of_cons.
  rewrite lookup_app_r, Nat.sub_diag by lia. cbn.
  by rewrite decide_True.
Qed.

Lemma max_handle_nonneg s : 0 <= max_handle s.
Proof. apply fold_left_max_ge. Qed.

Lemma registry_inv_allocated filp s :
  registry_inv s -> max_handle s < INT_MAX ->
  registry_inv (allocated filp s) /\
  max_handle (allocated filp s) = max_handle s + 1.
Proof.
  intros (Hok & Hnd & Hpos) Hmax.
  pose proof (max_handle_nonneg s) as H0.
  assert (Hw : wrap_int (max_handle s + 1) = max_handle s + 1)
    by (apply wrap_int_id; unfold INT_MIN, INT_MAX in *; lia).
  split; [split; [|split]|].
  - by apply registry_ok_allocated.
  - rewrite (handles_allocated _ _ (proj2 Hok)), Hw.
    apply NoDup_cons. split; [|done]. intros Hin.
    apply (fold_left_max_upper _ 0) in Hin. fold (max_handle s) in Hin. lia.
  - rewrite (handles_allocated _ _ (proj2 Hok)), Hw.
    constructor; [lia|done].
  - unfold max_handle at 1.
    rewrite (handles_allocated _ _ (proj2 Hok)), Hw. cbn [fold_left].
    rewrite (Z.max_comm 0), fold_left_max_max. fold (max_handle s). lia.
Qed.

Lemma allocate_all_distinct reqs : forall s,
  registry_inv s ->
  max_handle s + Z.of_nat (length reqs) <= INT_MAX ->
  exists hs s',
    allocate_all reqs s = Some (hs, s') /\
    NoDup hs /\
    (forall h, h ∈ hs -> h ∈ handles s' /\ h ∉ handles s) /\
    (forall h, h ∈ handles s -> h ∈ handles s') /\
    NoDup (handles s').
Proof.
  induction reqs as [|[outcome filp] reqs IH]; intros s Hinv Hmax.
  - exists [], s. split; [done|]. split; [constructor|].
    split; [intros h Hh; by apply not_elem_of_nil in Hh|].
    split; [done|apply Hinv].
  - cbn [allocate_all length] in *.
    destruct (decide (k_limits s filp < max_keys_per_owner)) as [Hlim|Hlim].
    + destruct outcome as [junk|].
      * destruct (registry_inv_allocated filp s Hinv) as [Hinv' Hmax'];
          [lia|].
        destruct (IH (allocated filp s) Hinv') as (hs & s' & Hrun & Hnd & Hin & Hmono & Hnd');
          [lia|].
        pose proof (handles_allocated filp s (proj2 (proj1 Hinv))) as Hh.
        exists (wrap_int (max_handle s + 1) :: hs), s'.
        rewrite (bind_some _ _ _ _ _
                   (ncr_key_init_ok s junk filp 0 (proj2 (proj1 Hinv)) Hlim)).
        rewrite (bind_some _ _ _ _ _ Hrun). cbn [fst snd].
        rewrite decide_True by done.
        assert (Hnew : wrap_int (max_handle s + 1) ∉ handles s).
        { rewrite wrap_int_id
            by (pose proof (max_handle_nonneg s);
                unfold INT_MIN, INT_MAX in *; lia).
          intros Hx. apply (fold_left_max_upper _ 0) in Hx.
          fold (max_handle s) in Hx. lia. }
        split; [done|]. split; [|split; [|split; [|done]]].
        -- apply NoDup_cons. split; [|done]. intros Hx.
           apply Hin in Hx as [_ Hx]. apply Hx. rewrite Hh.
           apply list_elem_of_here.
        -- intros h Hx. apply elem_of_cons in Hx as [->|Hx].
           ++ split; [|done]. apply Hmono. rewrite Hh.
              apply list_elem_of_here.
           ++ destruct (Hin h Hx) as [H1 H2]. split; [done|].
              intros H3. apply H2. rewrite Hh. by apply list_elem_of_further.
        -- intros h Hx. apply Hmono. rewrite Hh.
           by apply list_elem_of_further.
      * destruct (IH (count_key filp s)) as (hs & s' & Hrun & Hrest);
          [exact Hinv|unfold max_handle, handles in *; cbn; lia|].
        exists hs, s'.
        rewrite (bind_some _ _ _ _ _ (ncr_key_init_enomem s filp 0 Hlim)).
        rewrite (bind_some _ _ _ _ _ Hrun). cbn [fst snd].
        rewrite decide_False by done. split; [done|]. exact Hrest.
    + destruct (IH s Hinv) as (hs & s' & Hrun & Hrest); [lia|].
      exists hs, s'.
      assert (Hfull : max_keys_per_owner <= k_limits s filp) by lia.
      rewrite (bind_some _ _ _ _ _
                 (ncr_key_init_refused s outcome filp 0 Hfull)).
      rewrite (bind_some _ _ _ _ _ Hrun). cbn [fst snd].
      rewrite decide_False by done. split; [done|]. exact Hrest.
Qed.

End AllocateHandles.

Section ClaimsAllocate.
Context {hdr : NcrHeaders}.

(** C9, as the code has it: in a registry whose handles are positive and
    pairwise distinct and whose largest handle is below [INT_MAX],
    [allocate] gives the new item the handle max(existing handles) + 1,
    or 1 when the registry is empty; consequently any [N] calls of
    [allocate] that stay within [INT_MAX] return pairwise distinct
    handles, all live and all distinct from the handles that were live
    before. *)
Theorem allocate_assigns_next_handle s :
  registry_inv s ->
  (forall junk filp arg,
     max_handle s < INT_MAX ->
     k_limits s filp < max_keys_per_owner ->
     exists h s',
       ncr_key_init (Some junk) filp arg s = Some ((0, h), s') /\
       handles s' = h :: handles s /\
       (handles s = [] -> h = 1) /\
       (forall m, m ∈ handles s -> (forall x, x ∈ handles s -> x <= m) ->
                  h = m + 1)) /\
  (forall reqs,
     max_handle s + Z.of_nat (length reqs) <= INT_MAX ->
     exists hs s',
       allocate_all reqs s = Some (hs, s') /\
       NoDup hs /\
       (forall h, h ∈ hs -> h ∈ handles s' /\ h ∉ handles s) /\
       NoDup (handles s')).
Proof.
  intros Hinv. split.
  - intros junk filp arg Hmax Hlim.
    destruct (Hinv) as ([_ Hv] & _ & Hpos).
    pose proof (max_handle_nonneg s) as H0.
    assert (Hw : wrap_int (max_handle s + 1) = max_handle s + 1)
      by (apply wrap_int_id; unfold INT_MIN, INT_MAX in *; lia).
    exists (max_handle s + 1), (allocated filp s).
    split; [by rewrite (ncr_key_init_ok _ junk _ arg Hv Hlim), Hw|].
    split; [by rewrite (handles_allocated _ _ Hv), Hw|]. split.
    + unfold max_handle. by intros ->.
    + intros m Hm Hup. f_equal. apply Z.le_antisymm.
      * destruct (fold_left_max_in (handles s) 0) as [Hz|Hin].
        -- fold (max_handle s) in Hz. rewrite Forall_forall in Hpos.
           specialize (Hpos m Hm). lia.
        -- by apply Hup.
      * by apply fold_left_max_upper.
  - intros reqs Hmax.
    destruct (allocate_all_distinct reqs s Hinv Hmax)
      as (hs & s' & Hrun & Hnd & Hin & _ & Hnd').
    by exists hs, s'.
Qed.

End ClaimsAllocate.

(** C9, as stated, fails in a registry that holds the handle [INT_MAX]:
    the new handle is [INT_MIN], not 2147483648, and the next [allocate]
    returns [INT_MIN] once more, so two live items share a handle. *)
Lemma allocate_wraps_at_int_max :
  exists s1 s2,
    handles Sample.at_top = [2147483647] /\
    ncr_key_init (hdr := Sample.headers) (Some Sample.item0) 7%nat 0 Sample.at_top
      = Some ((0, -2147483648), s1) /\
    ncr_key_init (hdr := Sample.headers) (Some Sample.item0) 7%nat 0 s1
      = Some ((0, -2147483648), s2) /\
    handles s2 = [-2147483648; -2147483648; 2147483647].
Proof.
  eexists _, _. split; [reflexivity|]. split; [cbv; reflexivity|].
  split; [cbv; reflexivity|]. reflexivity.
Qed.

Lemma session_inv : registry_inv Sample.session.
Proof.
  split; [exact session_ok|]. split.
  - apply NoDup_singleton.
  - repeat constructor; cbn; unfold INT_MAX; lia.
Qed.

Lemma allocate_assigns_next_handle_witness :
  (exists h s',
     ncr_key_init (hdr := Sample.headers) (Some Sample.item0) 7%nat 0 Sample.session
       = Some ((0, h), s') /\
     handles s' = h :: handles Sample.session /\
     (handles Sample.session = [] -> h = 1) /\
     (forall m, m ∈ handles Sample.session ->
                (forall x, x ∈ handles Sample.session -> x <= m) -> h = m + 1)) /\
  (exists hs s',
     allocate_all (hdr := Sample.headers)
       [(Some Sample.item0, 7%nat); (None, 7%nat); (Some Sample.item0, 8%nat)]
       Sample.session = Some (hs, s') /\
     NoDup hs /\
     (forall h, h ∈ hs -> h ∈ handles s' /\ h ∉ handles Sample.session) /\
     NoDup (handles s')).
Proof.
  split.
  - apply (proj1 (allocate_assigns_next_handle (hdr := Sample.headers)
                    Sample.session session_inv)).
    + vm_compute. reflexivity.
    + vm_compute. reflexivity.
  - apply (proj2 (allocate_assigns_next_handle (hdr := Sample.headers)
                    Sample.session session_inv)).
    vm_compute. discriminate.
Defined.

(** ** The limiter's counter against the items that exist *)

Lemma held_app h1 h2 f : held (h1 ++ h2) f = held h1 f + held h2 f.
Proof. induction h1 as [|o h1 IH]; cbn; [done|]. rewrite IH. lia. Qed.

Lemma held_insert h p x y f :
  h !! p = Some x ->
  held (<[p := y]> h) f = held h f - owned_by f x + owned_by f y.
Proof.
  revert p. induction h as [|o h IH]; intros p; [done|].
  destruct p as [|p].
  - intros [= ->]. change (<[0%nat := y]> (x :: h)) with (y :: h).
    cbn [held]. lia.
  - intros Hp. change (h !! p = Some x) in Hp.
    change (<[S p := y]> (o :: h)) with (o :: <[p := y]> h).
    cbn [held]. rewrite (IH p Hp). lia.
Qed.

Lemma preserves_ret P {A} (a : A) : preserves P (mret a).
Proof. intros s b s' HP [= _ <-]. done. Qed.

Lemma preserves_bind P {A B} (m : M A) (f : A -> M B) :
  preserves P m -> (forall a, preserves P (f a)) -> preserves P (m ≫= f).
Proof.
  intros Hm Hf s b s2 HP Hrun.
  apply bind_inv in Hrun as (a & s1 & H1 & H2).
  eapply Hf; [|exact H2]. eapply Hm; [exact HP|exact H1].
Qed.

Lemma preserves_here P {A} (f : kernel -> M A) :
  (forall s0, preserves P (f s0)) -> preserves P (fun s => f s s).
Proof. intros Hf s a s' HP Hrun. by eapply Hf. Qed.

Lemma preserves_skip P : preserves P skip.
Proof. apply preserves_ret. Qed.

Lemma preserves_load P p : preserves P (load p).
Proof. intros s k s' HP Hrun. by apply load_inv in Hrun as [-> _]. Qed.

Lemma paired_update p f :
  (forall k, ki_filp (f k) = ki_filp k) -> preserves paired (update p f).
Proof.
  intros Hf s a s' HP Hrun. unfold update in Hrun.
  apply bind_inv in Hrun as (k & s1 & H1 & H2).
  apply load_inv in H1 as [-> Hk].
  rewrite (store_at _ _ _ _ Hk) in H2. injection H2 as _ <-.
  intros g. cbn. rewrite (held_insert _ _ _ _ _ Hk), <- (HP g). cbn.
  rewrite Hf. lia.
Qed.

Lemma paired_dupdate i f : preserves paired (dupdate i f).
Proof.
  intros s a s' HP. unfold dupdate.
  destruct (k_data s !! i); [|discriminate]. by intros [= _ <-].
Qed.

Lemma paired_dload i : preserves paired (dload i).
Proof.
  intros s a s' HP. unfold dload.
  destruct (k_data s !! i); [|discriminate]. by intros [= _ <-].
Qed.

Lemma paired_random n : preserves paired (get_random_bytes n).
Proof. intros s a s' HP [= _ <-]. exact HP. Qed.

Lemma paired_list_add p : preserves paired (list_add p).
Proof. intros s a s' HP [= _ <-]. exact HP. Qed.

Lemma paired_list_del p : preserves paired (list_del p).
Proof. intros s a s' HP [= _ <-]. exact HP. Qed.

Lemma paired_data_get desc : preserves paired (ncr_data_item_get desc).
Proof.
  intros s a s' HP. unfold ncr_data_item_get.
  destruct (data_find (k_data s) desc) as [i|]; [|by intros [= _ <-]].
  intros Hrun.
  eapply (preserves_bind paired (dupdate _ _) _);
    [apply paired_dupdate|intros; apply preserves_ret|exact HP|exact Hrun].
Qed.

Lemma paired_data_put i : preserves paired (_ncr_data_item_put i).
Proof. apply paired_dupdate. Qed.

Section Pairing.
Context {hdr : NcrHeaders}.

(** the last reference: the slot is given back and the item freed, once *)
Lemma paired_put p : preserves paired (_ncr_key_item_put p).
Proof.
  intros s a s' HP Hrun. unfold _ncr_key_item_put in Hrun.
  apply bind_inv in Hrun as (z & s1 & H1 & H2).
  unfold atomic_dec_and_test in H1.
  apply bind_inv in H1 as ([] & s0 & H0 & H1).
  assert (HP0 : paired s0) by (eapply paired_update; [|exact HP|exact H0]; done).
  apply bind_inv in H1 as (k & s0' & Hk & H1).
  apply load_inv in Hk as [-> Hk]. injection H1 as <- <-.
  destruct (bool_decide (ki_refcnt k = 0)).
  - rewrite (bind_some _ _ _ _ _ (load_at _ _ _ Hk)) in H2.
    erewrite (bind_some (ncr_limits_remove _)) in H2 by reflexivity.
    unfold kfree in H2. cbn [k_heap with_limits] in H2.
    rewrite Hk in H2. injection H2 as _ <-.
    intros g. cbn. rewrite (held_insert _ _ _ _ _ Hk), <- (HP0 g). cbn.
    destruct (decide (g = ki_filp k)) as [->|Hne].
    + rewrite decide_True by done. lia.
    + rewrite decide_False by congruence. lia.
  - by injection H2 as _ <-.
Qed.

Lemma find_desc_pure P l desc : preserves P (find_desc l desc).
Proof.
  induction l as [|p l IH]; [apply preserves_ret|]. cbn.
  apply preserves_bind; [apply preserves_load|]. intros k.
  destruct (decide (ki_desc k = desc)); [apply preserves_ret|apply IH].
Qed.

Lemma paired_get desc : preserves paired (ncr_key_item_get desc).
Proof.
  unfold ncr_key_item_get.
  apply (preserves_here paired (fun s0 => _ ≫= _)). intros s0.
  apply preserves_bind; [apply find_desc_pure|]. intros [item|].
  - apply preserves_bind; [by apply paired_update|].
    intros. apply preserves_ret.
  - apply preserves_ret.
Qed.

End Pairing.

Create HintDb pairing.
#[export] Hint Resolve preserves_skip preserves_load paired_dupdate paired_dload
  paired_random paired_list_add paired_list_del paired_data_get
  paired_data_put : pairing.

(** walk through the code of an operation, one call at a time *)
Ltac pairing_walk :=
  repeat first
    [ apply preserves_ret
    | solve [eauto with pairing]
    | apply paired_update; intros ?; reflexivity
    | apply preserves_bind; [|intros ?]
    | match goal with
      | |- preserves _ (if ?c then _ else _) => destruct c
      | |- preserves _ (match ?x with _ => _ end) => destruct x
      end ].

Section PairingOperations.
Context {hdr : NcrHeaders}.

#[local] Hint Resolve paired_put paired_get : pairing.

Lemma paired_fail_put item ditem ret :
  preserves paired (fail_put item ditem ret).
Proof. unfold fail_put. pairing_walk. Qed.

#[local] Hint Resolve paired_fail_put : pairing.

Lemma paired_generate gen : preserves paired (ncr_key_generate gen).
Proof. unfold ncr_key_generate. pairing_walk. Qed.

Lemma paired_export data : preserves paired (ncr_key_export data).
Proof. unfold ncr_key_export. pairing_walk. Qed.

Lemma paired_import data : preserves paired (ncr_key_import data).
Proof. unfold ncr_key_import. pairing_walk. Qed.

Lemma paired_info arg : preserves paired (ncr_key_info arg).
Proof. unfold ncr_key_info. cbv zeta. pairing_walk. Qed.

Lemma paired_deinit_scan l desc : preserves paired (deinit_scan l desc).
Proof.
  induction l as [|p l IH]; [apply preserves_ret|]. cbn. pairing_walk.
Qed.

Lemma paired_deinit arg : preserves paired (ncr_key_deinit arg).
Proof.
  unfold ncr_key_deinit.
  apply (preserves_here paired (fun s0 => _ ≫= _)). intros s0.
  apply preserves_bind; [apply paired_deinit_scan|intros; apply preserves_ret].
Qed.

Lemma paired_deinit_all l : preserves paired (deinit_all l).
Proof.
  induction l as [|p l IH]; [apply preserves_ret|]. cbn. pairing_walk.
Qed.

Lemma paired_list_deinit : preserves paired ncr_key_list_deinit.
Proof.
  unfold ncr_key_list_deinit.
  apply (preserves_here paired (fun s0 => deinit_all (k_keys s0))).
  intros s0. apply paired_deinit_all.
Qed.

Lemma paired_allocated filp s : paired s -> paired (allocated filp s).
Proof.
  intros HP g. cbn. rewrite held_app, <- (HP g). cbn.
  destruct (decide (g = filp)) as [->|Hne].
  - rewrite decide_True by done. lia.
  - rewrite decide_False by congruence. lia.
Qed.

(** [allocate] charges the owner once when it succeeds, and not at all
    when the limiter refuses *)
Lemma paired_init s junk filp arg :
  Forall (valid_ref (k_heap s)) (k_keys s) -> paired s ->
  exists r s', ncr_key_init (Some junk) filp arg s = Some (r, s') /\ paired s'.
Proof.
  intros Hv HP.
  destruct (decide (k_limits s filp < max_keys_per_owner)) as [Hlim|Hlim].
  - eexists _, _. split; [by apply ncr_key_init_ok|].
    by apply paired_allocated.
  - eexists _, _. split; [apply ncr_key_init_refused; lia|done].
Qed.

(** what is left behind when [kmalloc] fails after the limiter admitted
    the key: one charge more than there are items *)
Lemma init_enomem_unpaired s filp arg :
  paired s -> k_limits s filp < max_keys_per_owner ->
  exists s',
    ncr_key_init None filp arg s = Some ((- ENOMEM, arg), s') /\
    k_heap s' = k_heap s /\ k_keys s' = k_keys s /\
    k_limits s' filp = held (k_heap s') filp + 1.
Proof.
  intros HP Hlim. exists (count_key filp s).
  split; [by apply ncr_key_init_enomem|]. repeat split. cbn.
  rewrite decide_True by done. by rewrite (HP filp).
Qed.

End PairingOperations.

(** C3 at the failing input: in a fresh session owner 7 calls [allocate]
    and [kmalloc] fails.  The call returns -ENOMEM and creates no item,
    yet the owner is charged for one key; tearing the registry down
    afterwards releases nothing, so that charge is never given back. *)
Lemma allocate_enomem_leaks_slot :
  exists s1 s2,
    k_limits (Sample.boot Sample.bufs) 7%nat = 0 /\
    ncr_key_init (hdr := Sample.headers) None 7%nat 0 (Sample.boot Sample.bufs)
      = Some ((- ENOMEM, 0), s1) /\
    k_heap s1 = [] /\ k_keys s1 = [] /\ k_limits s1 7%nat = 1 /\
    ncr_key_list_deinit s1 = Some (tt, s2) /\
    k_limits s2 7%nat = 1.
Proof.
  eexists _, _. split; [reflexivity|]. split; [cbv; reflexivity|].
  split; [reflexivity|]. split; [reflexivity|]. split; [reflexivity|].
  split; [cbv; reflexivity|]. reflexivity.
Qed.


(** ** The registry invariant along a session *)

Lemma registry_inv_empty s : k_keys s = [] -> registry_inv s.
Proof.
  intros He. unfold registry_inv, registry_ok, handles. rewrite He.
  repeat split; constructor.
Qed.

(** rewriting a live item in place, handle and reference count kept *)
Lemma registry_inv_put s desc p k k' :
  registry_inv s -> live s desc p k ->
  ki_desc k' = ki_desc k -> ki_refcnt k' = ki_refcnt k ->
  registry_inv (put_key p k' s).
Proof.
  intros ([Hnd Hv] & Hh & Hpos) Hl Hd Hr.
  assert (Hp : k_heap s !! p = Some (Some k))
    by (destruct Hl as [Hl _]; by apply key_of_at in Hl as (? & _)).
  assert (Hsame : handles (put_key p k' s) = handles s).
  { unfold handles. cbn. apply handles_frame, Forall_forall. intros q _.
    unfold handle_of. destruct (decide (p = q)) as [<-|Hne].
    - rewrite list_lookup_insert_eq by (eapply lookup_lt_Some, Hp).
      by rewrite Hp.
    - by rewrite list_lookup_insert_ne. }
  split; [split; [done|]|by rewrite Hsame].
  cbn. eapply Forall_impl; [exact Hv|]. intros q Hq. unfold valid_ref in *.
  destruct (decide (p = q)) as [<-|Hne].
  - rewrite list_lookup_insert_eq by (eapply lookup_lt_Some, Hp).
    rewrite Hp in Hq. by rewrite Hr.
  - by rewrite list_lookup_insert_ne.
Qed.

Section InvariantOperations.
Context {hdr : NcrHeaders}.

Lemma registry_inv_generate s gen p k r s' :
  registry_inv s -> live s (gen_desc gen) p k ->
  ncr_key_generate gen s = Some (r, s') -> registry_inv s'.
Proof.
  intros Hinv Hl Hrun.
  destruct (decide (ncr_algorithm_to_key_type (gen_algorithm gen)
                    = NCR_KEY_TYPE_SECRET)) as [Hty|Hty].
  - destruct (decide ((gen_bits gen mod 8)%N ≠ 0%N
                      ∨ (gen_bits gen / 8 > MAX_KEY_SIZE)%N)) as [Hb|Hb].
    + rewrite (ncr_key_generate_bad_bits _ _ _ _ Hl Hty Hb) in Hrun.
      injection Hrun as _ <-. by eapply registry_inv_put.
    + rewrite (ncr_key_generate_ok _ _ _ _ Hl Hty) in Hrun.
      * injection Hrun as _ <-.
        apply (registry_inv_put s (gen_desc gen) p k); done.
      * destruct (decide ((gen_bits gen mod 8)%N = 0%N)); tauto.
      * apply N.le_ngt. intros Hlt. apply Hb. right. by apply N.gt_lt_iff.
  - rewrite (ncr_key_generate_not_secret _ _ _ _ Hl Hty) in Hrun.
    injection Hrun as _ <-. by eapply registry_inv_put.
Qed.

Lemma registry_inv_import s data p k i d r s' :
  registry_inv s -> live s (kd_key data) p k -> dlive s (kd_data data) i d ->
  ncr_key_import data s = Some (r, s') -> registry_inv s'.
Proof.
  intros Hinv Hl Hd Hrun.
  rewrite (ncr_key_import_run _ _ _ _ _ _ Hl Hd) in Hrun.
  injection Hrun as _ <-.
  apply (registry_inv_put s (kd_key data) p k); [done..| |];
    unfold import_outcome;
    repeat (destruct (decide _)); reflexivity.
Qed.

Lemma registry_inv_export s data p k i d r s' :
  registry_inv s -> live s (kd_key data) p k -> dlive s (kd_data data) i d ->
  ncr_key_export data s = Some (r, s') -> registry_inv s'.
Proof.
  intros Hinv Hl Hd Hrun.
  rewrite (ncr_key_export_run _ _ _ _ _ _ Hl Hd) in Hrun.
  by injection Hrun as _ <-.
Qed.

Lemma registry_inv_info s arg p k r s' :
  registry_inv s -> live s (info_key arg) p k ->
  ncr_key_info arg s = Some (r, s') -> registry_inv s'.
Proof.
  intros Hinv Hl Hrun. rewrite (ncr_key_info_run _ _ _ _ Hl) in Hrun.
  by injection Hrun as _ <-.
Qed.

End InvariantOperations.

(** * Further properties of ncr-key.c *)

(** ** Giving back the last reference *)

Section LastReference.
Context {hdr : NcrHeaders}.

Lemma _ncr_key_item_put_last s p k :
  key_at s p k -> wrap_int (ki_refcnt k - 1) = 0 ->
  _ncr_key_item_put p s = Some (tt, freed p (ki_filp k) s).
Proof.
  intros Hp Hr. unfold _ncr_key_item_put.
  rewrite (bind_some _ _ _ _ _ (atomic_dec_and_test_at _ _ _ Hp)).
  rewrite bool_decide_true by done.
  rewrite (bind_some _ _ _ _ _ (load_at _ _ _ (key_at_put _ _ _ _ Hp))).
  erewrite (bind_some (ncr_limits_remove _)) by reflexivity.
  unfold kfree. cbn [k_heap with_limits put_key with_heap].
  rewrite list_lookup_insert_eq by (eapply lookup_lt_Some, Hp).
  unfold freed, with_heap, with_limits. cbn. do 2 f_equal.
  f_equal. apply list_insert_insert_eq.
Qed.

(** the scan of [ncr_key_deinit] stops at the item [ncr_key_item_get]
    would find *)
Lemma deinit_scan_found s l desc p k :
  key_of (k_heap s) l desc = Some (p, k) ->
  deinit_scan l desc s = (list_del p;; _ncr_key_item_put p) s.
Proof.
  induction l as [|q l IH]; [discriminate|]. rewrite key_of_cons.
  destruct (k_heap s !! q) as [[kq|]|] eqn:Hq; [|discriminate..].
  cbn [deinit_scan]. rewrite (bind_some _ _ _ _ _ (load_at s q kq Hq)).
  destruct (decide (ki_desc kq = desc)); [by intros [= -> ->]|]. exact IH.
Qed.

Lemma deinit_scan_unknown s l desc :
  Forall (valid_ref (k_heap s)) l ->
  Forall (fun p => forall k, key_at s p k -> ki_desc k <> desc) l ->
  deinit_scan l desc s = Some (tt, s).
Proof.
  induction 1 as [|q l Hq Hl IH]; [reflexivity|]. intros Hu.
  apply Forall_cons in Hu as [Hd Hu]. unfold valid_ref in Hq.
  cbn [deinit_scan].
  destruct (k_heap s !! q) as [[kq|]|] eqn:Eq; [|done..].
  rewrite (bind_some _ _ _ _ _ (load_at s q kq Eq)).
  rewrite decide_False by (by apply Hd). auto.
Qed.

(** [ncr_key_deinit] on a live handle whose item nobody else holds *)
Lemma ncr_key_deinit_last s desc p k :
  live s desc p k -> ki_refcnt k = 1 ->
  ncr_key_deinit desc s =
    Some (0, freed p (ki_filp k) (with_keys (unlink p (k_keys s)) s)).
Proof.
  intros Hl Hr. pose proof (live_at _ _ _ _ Hl) as Hp. destruct Hl as [Hl _].
  unfold ncr_key_deinit.
  erewrite (bind_some (deinit_scan _ _)); [reflexivity|].
  rewrite (deinit_scan_found _ _ _ _ _ Hl).
  erewrite (bind_some (list_del _)) by reflexivity.
  apply (_ncr_key_item_put_last (with_keys (unlink p (k_keys s)) s) p k Hp).
  by rewrite Hr.
Qed.

(** [ncr_key_deinit] on a live handle whose item is still borrowed *)
Lemma ncr_key_deinit_held s desc p k :
  live s desc p k -> 1 < ki_refcnt k ->
  ncr_key_deinit desc s =
    Some (0, put_key p (set_refcnt (ki_refcnt k - 1) k)
               (with_keys (unlink p (k_keys s)) s)).
Proof.
  intros Hl Hr. pose proof (live_at _ _ _ _ Hl) as Hp.
  destruct Hl as [Hl Hrange].
  assert (Hw : wrap_int (ki_refcnt k - 1) = ki_refcnt k - 1)
    by (apply wrap_int_id; unfold INT_MIN, INT_MAX in *; lia).
  unfold ncr_key_deinit.
  erewrite (bind_some (deinit_scan _ _)); [reflexivity|].
  rewrite (deinit_scan_found _ _ _ _ _ Hl).
  erewrite (bind_some (list_del _)) by reflexivity.
  rewrite <- Hw.
  apply (_ncr_key_item_put_held (with_keys (unlink p (k_keys s)) s) p k Hp).
  rewrite Hw. lia.
Qed.

Lemma ncr_key_deinit_unknown s desc :
  registry_ok s -> unknown s desc -> ncr_key_deinit desc s = Some (0, s).
Proof.
  intros [_ Hv] Hu. unfold ncr_key_deinit.
  by rewrite (bind_some _ _ _ _ _ (deinit_scan_unknown _ _ _ Hv Hu)).
Qed.

End LastReference.

(** ** Unlinking a node *)

Lemma unlink_in p q l : q ∈ unlink p l -> q ∈ l.
Proof.
  induction l as [|x l IH]; [done|]. cbn.
  destruct (decide (x = p)).
  - apply list_elem_of_further.
  - intros Hq. apply elem_of_cons in Hq as [->|Hq].
    + apply list_elem_of_here.
    + by apply list_elem_of_further, IH.
Qed.

Lemma unlink_keeps p q l : q ∈ l -> q <> p -> q ∈ unlink p l.
Proof.
  induction l as [|x l IH]; [done|]. intros Hq Hne. cbn.
  apply elem_of_cons in Hq as [->|Hq].
  - rewrite decide_False by done. apply list_elem_of_here.
  - destruct (decide (x = p)); [done|]. by apply list_elem_of_further, IH.
Qed.

Lemma unlink_not_in p l : p ∉ l -> unlink p l = l.
Proof.
  induction l as [|x l IH]; [done|]. intros Hp. cbn.
  apply not_elem_of_cons in Hp as [Hne Hp].
  rewrite decide_False by done. by rewrite IH.
Qed.

Lemma unlink_gone p l : NoDup l -> p ∉ unlink p l.
Proof.
  induction 1 as [|x l Hx Hl IH]; cbn; [apply not_elem_of_nil|].
  destruct (decide (x = p)) as [->|Hne]; [done|].
  apply not_elem_of_cons. split; [congruence|done].
Qed.

Lemma unlink_NoDup p l : NoDup l -> NoDup (unlink p l).
Proof.
  induction 1 as [|x l Hx Hl IH]; cbn; [constructor|].
  destruct (decide (x = p)); [done|].
  apply NoDup_cons. split; [|done]. intros Hin. by apply unlink_in in Hin.
Qed.

Lemma unlink_map_NoDup {B} (f : addr -> B) p l :
  NoDup (map f l) -> NoDup (map f (unlink p l)).
Proof.
  induction l as [|x l IH]; cbn; [done|]. intros Hnd.
  apply NoDup_cons in Hnd as [Hx Hl].
  destruct (decide (x = p)); [done|]. cbn.
  apply NoDup_cons. split; [|by apply IH]. intros Hin. apply Hx.
  apply list_elem_of_In, in_map_iff in Hin as (y & Hy & Hin).
  apply list_elem_of_In, in_map_iff. exists y. split; [done|].
  by apply list_elem_of_In, (unlink_in p), list_elem_of_In.
Qed.

Lemma NoDup_map_eq {B} (f : addr -> B) l x y :
  NoDup (map f l) -> x ∈ l -> y ∈ l -> f x = f y -> x = y.
Proof.
  induction l as [|z l IH]; [by intros _ Hx; apply not_elem_of_nil in Hx|].
  cbn. intros Hnd Hx Hy Hf. apply NoDup_cons in Hnd as [Hz Hl].
  apply elem_of_cons in Hx as [->|Hx]; apply elem_of_cons in Hy as [->|Hy].
  - done.
  - destruct Hz. rewrite Hf. apply list_elem_of_In, in_map, list_elem_of_In, Hy.
  - destruct Hz. rewrite <- Hf.
    apply list_elem_of_In, in_map, list_elem_of_In, Hx.
  - by apply IH.
Qed.

Lemma key_of_agree h h' l desc :
  (forall q, q ∈ l -> h' !! q = h !! q) ->
  key_of h' l desc = key_of h l desc.
Proof.
  induction l as [|x l IH]; [done|]. intros Hag. rewrite !key_of_cons.
  rewrite (Hag x) by apply list_elem_of_here.
  rewrite IH; [done|]. intros q Hq. by apply Hag, list_elem_of_further.
Qed.

(** a scan that stops elsewhere than at [p] does so without [p] too *)
Lemma key_of_unlink h l desc p q kq :
  key_of h l desc = Some (q, kq) -> q <> p ->
  key_of h (unlink p l) desc = Some (q, kq).
Proof.
  induction l as [|x l IH]; [done|]. rewrite key_of_cons. cbn [unlink].
  destruct (h !! x) as [[kx|]|] eqn:Hx; [|discriminate..].
  destruct (decide (x = p)) as [->|Hne].
  - destruct (decide (ki_desc kx = desc)); [by intros [= -> _]|]. done.
  - rewrite key_of_cons, Hx.
    destruct (decide (ki_desc kx = desc)); [done|]. exact IH.
Qed.

(** ** remove *)

Section Remove.
Context {hdr : NcrHeaders}.

Lemma handles_unlinked s p x :
  NoDup (k_keys s) ->
  map (handle_of (<[p := x]> (k_heap s))) (unlink p (k_keys s)) =
  map (handle_of (k_heap s)) (unlink p (k_keys s)).
Proof.
  intros Hnd. apply handles_frame, Forall_forall. intros q Hq.
  apply handle_of_insert_ne. intros ->. by apply (unlink_gone q) in Hnd.
Qed.

Lemma valid_unlinked s p x :
  NoDup (k_keys s) -> Forall (valid_ref (k_heap s)) (k_keys s) ->
  Forall (valid_ref (<[p := x]> (k_heap s))) (unlink p (k_keys s)).
Proof.
  intros Hnd Hv. apply Forall_forall. intros q Hq.
  apply valid_ref_insert_ne.
  - intros ->. by apply (unlink_gone q) in Hnd.
  - rewrite Forall_forall in Hv. by apply Hv, (unlink_in p).
Qed.

(** the registry once the item at [p] is unlinked, whatever is then
    written at [p] *)
Lemma registry_inv_unlinked s desc p k x :
  registry_inv s -> live s desc p k ->
  let s' := with_heap (<[p := x]> (k_heap s))
              (with_keys (unlink p (k_keys s)) s) in
  registry_inv s' /\ unknown s' desc.
Proof.
  intros ([Hnd Hv] & Hh & Hpos) Hl s'.
  destruct (Hl) as [Hk _]. apply key_of_at in Hk as (Hp & Hd & Hin).
  assert (Hs' : handles s' = map (handle_of (k_heap s)) (unlink p (k_keys s)))
    by (unfold handles, s'; cbn; by apply handles_unlinked).
  split; [split; [split|split]|].
  - by apply unlink_NoDup.
  - by apply valid_unlinked.
  - rewrite Hs'. by apply unlink_map_NoDup.
  - rewrite Hs'. apply Forall_forall. intros h Hin'.
    apply list_elem_of_In, in_map_iff in Hin' as (q & <- & Hq).
    rewrite Forall_forall in Hpos. apply Hpos.
    apply list_elem_of_In, in_map, list_elem_of_In, (unlink_in p).
    by apply list_elem_of_In.
  - apply Forall_forall. intros q Hq kq Hkq Heq.
    assert (Hne : q <> p) by (intros ->; by apply (unlink_gone p) in Hnd).
    unfold key_at, s' in Hkq. cbn in Hkq.
    rewrite list_lookup_insert_ne in Hkq by done.
    apply Hne, (NoDup_map_eq (handle_of (k_heap s)) (k_keys s)); auto.
    + by apply (unlink_in p).
    + unfold handle_of. rewrite Hkq, Hp. congruence.
Qed.

(** X1: removing a live key that nobody else holds returns 0, unlinks the
    item, frees it and gives the owner's slot back; afterwards the handle
    is unknown and the registry is as well formed as before. *)
Theorem remove_frees_unheld_key s desc p k :
  registry_inv s -> live s desc p k -> ki_refcnt k = 1 ->
  exists s',
    ncr_key_deinit desc s = Some (0, s') /\
    k_heap s' !! p = Some None /\
    k_keys s' = unlink p (k_keys s) /\ (p ∉ k_keys s') /\
    k_limits s' (ki_filp k) = k_limits s (ki_filp k) - 1 /\
    (forall f, f <> ki_filp k -> k_limits s' f = k_limits s f) /\
    unknown s' desc /\ registry_inv s'.
Proof.
  intros Hinv Hl Hr.
  exists (freed p (ki_filp k) (with_keys (unlink p (k_keys s)) s)).
  destruct (registry_inv_unlinked s desc p k None Hinv Hl) as [Hinv' Hu].
  pose proof (live_at _ _ _ _ Hl) as Hp.
  split; [by apply ncr_key_deinit_last|]. split.
  { cbn. apply list_lookup_insert_eq. eapply lookup_lt_Some, Hp. }
  split; [done|]. split; [apply unlink_gone, Hinv|]. split.
  { cbn. by rewrite decide_True. }
  split; [intros f Hf; cbn; by rewrite decide_False|].
  split; [exact Hu|exact Hinv'].
Qed.

(** X2: removing a handle no item has returns 0 and changes nothing; so
    does removing, a second time, the handle of a key just removed. *)
Theorem remove_is_idempotent s :
  registry_inv s ->
  (forall desc, unknown s desc -> ncr_key_deinit desc s = Some (0, s)) /\
  (forall desc p k,
     live s desc p k -> ki_refcnt k = 1 ->
     exists s',
       ncr_key_deinit desc s = Some (0, s') /\
       ncr_key_deinit desc s' = Some (0, s')).
Proof.
  intros Hinv. split.
  - intros desc Hu. apply ncr_key_deinit_unknown; [apply Hinv|done].
  - intros desc p k Hl Hr.
    exists (freed p (ki_filp k) (with_keys (unlink p (k_keys s)) s)).
    destruct (registry_inv_unlinked s desc p k None Hinv Hl) as [Hinv' Hu].
    split; [by apply ncr_key_deinit_last|].
    apply ncr_key_deinit_unknown; [apply Hinv'|exact Hu].
Qed.

(** X3: removing one key leaves every other handle referring to the item
    it referred to, unchanged. *)
Theorem remove_keeps_other_keys s desc p k desc' q kq :
  registry_inv s -> live s desc p k -> live s desc' q kq -> desc' <> desc ->
  exists s', ncr_key_deinit desc s = Some (0, s') /\ live s' desc' q kq.
Proof.
  intros Hinv Hl Hq Hne.
  assert (Hqp : q <> p).
  { intros ->. pose proof (live_desc _ _ _ _ Hl) as Hd.
    pose proof (live_desc _ _ _ _ Hq) as Hd'.
    apply live_at in Hl, Hq. unfold key_at in *. congruence. }
  destruct (Hl) as [_ [Hr1 Hr2]].
  destruct (decide (ki_refcnt k = 1)) as [Hr|Hr].
  - eexists. split; [by apply ncr_key_deinit_last|].
    split; [|apply Hq]. cbn.
    rewrite (key_of_agree (k_heap s)).
    + apply key_of_unlink; [apply Hq|done].
    + intros x Hx. apply list_lookup_insert_ne. intros <-.
      by apply (unlink_gone p) in Hx; [|apply Hinv].
  - eexists. split; [apply ncr_key_deinit_held; [done|lia]|].
    split; [|apply Hq]. cbn.
    rewrite (key_of_agree (k_heap s)).
    + apply key_of_unlink; [apply Hq|done].
    + intros x Hx. apply list_lookup_insert_ne. intros <-.
      by apply (unlink_gone p) in Hx; [|apply Hinv].
Qed.

End Remove.

(** ** Borrowed items *)

Section Borrow.
Context {hdr : NcrHeaders}.

(** X4: a lookup takes one reference and a release gives it back: between
    the two the item's count is one higher, afterwards the state is what
    it was. *)
Theorem borrow_then_release s desc p k :
  live s desc p k -> ki_refcnt k < INT_MAX ->
  exists s1,
    ncr_key_item_get desc s = Some (Some p, s1) /\
    key_at s1 p (set_refcnt (ki_refcnt k + 1) k) /\
    _ncr_key_item_put p s1 = Some (tt, s).
Proof.
  intros Hl Hlt. pose proof (live_at _ _ _ _ Hl) as Hp.
  destruct (Hl) as [_ Hr].
  assert (Hw : wrap_int (ki_refcnt k + 1) = ki_refcnt k + 1)
    by (apply wrap_int_id; unfold INT_MIN, INT_MAX in *; lia).
  exists (put_key p (set_refcnt (ki_refcnt k + 1) k) s).
  split; [by rewrite (ncr_key_item_get_live _ _ _ _ Hl), Hw|].
  split; [by eapply key_at_put|].
  erewrite _ncr_key_item_put_held; [|by eapply key_at_put|].
  - rewrite put_put. cbn [ki_refcnt set_refcnt].
    replace (ki_refcnt k + 1 - 1) with (ki_refcnt k) by lia.
    rewrite wrap_int_id by (unfold INT_MIN, INT_MAX in *; lia).
    by rewrite set_refcnt_back, put_same.
  - cbn [ki_refcnt set_refcnt].
    replace (ki_refcnt k + 1 - 1) with (ki_refcnt k) by lia.
    rewrite wrap_int_id by (unfold INT_MIN, INT_MAX in *; lia). lia.
Qed.

(** X5: a key removed while it is borrowed is unlinked at once but neither
    freed nor discharged from the limiter; the release of the borrow then
    frees it and gives the owner's slot back. *)
Theorem remove_defers_free_to_last_release s desc p k :
  registry_ok s -> live s desc p k -> ki_refcnt k = 1 ->
  exists s1 s2 s3,
    ncr_key_item_get desc s = Some (Some p, s1) /\
    ncr_key_deinit desc s1 = Some (0, s2) /\
    (p ∉ k_keys s2) /\ key_at s2 p k /\
    (forall f, k_limits s2 f = k_limits s f) /\
    _ncr_key_item_put p s2 = Some (tt, s3) /\
    k_heap s3 !! p = Some None /\
    k_limits s3 (ki_filp k) = k_limits s (ki_filp k) - 1.
Proof.
  intros [Hnd _] Hl Hr. pose proof (live_at _ _ _ _ Hl) as Hp.
  set (k1 := set_refcnt (wrap_int (ki_refcnt k + 1)) k).
  assert (Hk1 : ki_refcnt k1 = 2) by (unfold k1; cbn; by rewrite Hr).
  assert (Hl1 : live (put_key p k1 s) desc p k1).
  { eapply live_put; [exact Hl|by apply live_desc in Hl|].
    rewrite Hk1. unfold INT_MAX. lia. }
  set (s2 := put_key p (set_refcnt (ki_refcnt k1 - 1) k1)
               (with_keys (unlink p (k_keys (put_key p k1 s))) (put_key p k1 s))).
  assert (Hk2 : key_at s2 p k).
  { unfold s2. rewrite Hk1. change (2 - 1) with 1. rewrite <- Hr.
    unfold k1. rewrite set_refcnt_back. eapply key_at_put.
    exact (key_at_put s p k k1 Hp). }
  exists (put_key p k1 s), s2, (freed p (ki_filp k) s2).
  split; [by apply ncr_key_item_get_live|].
  split; [apply ncr_key_deinit_held; [exact Hl1|rewrite Hk1; lia]|].
  split; [by apply unlink_gone|]. split; [exact Hk2|]. split; [done|].
  split; [apply _ncr_key_item_put_last; [exact Hk2|by rewrite Hr]|].
  split.
  - cbn. apply list_lookup_insert_eq. rewrite !length_insert.
    eapply lookup_lt_Some, Hp.
  - cbn. by rewrite decide_True.
Qed.

End Borrow.

(** ** teardown *)

Section Teardown.
Context {hdr : NcrHeaders}.

Lemma deinit_all_run l : forall s,
  k_keys s = l -> NoDup l -> Forall (valid_ref (k_heap s)) l ->
  exists s',
    deinit_all l s = Some (tt, s') /\
    k_keys s' = [] /\
    k_data s' = k_data s /\
    (forall q, q ∉ l -> k_heap s' !! q = k_heap s !! q) /\
    (forall p k, p ∈ l -> key_at s p k ->
       (ki_refcnt k = 1 -> k_heap s' !! p = Some None) /\
       (ki_refcnt k <> 1 -> key_at s' p (set_refcnt (ki_refcnt k - 1) k))).
Proof.
  induction l as [|p l IH]; intros s Hk Hnd Hv.
  - exists s. split; [reflexivity|]. split; [done|]. split; [done|].
    split; [done|]. intros p k Hp. by apply not_elem_of_nil in Hp.
  - apply NoDup_cons in Hnd as [Hpl Hnd]. apply Forall_cons in Hv as [Hp Hv].
    unfold valid_ref in Hp.
    destruct (k_heap s !! p) as [[k|]|] eqn:Ep; [|done..].
    assert (Hdel : list_del p s = Some (tt, with_keys l s)).
    { unfold list_del. rewrite Hk. cbn [unlink]. by rewrite decide_True. }
    assert (Hstep : exists x s1,
      _ncr_key_item_put p (with_keys l s) = Some (tt, s1) /\
      k_keys s1 = l /\ k_data s1 = k_data s /\
      k_heap s1 = <[p := x]> (k_heap s) /\
      (ki_refcnt k = 1 -> x = None) /\
      (ki_refcnt k <> 1 -> x = Some (set_refcnt (ki_refcnt k - 1) k))).
    { destruct (decide (ki_refcnt k = 1)) as [H1|H1].
      - exists None, (freed p (ki_filp k) (with_keys l s)).
        split; [apply _ncr_key_item_put_last; [exact Ep|by rewrite H1]|].
        by repeat split.
      - assert (Hw : wrap_int (ki_refcnt k - 1) = ki_refcnt k - 1)
          by (apply wrap_int_id; unfold INT_MIN, INT_MAX in *; lia).
        exists (Some (set_refcnt (ki_refcnt k - 1) k)),
               (put_key p (set_refcnt (ki_refcnt k - 1) k) (with_keys l s)).
        split.
        + rewrite <- Hw. apply _ncr_key_item_put_held; [exact Ep|].
          rewrite Hw. lia.
        + by repeat split. }
    destruct Hstep as (x & s1 & Hput & Hk1 & Hd1 & Hh1 & Hx1 & Hx2).
    destruct (IH s1 Hk1 Hnd) as (s' & Hrun & Hk' & Hd' & Hfr & Hit).
    { rewrite Hh1. apply Forall_forall. intros q Hq.
      apply valid_ref_insert_ne; [by intros ->|].
      rewrite Forall_forall in Hv. by apply Hv. }
    exists s'. split.
    { cbn [deinit_all]. rewrite (bind_some _ _ _ _ _ Hdel).
      by rewrite (bind_some _ _ _ _ _ Hput). }
    split; [done|]. split; [congruence|]. split.
    { intros q Hq. apply not_elem_of_cons in Hq as [Hne Hq].
      rewrite (Hfr q Hq), Hh1. by apply list_lookup_insert_ne. }
    intros q kq Hq Hkq. apply elem_of_cons in Hq as [->|Hq].
    + unfold key_at in Hkq. rewrite Ep in Hkq. injection Hkq as <-.
      unfold key_at. rewrite (Hfr p Hpl), Hh1.
      rewrite list_lookup_insert_eq by (eapply lookup_lt_Some, Ep).
      split; [intros H1; by rewrite (Hx1 H1)|intros H1; by rewrite (Hx2 H1)].
    + apply Hit; [done|]. unfold key_at. rewrite Hh1.
      rewrite list_lookup_insert_ne; [done|]. by intros ->.
Qed.

(** X6: tearing the registry down empties it, frees every item nobody
    else holds and takes the registry's reference off the others, which
    stay in memory; items outside the registry, the data store and the
    pairing of limiter and items are untouched. *)
Theorem teardown_empties_registry s :
  registry_ok s ->
  exists s',
    ncr_key_list_deinit s = Some (tt, s') /\
    k_keys s' = [] /\
    k_data s' = k_data s /\
    (forall q, q ∉ k_keys s -> k_heap s' !! q = k_heap s !! q) /\
    (forall p k, p ∈ k_keys s -> key_at s p k ->
       (ki_refcnt k = 1 -> k_heap s' !! p = Some None) /\
       (ki_refcnt k <> 1 -> key_at s' p (set_refcnt (ki_refcnt k - 1) k))) /\
    (paired s -> paired s').
Proof.
  intros [Hnd Hv].
  destruct (deinit_all_run (k_keys s) s eq_refl Hnd Hv)
    as (s' & Hrun & Hk & Hd & Hfr & Hit).
  exists s'. repeat split; try done.
  - by apply Hit.
  - by apply Hit.
  - intros HP. by eapply paired_list_deinit.
Qed.

End Teardown.

(** ** Handles come back *)

Section Reuse.
Context {hdr : NcrHeaders}.

(** X7: the handle of the key allocated last is handed out again once that
    key has been removed: allocate, remove, allocate returns the same
    handle twice.  Between the two allocations no item has the handle and
    the owner's slot is free again; after the second the handle is live
    again. *)
Theorem removed_handle_is_reissued s junk junk' filp arg :
  registry_inv s -> max_handle s < INT_MAX ->
  k_limits s filp < max_keys_per_owner ->
  exists h s1 s2 s3,
    ncr_key_init (Some junk) filp arg s = Some ((0, h), s1) /\
    ncr_key_deinit h s1 = Some (0, s2) /\
    ncr_key_init (Some junk') filp arg s2 = Some ((0, h), s3) /\
    h = max_handle s + 1 /\
    unknown s2 h /\
    k_limits s2 filp = k_limits s filp /\
    (exists p k, live s3 h p k).
Proof.
  intros Hinv Hmax Hlim. pose proof Hinv as ([Hnd Hv] & Hh & Hpos).
  pose proof (max_handle_nonneg s) as H0.
  assert (Hw : wrap_int (max_handle s + 1) = max_handle s + 1)
    by (apply wrap_int_id; unfold INT_MIN, INT_MAX in *; lia).
  set (h := wrap_int (max_handle s + 1)).
  set (a := length (k_heap s)).
  set (s1 := allocated filp s).
  pose proof (allocated_live filp s (conj Hnd Hv)) as Hl1.
  fold h a s1 in Hl1.
  set (s2 := freed a (ki_filp (fresh_item filp h))
               (with_keys (unlink a (k_keys s1)) s1)).
  assert (Hk2 : k_keys s2 = k_keys s).
  { unfold s2, s1, allocated. cbn. by rewrite decide_True. }
  assert (Hh2 : k_heap s2 = k_heap s ++ [None]).
  { unfold s2, s1, allocated, freed. cbn.
    rewrite insert_app_r_alt by (unfold a; lia).
    unfold a. by rewrite Nat.sub_diag. }
  assert (Hv2 : Forall (valid_ref (k_heap s2)) (k_keys s2)).
  { rewrite Hk2, Hh2. eapply Forall_impl; [exact Hv|].
    intros q Hq. by apply valid_ref_app. }
  assert (Hm2 : max_handle s2 = max_handle s).
  { unfold max_handle, handles. rewrite Hk2, Hh2. f_equal.
    apply handles_frame. eapply Forall_impl; [exact Hv|].
    intros q Hq. by apply handle_of_app. }
  assert (Hl2 : k_limits s2 filp < max_keys_per_owner).
  { unfold s2, s1, allocated, freed. cbn. rewrite !decide_True by done. lia. }
  exists h, s1, s2, (allocated filp s2).
  split; [by apply ncr_key_init_ok|].
  split; [by apply ncr_key_deinit_last|].
  split; [rewrite (ncr_key_init_ok _ _ _ _ Hv2 Hl2); by rewrite Hm2|].
  split; [exact Hw|]. split; [|split].
  - destruct (registry_inv_allocated filp s Hinv Hmax) as [Hinv1 _].
    exact (proj2 (registry_inv_unlinked s1 h a _ None Hinv1 Hl1)).
  - unfold s2, s1, allocated, freed. cbn. rewrite !decide_True by done. lia.
  - eexists _, _.
    pose proof (allocated_live filp s2) as Hl3.
    rewrite Hm2 in Hl3. apply Hl3.
    split; [by rewrite Hk2|exact Hv2].
Qed.

End Reuse.

(** ** Handles that are not there *)

Lemma released_id (d : data_item) :
  INT_MIN <= di_refcnt d <= INT_MAX -> released d = d.
Proof.
  intros Hr. unfold released. rewrite wrap_int_inc_dec by done.
  by destruct d.
Qed.

Lemma put_data_same s i d : data_at s i d -> put_data i d s = s.
Proof.
  unfold data_at, put_data, with_data. intros Hi. destruct s. cbn in *.
  f_equal. apply list_insert_id, Hi.
Qed.

Section Absent.
Context {hdr : NcrHeaders}.

Lemma ncr_key_import_unknown s data :
  registry_ok s -> unknown s (kd_key data) ->
  ncr_key_import data s = Some (- EINVAL, s).
Proof.
  intros Hok Hu. unfold ncr_key_import.
  by rewrite (bind_some _ _ _ _ _ (ncr_key_item_get_unknown _ _ Hok Hu)).
Qed.

Lemma ncr_key_export_unknown s data :
  registry_ok s -> unknown s (kd_key data) ->
  ncr_key_export data s = Some (- EINVAL, s).
Proof.
  intros Hok Hu. unfold ncr_key_export.
  by rewrite (bind_some _ _ _ _ _ (ncr_key_item_get_unknown _ _ Hok Hu)).
Qed.

Lemma ncr_key_info_unknown s arg :
  registry_ok s -> unknown s (info_key arg) ->
  ncr_key_info arg s = Some ((- EINVAL, arg), s).
Proof.
  intros Hok Hu. unfold ncr_key_info. cbv zeta.
  by rewrite (bind_some _ _ _ _ _ (ncr_key_item_get_unknown _ _ Hok Hu)).
Qed.

Lemma ncr_key_import_no_buffer s data p k :
  live s (kd_key data) p k ->
  data_find (k_data s) (kd_data data) = None ->
  ncr_key_import data s = Some (- EINVAL, s).
Proof.
  intros Hl Hd.
  pose proof (live_at _ _ _ _ Hl) as Hp. destruct (Hl) as [_ Hr].
  unfold ncr_key_import.
  rewrite (bind_some _ _ _ _ _ (ncr_key_item_get_live _ _ _ _ Hl)).
  erewrite (bind_some (ncr_data_item_get _))
    by (by apply ncr_data_item_get_unknown).
  cbv beta match. unfold fail_put. put_step. dstep. settle Hp Hr.
Qed.

(** X8: [info] changes nothing: on a live handle it returns 0 with the
    item's flags, classification and algorithm in its structure, on any
    other handle -EINVAL with the structure as it came, and the state is
    the same afterwards. *)
Theorem info_reads_only s arg :
  registry_ok s ->
  exists r,
    ncr_key_info arg s = Some (r, s) /\
    ((exists p k, live s (info_key arg) p k /\
                  r = (0, {| info_key := info_key arg;
                             info_flags := ki_flags k;
                             info_type := ki_type k;
                             info_algorithm := ki_algorithm k |})) \/
     (unknown s (info_key arg) /\ r = (- EINVAL, arg))).
Proof.
  intros Hok.
  destruct (registry_ok_lookup s (info_key arg) Hok) as [(p & k & Hl)|Hu].
  - eexists. split; [by apply (ncr_key_info_run _ _ p k)|].
    left. by exists p, k.
  - eexists. split; [by apply ncr_key_info_unknown|]. by right.
Qed.

(** X9: on a handle no item has, [generate], [import] and [export] return
    -EINVAL and change nothing, whatever else the request says. *)
Theorem unknown_handle_is_rejected s desc :
  registry_ok s -> unknown s desc ->
  (forall gen, gen_desc gen = desc ->
     ncr_key_generate gen s = Some (- EINVAL, s)) /\
  (forall data, kd_key data = desc ->
     ncr_key_import data s = Some (- EINVAL, s) /\
     ncr_key_export data s = Some (- EINVAL, s)).
Proof.
  intros Hok Hu. split.
  - intros gen <-. by apply ncr_key_generate_unknown.
  - intros data <-. split.
    + by apply ncr_key_import_unknown.
    + by apply ncr_key_export_unknown.
Qed.

(** X10: when the data buffer handle is unknown, [import] and [export]
    return -EINVAL, give the borrowed key back and change nothing; in
    particular [import] has not yet touched classification, algorithm or
    flags. *)
Theorem missing_buffer_is_rejected s data p k :
  live s (kd_key data) p k ->
  data_find (k_data s) (kd_data data) = None ->
  ncr_key_import data s = Some (- EINVAL, s) /\
  ncr_key_export data s = Some (- EINVAL, s).
Proof.
  intros Hl Hd. split.
  - by eapply ncr_key_import_no_buffer.
  - by eapply ncr_key_export_no_buffer.
Qed.

(** X11: an [export] that fails, because the key is not Secret or because
    its material is longer than the buffer's capacity, changes nothing:
    neither the buffer's bytes, length and flags nor any reference
    count. *)
Theorem failed_export_changes_nothing s data p k i d :
  live s (kd_key data) p k ->
  dlive s (kd_data data) i d ->
  INT_MIN <= di_refcnt d <= INT_MAX ->
  ki_type k <> NCR_KEY_TYPE_SECRET \/
  (ki_secret_size k > di_max_data_size d)%N ->
  ncr_key_export data s = Some (- EINVAL, s).
Proof.
  intros Hl Hd Hr Hbad.
  rewrite (ncr_key_export_run _ _ _ _ _ _ Hl Hd). unfold export_outcome.
  destruct (decide (ki_type k = NCR_KEY_TYPE_SECRET)) as [Hty|Hty].
  - destruct Hbad as [?|Hsz]; [done|]. rewrite decide_True by done.
    cbn [fst snd]. rewrite released_id by done.
    by rewrite put_data_same by apply Hd.
  - cbn [fst snd]. rewrite released_id by done.
    by rewrite put_data_same by apply Hd.
Qed.

(** X12: a successful [export] writes the destination buffer and nothing
    else: key items, registry, limiter and every other buffer are as
    before, and the buffer keeps its handle, its capacity and its
    reference count. *)
Theorem export_writes_only_the_buffer s data p k i d :
  live s (kd_key data) p k ->
  dlive s (kd_data data) i d ->
  INT_MIN <= di_refcnt d <= INT_MAX ->
  ki_type k = NCR_KEY_TYPE_SECRET ->
  (ki_secret_size k <= di_max_data_size d)%N ->
  exists s' d',
    ncr_key_export data s = Some (0, s') /\
    k_heap s' = k_heap s /\ k_keys s' = k_keys s /\
    (forall f, k_limits s' f = k_limits s f) /\
    (forall j, j <> i -> k_data s' !! j = k_data s !! j) /\
    data_at s' i d' /\
    di_desc d' = di_desc d /\
    di_max_data_size d' = di_max_data_size d /\
    di_refcnt d' = di_refcnt d.
Proof.
  intros Hl Hd Hr Hty Hsz.
  exists (put_data i (released (snd (export_outcome k d))) s),
         (released (snd (export_outcome k d))).
  rewrite (ncr_key_export_run _ _ _ _ _ _ Hl Hd).
  assert (Hi : data_at (put_data i (released (export_outcome k d).2) s) i
                 (released (export_outcome k d).2))
    by (eapply data_at_put, Hd).
  unfold export_outcome in *. rewrite decide_True in * by done.
  rewrite decide_False in * by (intros Hgt; apply N.gt_lt_iff in Hgt; lia).
  split; [reflexivity|]. split; [reflexivity|]. split; [reflexivity|].
  split; [reflexivity|]. split.
  { intros j Hj. cbn. by apply list_lookup_insert_ne. }
  split; [exact Hi|]. split; [reflexivity|]. split; [reflexivity|].
  cbn. by apply wrap_int_inc_dec.
Qed.

End Absent.

(** ** What import and generate store *)

Lemma take_filled (new old : list byte) n :
  length new = N.to_nat n ->
  take (N.to_nat n) (memcpy old new n) = new /\
  drop (N.to_nat n) (memcpy old new n) = drop (N.to_nat n) old.
Proof.
  intros Hn. unfold memcpy. rewrite (take_ge new) by lia. split.
  - rewrite take_app_le by lia. apply take_ge. lia.
  - rewrite drop_app_ge by lia. rewrite Hn, Nat.sub_diag. reflexivity.
Qed.

Lemma has_flag_lor flags bit :
  bit <> 0%N -> has_flag (N.lor flags bit) bit.
Proof.
  intros Hb. unfold has_flag. rewrite N.land_lor_distr_l, N.land_diag.
  intros H0. apply N.lor_eq_0_iff in H0 as [_ H0]. done.
Qed.

Section Stored.
Context {hdr : NcrHeaders}.

(** X13: a successful [import] stores the request in the key item:
    classification, algorithm, the key id with its length and, as
    material, the bytes of the buffer; handle, owner and reference count
    of the item and the whole data store stay as they were. *)
Theorem import_stores_the_request s data p k i d :
  live s (kd_key data) p k ->
  dlive s (kd_data data) i d ->
  INT_MIN <= di_refcnt d <= INT_MAX ->
  kd_type data = NCR_KEY_TYPE_SECRET ->
  (kd_key_id_size data <= MAX_KEY_ID_SIZE)%N ->
  (di_data_size d <= MAX_KEY_SIZE)%N ->
  (N.to_nat (kd_key_id_size data) <= length (kd_key_id data))%nat ->
  (N.to_nat (di_data_size d) <= length (di_data d))%nat ->
  exists s' k',
    ncr_key_import data s = Some (0, s') /\
    key_at s' p k' /\
    ki_type k' = NCR_KEY_TYPE_SECRET /\
    ki_algorithm k' = kd_algorithm data /\
    ki_key_id_size k' = kd_key_id_size data /\
    take (N.to_nat (kd_key_id_size data)) (ki_key_id k') =
      take (N.to_nat (kd_key_id_size data)) (kd_key_id data) /\
    material k' = buffer_bytes d /\
    ki_desc k' = ki_desc k /\ ki_filp k' = ki_filp k /\
    ki_refcnt k' = ki_refcnt k /\
    k_keys s' = k_keys s /\ k_data s' = k_data s.
Proof.
  intros Hl Hd Hr Hty Hid Hsz Hidlen Hlen.
  exists (put_data i (released d) (put_key p (snd (import_outcome data d k)) s)),
         (snd (import_outcome data d k)).
  rewrite (ncr_key_import_run _ _ _ _ _ _ Hl Hd).
  assert (Hp : key_at (put_data i (released d)
                 (put_key p (import_outcome data d k).2 s)) p
                 (import_outcome data d k).2)
    by (eapply key_at_put_data, key_at_put, live_at, Hl).
  assert (Hdata : k_data (put_data i (released d)
                    (put_key p (import_outcome data d k).2 s)) = k_data s).
  { rewrite released_id by done. cbn. apply list_insert_id, Hd. }
  unfold import_outcome in *. rewrite decide_True in * by done.
  rewrite decide_False in * by (intros Hgt; apply N.gt_lt_iff in Hgt; lia).
  rewrite decide_False in * by (intros Hgt; apply N.gt_lt_iff in Hgt; lia).
  split; [reflexivity|]. split; [exact Hp|]. split; [by cbn|].
  split; [reflexivity|]. split; [reflexivity|]. split.
  { cbn. destruct (decide (kd_key_id_size data > 0)%N) as [Hpos|Hpos].
    - by apply take_memcpy.
    - assert (kd_key_id_size data = 0%N) as ->
        by (destruct (kd_key_id_size data); [done|by destruct Hpos]).
      reflexivity. }
  split; [unfold material, buffer_bytes; cbn; by apply take_memcpy|].
  split; [reflexivity|]. split; [reflexivity|]. split; [reflexivity|].
  split; [reflexivity|exact Hdata].
Qed.

(** X14: whatever the outcome of the checks that follow, [import] leaves
    the key with the requested flags, plus the Exportable bit when the
    source buffer is exportable: the key is exportable exactly when the
    buffer is or the caller asked for it, so a buffer that is not
    exportable does not take the bit away. *)
Theorem import_only_adds_exportability s data p k i d :
  live s (kd_key data) p k ->
  dlive s (kd_data data) i d ->
  NCR_KEY_FLAG_EXPORTABLE <> 0%N ->
  exists r s' k',
    ncr_key_import data s = Some (r, s') /\
    key_at s' p k' /\
    ki_flags k' =
      (if decide (has_flag (di_flags d) NCR_DATA_FLAG_EXPORTABLE)
       then N.lor (kd_flags data) NCR_KEY_FLAG_EXPORTABLE
       else kd_flags data) /\
    (has_flag (ki_flags k') NCR_KEY_FLAG_EXPORTABLE <->
     has_flag (di_flags d) NCR_DATA_FLAG_EXPORTABLE \/
     has_flag (kd_flags data) NCR_KEY_FLAG_EXPORTABLE).
Proof.
  intros Hl Hd Hbit.
  exists (fst (import_outcome data d k)),
         (put_data i (released d) (put_key p (snd (import_outcome data d k)) s)),
         (snd (import_outcome data d k)).
  split; [by apply ncr_key_import_run|].
  split; [eapply key_at_put_data, key_at_put, live_at, Hl|].
  assert (Hfl : ki_flags (import_outcome data d k).2 = import_flags data d).
  { unfold import_outcome. repeat (destruct (decide _)); reflexivity. }
  rewrite Hfl. unfold import_flags, has_flag.
  destruct (decide (N.land (di_flags d) NCR_DATA_FLAG_EXPORTABLE ≠ 0%N))
    as [He|He]; (split; [reflexivity|]).
  - split; [by left|]. intros _. by apply has_flag_lor.
  - split; [by right|]. by intros [?|?].
Qed.

(** X15: a successful [generate] fills the material with the bytes the
    random pool delivers, as many as requested, and the key id with the
    five that follow, and uses up exactly those; what the item's buffer
    held beyond the new material stays there. *)
Theorem generate_stores_random_bytes s gen p k :
  live s (gen_desc gen) p k ->
  ncr_algorithm_to_key_type (gen_algorithm gen) = NCR_KEY_TYPE_SECRET ->
  (gen_bits gen mod 8 = 0)%N ->
  (gen_bits gen / 8 <= MAX_KEY_SIZE)%N ->
  let n := N.to_nat (gen_bits gen / 8) in
  exists s' k',
    ncr_key_generate gen s = Some (0, s') /\
    key_at s' p k' /\
    material k' = map (k_random s) (seq 0 n) /\
    ki_key_id_size k' = 5%N /\
    take 5 (ki_key_id k') = map (fun j => k_random s (n + j)%nat) (seq 0 5) /\
    drop n (ki_secret_data k') = drop n (ki_secret_data k) /\
    (forall j, k_random s' j = k_random s (n + (5 + j))%nat).
Proof.
  intros Hl Hty Hmod Hsz n.
  eexists _, (generated gen s k).
  split; [by apply ncr_key_generate_ok|].
  split; [apply key_at_with_random; eapply key_at_put, live_at, Hl|].
  destruct (take_filled (map (k_random s) (seq 0 n)) (ki_secret_data k)
              (gen_bits gen / 8)) as [Ht Hdr];
    [by rewrite length_map, length_seq|].
  destruct (take_filled (map (fun j => k_random s (n + j)%nat) (seq 0 5))
              (ki_key_id k) 5) as [Ht5 _]; [reflexivity|].
  split; [exact Ht|]. split; [reflexivity|]. split; [exact Ht5|].
  split; [exact Hdr|]. reflexivity.
Qed.

End Stored.

(** ** A key from allocation to the buffer *)

Lemma buffer_bytes_released d : buffer_bytes (released d) = buffer_bytes d.
Proof. reflexivity. Qed.

Section Lifecycle.
Context {hdr : NcrHeaders}.

(** X16: a key just allocated is empty whatever the allocator's memory
    held: [info] reads flags, classification and algorithm 0 from it
    and, where 0 is not the Secret classification, [export] of it fails
    with -EINVAL for every destination. *)
Theorem fresh_key_is_empty s junk filp arg :
  registry_ok s ->
  k_limits s filp < max_keys_per_owner ->
  exists h s1,
    ncr_key_init (Some junk) filp arg s = Some ((0, h), s1) /\
    (forall q, info_key q = h ->
       ncr_key_info q s1 =
         Some ((0, {| info_key := h; info_flags := 0; info_type := 0;
                      info_algorithm := 0 |}), s1)) /\
    (NCR_KEY_TYPE_SECRET <> 0 ->
     forall data, kd_key data = h ->
       exists s2, ncr_key_export data s1 = Some (- EINVAL, s2)).
Proof.
  intros Hok Hlim.
  exists (wrap_int (max_handle s + 1)), (allocated filp s).
  pose proof (allocated_live filp s Hok) as Hl.
  split; [apply ncr_key_init_ok; [apply Hok|done]|]. split.
  - intros q Hq. rewrite <- Hq in Hl.
    rewrite (ncr_key_info_run _ _ _ _ Hl). by rewrite <- Hq.
  - intros Hsec data Hk. rewrite <- Hk in Hl.
    destruct (data_find (k_data (allocated filp s)) (kd_data data))
      as [i|] eqn:Ef.
    + destruct (dlive_found _ _ _ Ef) as [d Hd].
      rewrite (ncr_key_export_run _ _ _ _ _ _ Hl Hd).
      unfold export_outcome. rewrite decide_False by (cbn; congruence).
      by eexists.
    + exists (allocated filp s). by eapply ncr_key_export_no_buffer.
Qed.

(** X17: allocate, generate on the handle returned, export of that handle
    to a buffer with room: all three return 0 and the buffer then holds
    exactly the bytes the random pool delivered, with their length, and
    is exportable exactly when the generation request asked for an
    exportable key. *)
Theorem generated_key_reaches_buffer s junk filp arg gen data i d :
  registry_ok s ->
  k_limits s filp < max_keys_per_owner ->
  gen_desc gen = wrap_int (max_handle s + 1) ->
  kd_key data = wrap_int (max_handle s + 1) ->
  ncr_algorithm_to_key_type (gen_algorithm gen) = NCR_KEY_TYPE_SECRET ->
  (gen_bits gen mod 8 = 0)%N ->
  (gen_bits gen / 8 <= MAX_KEY_SIZE)%N ->
  dlive s (kd_data data) i d ->
  (gen_bits gen / 8 <= di_max_data_size d)%N ->
  NCR_DATA_FLAG_EXPORTABLE <> 0%N ->
  exists s1 s2 s3 d',
    ncr_key_init (Some junk) filp arg s = Some ((0, gen_desc gen), s1) /\
    ncr_key_generate gen s1 = Some (0, s2) /\
    ncr_key_export data s2 = Some (0, s3) /\
    data_at s3 i d' /\
    buffer_bytes d' = map (k_random s) (seq 0 (N.to_nat (gen_bits gen / 8))) /\
    di_data_size d' = (gen_bits gen / 8)%N /\
    (has_flag (di_flags d') NCR_DATA_FLAG_EXPORTABLE <->
     has_flag (gen_keyflags gen) NCR_KEY_FLAG_EXPORTABLE).
Proof.
  intros Hok Hlim Hg Hk Hty Hmod Hsz Hd Hcap Hbit.
  pose proof (allocated_live filp s Hok) as Hl.
  set (h := wrap_int (max_handle s + 1)) in *.
  set (s1 := allocated filp s) in *.
  set (k1 := fresh_item filp h) in *.
  set (p := length (k_heap s)) in *.
  set (k2 := generated gen s1 k1).
  assert (Hl1 : live s1 (gen_desc gen) p k1) by (by rewrite Hg).
  pose proof (ncr_key_generate_ok _ _ _ _ Hl1 Hty Hmod Hsz) as Hgen.
  fold k2 in Hgen.
  set (s2 := with_random _ (put_key p k2 s1)) in Hgen.
  assert (Hl2 : live s2 (kd_key data) p k2).
  { rewrite Hk. apply live_with_random, (live_put s1 h p k1); [done..|].
    cbn. unfold INT_MAX. lia. }
  assert (Hd2 : dlive s2 (kd_data data) i d) by exact Hd.
  pose proof (ncr_key_export_run _ _ _ _ _ _ Hl2 Hd2) as Hexp.
  assert (Hout : export_outcome k2 d =
    (0, {| di_data :=
             if decide (gen_bits gen / 8 > 0)%N
             then memcpy (di_data d) (ki_secret_data k2) (gen_bits gen / 8)
             else di_data d;
           di_data_size := (gen_bits gen / 8)%N;
           di_max_data_size := di_max_data_size d;
           di_flags :=
             if decide (N.land (gen_keyflags gen) NCR_KEY_FLAG_EXPORTABLE ≠ 0%N)
             then N.lor 0 NCR_DATA_FLAG_EXPORTABLE
             else 0%N;
           di_refcnt := di_refcnt d;
           di_desc := di_desc d |})).
  { unfold export_outcome. rewrite decide_True by reflexivity.
    change (ki_secret_size k2) with (gen_bits gen / 8)%N.
    rewrite decide_False by (intros Hgt; apply N.gt_lt_iff in Hgt; lia).
    reflexivity. }
  rewrite Hout in Hexp. cbn [fst snd] in Hexp.
  eexists s1, s2, _, _.
  split; [rewrite Hg; apply ncr_key_init_ok; [apply Hok|done]|].
  split; [exact Hgen|]. split; [exact Hexp|].
  split; [eapply data_at_put, Hd|].
  destruct (take_filled
              (map (k_random s) (seq 0 (N.to_nat (gen_bits gen / 8))))
              (ki_secret_data k1) (gen_bits gen / 8)) as [Hrnd _];
    [by rewrite length_map, length_seq|].
  split; [|split; [reflexivity|]].
  - rewrite buffer_bytes_released. unfold buffer_bytes.
    cbn [di_data di_data_size].
    destruct (decide (gen_bits gen / 8 > 0)%N) as [Hpos|Hpos].
    + unfold memcpy at 1.
      change (ki_secret_data k2)
        with (memcpy (ki_secret_data k1)
                (map (k_random s) (seq 0 (N.to_nat (gen_bits gen / 8))))
                (gen_bits gen / 8)).
      rewrite Hrnd. apply take_app_length'.
      by rewrite length_map, length_seq.
    + assert (gen_bits gen / 8 = 0)%N as ->
        by (destruct (gen_bits gen / 8)%N; [done|by destruct Hpos]).
      reflexivity.
  - unfold has_flag. cbn [released di_flags di_set_refcnt].
    destruct (decide (N.land (gen_keyflags gen) NCR_KEY_FLAG_EXPORTABLE ≠ 0%N))
      as [He|He].
    + split; [done|]. intros _. by apply (has_flag_lor 0).
    + split; [|done]. intros Hx. by destruct Hx.
Qed.

End Lifecycle.

(** ** Every call returns, to a sound state *)

Lemma length_memcpy dst src n :
  (N.to_nat n <= length dst)%nat -> (N.to_nat n <= length src)%nat ->
  length (memcpy dst src n) = length dst.
Proof.
  intros Hd Hs. unfold memcpy.
  rewrite length_app, length_take, length_drop. lia.
Qed.

Section Soundness.
Context {hdr : NcrHeaders}.

(** a state whose items are those of a sized state, or sized themselves *)
Lemma sized_from s s' :
  sized s ->
  (forall p k, key_at s' p k -> key_at s p k \/ key_sized k) ->
  (forall i d, data_at s' i d -> data_at s i d \/ data_sized d) ->
  sized s'.
Proof.
  intros [Hk Hd] Hk' Hd'. split.
  - intros p k Hp. destruct (Hk' p k Hp) as [?|?]; [by eapply Hk|done].
  - intros i d Hi. destruct (Hd' i d Hi) as [?|?]; [by eapply Hd|done].
Qed.

Lemma sized_put_key s p k' :
  sized s -> key_sized k' -> sized (put_key p k' s).
Proof.
  intros Hs Hk. apply (sized_from s); [done| |by left].
  intros q kq Hq. unfold key_at in Hq. cbn in Hq.
  apply list_lookup_insert_Some in Hq as [(_ & Heq & _)|[_ Hq]].
  - right. by simplify_eq.
  - by left.
Qed.

Lemma sized_put_data s i d' :
  sized s -> data_sized d' -> sized (put_data i d' s).
Proof.
  intros Hs Hd. apply (sized_from s); [done|by left|].
  intros j dj Hj. unfold data_at in Hj. cbn in Hj.
  apply list_lookup_insert_Some in Hj as [(_ & Heq & _)|[_ Hj]].
  - right. by simplify_eq.
  - by left.
Qed.

(** unlinking a node and writing [x], nothing or an item that is sized,
    at its address *)
Lemma sized_unlinked s p l x f :
  sized s -> (forall k, x = Some k -> key_sized k) ->
  sized (with_heap (<[p := x]> (k_heap s))
           (with_limits f (with_keys l s))).
Proof.
  intros Hs Hx. apply (sized_from s); [done| |by left].
  intros q kq Hq. unfold key_at in Hq. cbn in Hq.
  apply list_lookup_insert_Some in Hq as [(_ & Heq & _)|[_ Hq]].
  - right. by apply Hx.
  - by left.
Qed.

Lemma sized_allocated filp s : sized s -> sized (allocated filp s).
Proof.
  intros Hs. apply (sized_from s); [done| |by left].
  intros q kq Hq. unfold key_at in Hq. cbn in Hq.
  apply lookup_app_Some in Hq as [Hq|[_ Hq]]; [by left|right].
  apply list_lookup_singleton_Some in Hq as [_ Hq]. simplify_eq.
  repeat split; cbn; rewrite ?length_replicate; lia.
Qed.

Lemma key_sized_generated gen s k :
  key_sized k -> (5 <= MAX_KEY_ID_SIZE)%N ->
  (gen_bits gen / 8 <= MAX_KEY_SIZE)%N ->
  key_sized (generated gen s k).
Proof.
  intros (Hd & Hi & _ & _) H5 Hsz. unfold key_sized, generated. cbn.
  rewrite !length_memcpy
    by (rewrite ?length_map, ?length_seq; cbn; lia).
  repeat split; done.
Qed.

Lemma key_sized_imported data d k :
  key_sized k -> data_sized d ->
  length (kd_key_id data) = N.to_nat MAX_KEY_ID_SIZE ->
  key_sized (snd (import_outcome data d k)).
Proof.
  intros Hk [Hdl Hds] Hreq. pose proof Hk as (Hd & Hi & Hss & His).
  unfold import_outcome.
  destruct (decide (kd_type data = NCR_KEY_TYPE_SECRET)); [|exact Hk].
  destruct (decide (kd_key_id_size data > MAX_KEY_ID_SIZE)%N) as [Hid|Hid];
    [exact Hk|].
  assert (Hid' : (kd_key_id_size data <= MAX_KEY_ID_SIZE)%N)
    by (apply N.le_ngt; intros Hlt; by apply Hid, N.gt_lt_iff).
  assert (Hkid : length (if decide (kd_key_id_size data > 0)%N
                         then memcpy (ki_key_id k) (kd_key_id data)
                                (kd_key_id_size data)
                         else ki_key_id k) = N.to_nat MAX_KEY_ID_SIZE).
  { destruct (decide _); [|done]. rewrite length_memcpy; [done|lia..]. }
  destruct (decide (di_data_size d > MAX_KEY_SIZE)%N) as [Hsz|Hsz].
  - unfold key_sized. cbn. by repeat split.
  - assert (Hsz' : (di_data_size d <= MAX_KEY_SIZE)%N)
      by (apply N.le_ngt; intros Hlt; by apply Hsz, N.gt_lt_iff).
    unfold key_sized. cbn. rewrite length_memcpy by lia.
    by repeat split.
Qed.

Lemma data_sized_exported k d :
  key_sized k -> data_sized d ->
  data_sized (released (snd (export_outcome k d))).
Proof.
  intros (Hd & _ & Hss & _) Hdd. pose proof Hdd as [Hdl Hds].
  unfold export_outcome.
  destruct (decide (ki_type k = NCR_KEY_TYPE_SECRET)); [|exact Hdd].
  destruct (decide (ki_secret_size k > di_max_data_size d)%N) as [Hsz|Hsz];
    [exact Hdd|].
  assert (Hsz' : (ki_secret_size k <= di_max_data_size d)%N)
    by (apply N.le_ngt; intros Hlt; by apply Hsz, N.gt_lt_iff).
  unfold data_sized. cbn. split; [|done].
  destruct (decide _); [|done]. rewrite length_memcpy; [done|lia..].
Qed.

Lemma ncr_key_generate_returns s gen :
  registry_inv s -> sized s -> (5 <= MAX_KEY_ID_SIZE)%N ->
  exists r s',
    ncr_key_generate gen s = Some (r, s') /\ registry_inv s' /\ sized s'.
Proof.
  intros Hinv Hs H5.
  destruct (registry_ok_lookup s (gen_desc gen) (proj1 Hinv))
    as [(p & k & Hl)|Hu].
  - pose proof (proj1 Hs p k (live_at _ _ _ _ Hl)) as Hk.
    assert (exists r s', ncr_key_generate gen s = Some (r, s') /\ sized s')
      as (r & s' & Hrun & Hs').
    { destruct (decide (ncr_algorithm_to_key_type (gen_algorithm gen)
                        = NCR_KEY_TYPE_SECRET)) as [Hty|Hty].
      - destruct (decide ((gen_bits gen mod 8)%N ≠ 0%N
                          ∨ (gen_bits gen / 8 > MAX_KEY_SIZE)%N)) as [Hb|Hb].
        + eexists _, _. split; [by eapply ncr_key_generate_bad_bits|].
          by apply sized_put_key.
        + assert (Hsz : (gen_bits gen / 8 <= MAX_KEY_SIZE)%N).
          { apply N.le_ngt. intros Hlt. apply Hb. right.
            by apply N.gt_lt_iff. }
          eexists _, _. split.
          * eapply ncr_key_generate_ok; [done..| |done].
            destruct (decide ((gen_bits gen mod 8)%N = 0%N)); tauto.
          * apply (sized_put_key s p _ Hs).
            by apply key_sized_generated.
      - eexists _, _. split; [by eapply ncr_key_generate_not_secret|].
        by apply sized_put_key. }
    exists r, s'. split; [done|]. split; [|done].
    by eapply registry_inv_generate.
  - exists (- EINVAL), s. split; [|done].
    apply ncr_key_generate_unknown; [apply Hinv|done].
Qed.

Lemma ncr_key_import_returns s data :
  registry_inv s -> sized s ->
  length (kd_key_id data) = N.to_nat MAX_KEY_ID_SIZE ->
  exists r s',
    ncr_key_import data s = Some (r, s') /\ registry_inv s' /\ sized s'.
Proof.
  intros Hinv Hs Hreq.
  destruct (registry_ok_lookup s (kd_key data) (proj1 Hinv))
    as [(p & k & Hl)|Hu].
  - destruct (data_find (k_data s) (kd_data data)) as [i|] eqn:Ef.
    + destruct (dlive_found _ _ _ Ef) as [d Hd].
      pose proof (proj1 Hs p k (live_at _ _ _ _ Hl)) as Hk.
      pose proof (proj2 Hs i d (proj2 Hd)) as Hdd.
      eexists _, _. split; [by eapply ncr_key_import_run|]. split.
      * eapply registry_inv_import; [done..|]. by eapply ncr_key_import_run.
      * apply sized_put_data; [|exact Hdd].
        apply sized_put_key; [done|]. by apply key_sized_imported.
    + exists (- EINVAL), s. split; [|done].
      by eapply ncr_key_import_no_buffer.
  - exists (- EINVAL), s. split; [|done].
    apply ncr_key_import_unknown; [apply Hinv|done].
Qed.

Lemma ncr_key_export_returns s data :
  registry_inv s -> sized s ->
  exists r s',
    ncr_key_export data s = Some (r, s') /\ registry_inv s' /\ sized s'.
Proof.
  intros Hinv Hs.
  destruct (registry_ok_lookup s (kd_key data) (proj1 Hinv))
    as [(p & k & Hl)|Hu].
  - destruct (data_find (k_data s) (kd_data data)) as [i|] eqn:Ef.
    + destruct (dlive_found _ _ _ Ef) as [d Hd].
      pose proof (proj1 Hs p k (live_at _ _ _ _ Hl)) as Hk.
      pose proof (proj2 Hs i d (proj2 Hd)) as Hdd.
      eexists _, _. split; [by eapply ncr_key_export_run|]. split.
      * eapply registry_inv_export; [done..|]. by eapply ncr_key_export_run.
      * apply sized_put_data; [done|]. by apply data_sized_exported.
    + exists (- EINVAL), s. split; [|done].
      by eapply ncr_key_export_no_buffer.
  - exists (- EINVAL), s. split; [|done].
    apply ncr_key_export_unknown; [apply Hinv|done].
Qed.

Lemma ncr_key_deinit_returns s desc :
  registry_inv s -> sized s ->
  exists s',
    ncr_key_deinit desc s = Some (0, s') /\ registry_inv s' /\ sized s'.
Proof.
  intros Hinv Hs.
  destruct (registry_ok_lookup s desc (proj1 Hinv)) as [(p & k & Hl)|Hu].
  - pose proof (proj1 Hs p k (live_at _ _ _ _ Hl)) as Hk.
    destruct (decide (ki_refcnt k = 1)) as [H1|H1].
    + eexists. split; [by eapply ncr_key_deinit_last|]. split.
      * exact (proj1 (registry_inv_unlinked s desc p k None Hinv Hl)).
      * by apply (sized_unlinked s p _ None).
    + eexists. split; [|split].
      * eapply ncr_key_deinit_held; [done|]. destruct Hl as [_ ?]. lia.
      * exact (proj1 (registry_inv_unlinked s desc p k _ Hinv Hl)).
      * apply (sized_unlinked s p _ (Some _) (k_limits s)); [done|].
        intros k' Hk'. by simplify_eq.
  - exists s. split; [|done].
    apply ncr_key_deinit_unknown; [apply Hinv|done].
Qed.

Lemma ncr_key_list_deinit_returns s :
  registry_ok s -> sized s ->
  exists s',
    ncr_key_list_deinit s = Some (tt, s') /\ k_keys s' = [] /\ sized s'.
Proof.
  intros [Hnd Hv] Hs.
  destruct (deinit_all_run (k_keys s) s eq_refl Hnd Hv)
    as (s' & Hrun & Hk & Hd & Hfr & Hit).
  exists s'. split; [exact Hrun|]. split; [exact Hk|].
  apply (sized_from s); [done| |].
  - intros q kq Hq.
    destruct (decide (q ∈ k_keys s)) as [Hin|Hin].
    + rewrite Forall_forall in Hv. pose proof (Hv q Hin) as Hvq.
      unfold valid_ref in Hvq.
      destruct (k_heap s !! q) as [[k|]|] eqn:Eq; [|done..].
      destruct (Hit q k Hin Eq) as [H1 H2].
      destruct (decide (ki_refcnt k = 1)) as [Hr|Hr].
      * unfold key_at in Hq. rewrite (H1 Hr) in Hq. discriminate.
      * right. pose proof (H2 Hr) as Hq'. unfold key_at in Hq, Hq'.
        rewrite Hq in Hq'. injection Hq' as ->.
        exact (proj1 Hs q k Eq).
    + left. unfold key_at in *. by rewrite <- (Hfr q Hin).
  - intros i d Hi. left. unfold data_at in *. by rewrite <- Hd.
Qed.

(** X18: take a state that is sound, one whose registry has positive,
    pairwise distinct handles on held items and whose limiter charges
    each owner for exactly its items, and sized, one whose arrays have
    their declared lengths with the length fields within them; let the
    key id of [generate], five bytes, fit the key id array.  Then
    [generate], [import] of a request whose key id array has its declared
    length, [export], [info], [remove], the teardown and, while the
    allocator delivers and handles are left, [allocate] all return,
    whatever the request: none of them reaches a freed item.  The state
    they leave is sound and sized again: no copy has changed the length
    of an array, and every length field is within its array. *)
Theorem calls_return_to_a_sound_state s :
  sound s -> sized s -> (5 <= MAX_KEY_ID_SIZE)%N ->
  (forall gen, exists r s',
     ncr_key_generate gen s = Some (r, s') /\ sound s' /\ sized s') /\
  (forall data, length (kd_key_id data) = N.to_nat MAX_KEY_ID_SIZE ->
     exists r s',
       ncr_key_import data s = Some (r, s') /\ sound s' /\ sized s') /\
  (forall data, exists r s',
     ncr_key_export data s = Some (r, s') /\ sound s' /\ sized s') /\
  (forall arg, exists r, ncr_key_info arg s = Some (r, s)) /\
  (forall junk filp arg, max_handle s < INT_MAX ->
     exists r s', ncr_key_init (Some junk) filp arg s = Some (r, s') /\
                  sound s' /\ sized s') /\
  (forall desc, exists s',
     ncr_key_deinit desc s = Some (0, s') /\ sound s' /\ sized s') /\
  (exists s', ncr_key_list_deinit s = Some (tt, s') /\
              sound s' /\ sized s').
Proof.
  intros [Hinv HP] Hs H5.
  split; [|split; [|split; [|split; [|split; [|split]]]]].
  - intros gen.
    destruct (ncr_key_generate_returns s gen Hinv Hs H5)
      as (r & s' & Hrun & Hi & Hs').
    exists r, s'. split; [done|]. split; [|done]. split; [done|].
    exact (paired_generate gen s r s' HP Hrun).
  - intros data Hreq.
    destruct (ncr_key_import_returns s data Hinv Hs Hreq)
      as (r & s' & Hrun & Hi & Hs').
    exists r, s'. split; [done|]. split; [|done]. split; [done|].
    exact (paired_import data s r s' HP Hrun).
  - intros data.
    destruct (ncr_key_export_returns s data Hinv Hs)
      as (r & s' & Hrun & Hi & Hs').
    exists r, s'. split; [done|]. split; [|done]. split; [done|].
    exact (paired_export data s r s' HP Hrun).
  - intros arg.
    destruct (registry_ok_lookup s (info_key arg) (proj1 Hinv))
      as [(p & k & Hl)|Hu].
    + eexists. by eapply ncr_key_info_run.
    + eexists. apply ncr_key_info_unknown; [apply Hinv|done].
  - intros junk filp arg Hmax.
    destruct (decide (k_limits s filp < max_keys_per_owner)) as [Hlim|Hlim].
    + eexists _, _. split; [apply ncr_key_init_ok; [apply Hinv|done]|].
      split; [|by apply sized_allocated].
      split; [by apply registry_inv_allocated|by apply paired_allocated].
    + eexists _, _. split; [apply ncr_key_init_refused; lia|done].
  - intros desc.
    destruct (ncr_key_deinit_returns s desc Hinv Hs)
      as (s' & Hrun & Hi & Hs').
    exists s'. split; [done|]. split; [|done]. split; [done|].
    exact (paired_deinit desc s 0 s' HP Hrun).
  - destruct (ncr_key_list_deinit_returns s (proj1 Hinv) Hs)
      as (s' & Hrun & Hk & Hs').
    exists s'. split; [exact Hrun|]. split; [|done]. split.
    + by apply registry_inv_empty.
    + exact (paired_list_deinit s tt s' HP Hrun).
Qed.

End Soundness.

(** ** Past the last handle *)

Section PastIntMax.
Context {hdr : NcrHeaders}.

(** X19: once [INT_MAX] is among the handles, [allocate] hands out
    [INT_MIN] every time: two allocations in a row return the same handle
    for two different items.  Both stay linked, and the handle refers to
    the one allocated last, which the scan of the registry meets first. *)
Theorem handles_collide_past_int_max s j1 j2 filp a1 a2 :
  registry_ok s ->
  max_handle s = INT_MAX ->
  k_limits s filp + 1 < max_keys_per_owner ->
  exists s1 s2,
    ncr_key_init (Some j1) filp a1 s = Some ((0, INT_MIN), s1) /\
    ncr_key_init (Some j2) filp a2 s1 = Some ((0, INT_MIN), s2) /\
    live s2 INT_MIN (S (length (k_heap s))) (fresh_item filp INT_MIN) /\
    key_at s2 (length (k_heap s)) (fresh_item filp INT_MIN) /\
    length (k_heap s) ∈ k_keys s2.
Proof.
  intros Hok Hmax Hlim.
  assert (Hw : wrap_int (INT_MAX + 1) = INT_MIN) by (vm_compute; reflexivity).
  pose proof (registry_ok_allocated filp s Hok) as Hok1.
  assert (Hmax1 : max_handle (allocated filp s) = INT_MAX).
  { unfold max_handle. rewrite (handles_allocated _ _ (proj2 Hok)).
    rewrite Hmax, Hw. exact Hmax. }
  assert (Hlen : length (k_heap (allocated filp s)) = S (length (k_heap s))).
  { cbn. rewrite length_app. cbn. lia. }
  exists (allocated filp s), (allocated filp (allocated filp s)).
  split; [apply ncr_key_init_at_int_max; [apply Hok|lia|done]|].
  split.
  { apply ncr_key_init_at_int_max; [apply Hok1| |done].
    cbn. rewrite decide_True by done. lia. }
  pose proof (allocated_live filp _ Hok1) as Hl.
  rewrite Hmax1, Hw, Hlen in Hl.
  split; [exact Hl|]. split.
  - unfold key_at. cbn.
    rewrite lookup_app_l by (rewrite length_app; cbn; lia).
    rewrite lookup_app_r, Nat.sub_diag by lia. cbn.
    by rewrite Hmax, Hw.
  - cbn. apply list_elem_of_further, list_elem_of_here.
Qed.

End PastIntMax.

(** ** import, then info *)

Section ImportInfo.
Context {hdr : NcrHeaders}.

(** X20: after a successful [import], [info] on the same handle reads
    back the Secret classification, the algorithm of the import request
    and its flags, with the Exportable bit added when the source buffer
    was exportable. *)
Theorem import_then_info s data p k i d arg :
  live s (kd_key data) p k ->
  dlive s (kd_data data) i d ->
  kd_type data = NCR_KEY_TYPE_SECRET ->
  (kd_key_id_size data <= MAX_KEY_ID_SIZE)%N ->
  (di_data_size d <= MAX_KEY_SIZE)%N ->
  info_key arg = kd_key data ->
  exists s1,
    ncr_key_import data s = Some (0, s1) /\
    ncr_key_info arg s1 =
      Some ((0, {| info_key := kd_key data;
                   info_flags :=
                     if decide (has_flag (di_flags d) NCR_DATA_FLAG_EXPORTABLE)
                     then N.lor (kd_flags data) NCR_KEY_FLAG_EXPORTABLE
                     else kd_flags data;
                   info_type := NCR_KEY_TYPE_SECRET;
                   info_algorithm := kd_algorithm data |}), s1).
Proof.
  intros Hl Hd Hty Hid Hsz Harg.
  pose proof (ncr_key_import_run _ _ _ _ _ _ Hl Hd) as Hrun.
  assert (Hout : exists k',
    import_outcome data d k = (0, k') /\
    ki_desc k' = ki_desc k /\ ki_refcnt k' = ki_refcnt k /\
    ki_type k' = NCR_KEY_TYPE_SECRET /\
    ki_algorithm k' = kd_algorithm data /\
    ki_flags k' = import_flags data d).
  { unfold import_outcome. rewrite decide_True by done.
    rewrite decide_False by (intros Hgt; apply N.gt_lt_iff in Hgt; lia).
    rewrite decide_False by (intros Hgt; apply N.gt_lt_iff in Hgt; lia).
    eexists. split; [reflexivity|]. cbn. by rewrite Hty. }
  destruct Hout as (k' & Ho & Hdesc & Href & Hty' & Halg & Hfl).
  rewrite Ho in Hrun. cbn [fst snd] in Hrun.
  eexists. split; [exact Hrun|].
  assert (Hl' : live (put_data i (released d) (put_key p k' s))
                  (info_key arg) p k').
  { rewrite Harg. apply live_put_data, (live_put s _ p k); [done| |].
    - rewrite Hdesc. by eapply live_desc.
    - rewrite Href. apply Hl. }
  rewrite (ncr_key_info_run _ _ _ _ Hl'). unfold info_of.
  by rewrite Harg, Hty', Halg, Hfl.
Qed.

End ImportInfo.

(** * The further properties on the sample sessions *)

Lemma two_keys_inv : registry_inv Sample.two_keys.
Proof.
  split; [split|split].
  - apply NoDup_cons. split; [|apply NoDup_singleton].
    intros Hin. apply list_elem_of_singleton in Hin. discriminate.
  - repeat constructor; cbn; unfold INT_MAX; lia.
  - apply NoDup_cons. split; [|apply NoDup_singleton].
    intros Hin. apply list_elem_of_singleton in Hin. discriminate.
  - repeat constructor; cbn; unfold INT_MAX; lia.
Qed.

Lemma two_keys_first : live Sample.two_keys 1 0%nat Sample.item0.
Proof. split; [vm_compute; reflexivity|]. cbn. unfold INT_MAX. lia. Qed.

Lemma two_keys_second : live Sample.two_keys 2 1%nat Sample.item1.
Proof. split; [vm_compute; reflexivity|]. cbn. unfold INT_MAX. lia. Qed.

Lemma session_paired : paired Sample.session.
Proof.
  intros f. cbn. unfold owned_by. cbn.
  destruct (decide (f = 7%nat)) as [->|Hne].
  - rewrite decide_True by done. lia.
  - rewrite decide_False by congruence. lia.
Qed.

Lemma session_sound : sound Sample.session.
Proof. split; [exact session_inv|exact session_paired]. Qed.

Lemma session_unknown_5 : unknown Sample.session 5.
Proof.
  repeat constructor. intros k Hk. unfold key_at in Hk. cbn in Hk.
  injection Hk as <-. discriminate.
Qed.

Lemma at_top_ok : registry_ok Sample.at_top.
Proof.
  split; [apply NoDup_singleton|].
  repeat constructor; cbn; unfold INT_MAX; lia.
Qed.

Lemma remove_frees_unheld_key_witness :
  exists s',
    ncr_key_deinit 1 Sample.session = Some (0, s') /\
    k_heap s' !! 0%nat = Some None /\
    k_keys s' = unlink 0%nat (k_keys Sample.session) /\
    (0%nat ∉ k_keys s') /\
    k_limits s' (ki_filp Sample.item0)
      = k_limits Sample.session (ki_filp Sample.item0) - 1 /\
    (forall f, f <> ki_filp Sample.item0 ->
               k_limits s' f = k_limits Sample.session f) /\
    unknown s' 1 /\ registry_inv s'.
Proof.
  apply (remove_frees_unheld_key Sample.session 1 0%nat Sample.item0
           session_inv session_live).
  reflexivity.
Defined.

Lemma remove_is_idempotent_witness :
  ncr_key_deinit 5 Sample.session = Some (0, Sample.session) /\
  exists s',
    ncr_key_deinit 1 Sample.session = Some (0, s') /\
    ncr_key_deinit 1 s' = Some (0, s').
Proof.
  split.
  - apply (proj1 (remove_is_idempotent Sample.session session_inv) 5
             session_unknown_5).
  - apply (proj2 (remove_is_idempotent Sample.session session_inv) 1 0%nat
             Sample.item0 session_live).
    reflexivity.
Defined.

Lemma remove_keeps_other_keys_witness :
  exists s',
    ncr_key_deinit 1 Sample.two_keys = Some (0, s') /\
    live s' 2 1%nat Sample.item1.
Proof.
  apply (remove_keeps_other_keys Sample.two_keys 1 0%nat Sample.item0
           2 1%nat Sample.item1 two_keys_inv two_keys_first two_keys_second).
  discriminate.
Defined.

Lemma borrow_then_release_witness :
  exists s1,
    ncr_key_item_get 1 Sample.session = Some (Some 0%nat, s1) /\
    key_at s1 0%nat (set_refcnt (ki_refcnt Sample.item0 + 1) Sample.item0) /\
    _ncr_key_item_put 0%nat s1 = Some (tt, Sample.session).
Proof.
  apply (borrow_then_release Sample.session 1 0%nat Sample.item0 session_live).
  vm_compute. reflexivity.
Defined.

Lemma remove_defers_free_to_last_release_witness :
  exists s1 s2 s3,
    ncr_key_item_get 1 Sample.session = Some (Some 0%nat, s1) /\
    ncr_key_deinit 1 s1 = Some (0, s2) /\
    (0%nat ∉ k_keys s2) /\ key_at s2 0%nat Sample.item0 /\
    (forall f, k_limits s2 f = k_limits Sample.session f) /\
    _ncr_key_item_put 0%nat s2 = Some (tt, s3) /\
    k_heap s3 !! 0%nat = Some None /\
    k_limits s3 (ki_filp Sample.item0)
      = k_limits Sample.session (ki_filp Sample.item0) - 1.
Proof.
  apply (remove_defers_free_to_last_release Sample.session 1 0%nat
           Sample.item0 session_ok session_live).
  reflexivity.
Defined.

Lemma teardown_empties_registry_witness :
  exists s',
    ncr_key_list_deinit Sample.two_keys = Some (tt, s') /\
    k_keys s' = [] /\
    k_data s' = k_data Sample.two_keys /\
    (forall q, q ∉ k_keys Sample.two_keys ->
               k_heap s' !! q = k_heap Sample.two_keys !! q) /\
    (forall p k, p ∈ k_keys Sample.two_keys -> key_at Sample.two_keys p k ->
       (ki_refcnt k = 1 -> k_heap s' !! p = Some None) /\
       (ki_refcnt k <> 1 -> key_at s' p (set_refcnt (ki_refcnt k - 1) k))) /\
    (paired Sample.two_keys -> paired s').
Proof.
  apply (teardown_empties_registry Sample.two_keys (proj1 two_keys_inv)).
Defined.

Lemma removed_handle_is_reissued_witness :
  exists h s1 s2 s3,
    ncr_key_init (hdr := Sample.headers) (Some Sample.item0) 7%nat 0
      Sample.session = Some ((0, h), s1) /\
    ncr_key_deinit h s1 = Some (0, s2) /\
    ncr_key_init (hdr := Sample.headers) (Some Sample.item1) 7%nat 0 s2
      = Some ((0, h), s3) /\
    h = max_handle Sample.session + 1 /\
    unknown s2 h /\
    k_limits s2 7%nat = k_limits Sample.session 7%nat /\
    (exists p k, live s3 h p k).
Proof.
  apply (removed_handle_is_reissued (hdr := Sample.headers) Sample.session
           Sample.item0 Sample.item1 7%nat 0 session_inv).
  - vm_compute. reflexivity.
  - vm_compute. reflexivity.
Defined.

Lemma info_reads_only_witness :
  exists r,
    ncr_key_info Sample.ask Sample.session = Some (r, Sample.session) /\
    ((exists p k, live Sample.session (info_key Sample.ask) p k /\
                  r = (0, {| info_key := info_key Sample.ask;
                             info_flags := ki_flags k;
                             info_type := ki_type k;
                             info_algorithm := ki_algorithm k |})) \/
     (unknown Sample.session (info_key Sample.ask) /\
      r = (- EINVAL, Sample.ask))).
Proof.
  apply (info_reads_only Sample.session Sample.ask session_ok).
Defined.

Lemma unknown_handle_is_rejected_witness :
  (forall gen, gen_desc gen = 5 ->
     ncr_key_generate (hdr := Sample.headers) gen Sample.session
       = Some (- EINVAL, Sample.session)) /\
  (forall data, kd_key data = 5 ->
     ncr_key_import (hdr := Sample.headers) data Sample.session
       = Some (- EINVAL, Sample.session) /\
     ncr_key_export (hdr := Sample.headers) data Sample.session
       = Some (- EINVAL, Sample.session)).
Proof.
  apply (unknown_handle_is_rejected (hdr := Sample.headers) Sample.session 5
           session_ok session_unknown_5).
Defined.

Lemma missing_buffer_is_rejected_witness :
  ncr_key_import (hdr := Sample.headers) (Sample.on_buffer 99) Sample.session
    = Some (- EINVAL, Sample.session) /\
  ncr_key_export (hdr := Sample.headers) (Sample.on_buffer 99) Sample.session
    = Some (- EINVAL, Sample.session).
Proof.
  apply (missing_buffer_is_rejected (hdr := Sample.headers) Sample.session
           (Sample.on_buffer 99) 0%nat Sample.item0 session_live).
  reflexivity.
Defined.

Lemma failed_export_changes_nothing_witness :
  ncr_key_export (hdr := Sample.headers) (Sample.on_buffer 12) Sample.rsa_tried
    = Some (- EINVAL, Sample.rsa_tried) /\
  ncr_key_export (hdr := Sample.headers) (Sample.on_buffer 11) Sample.keyed
    = Some (- EINVAL, Sample.keyed).
Proof.
  split.
  - apply (failed_export_changes_nothing (hdr := Sample.headers)
             Sample.rsa_tried (Sample.on_buffer 12) 0%nat _ 2%nat
             (Sample.buffer 12 64 [] 0) rsa_tried_live).
    + split; reflexivity.
    + vm_compute. split; discriminate.
    + left. discriminate.
  - apply (failed_export_changes_nothing (hdr := Sample.headers)
             Sample.keyed (Sample.on_buffer 11) 0%nat Sample.key16 1%nat
             (Sample.buffer 11 2 [] 1) keyed_live).
    + split; reflexivity.
    + vm_compute. split; discriminate.
    + right. reflexivity.
Defined.

Lemma export_writes_only_the_buffer_witness :
  exists s' d',
    ncr_key_export (hdr := Sample.headers) (Sample.on_buffer 12) Sample.keyed
      = Some (0, s') /\
    k_heap s' = k_heap Sample.keyed /\ k_keys s' = k_keys Sample.keyed /\
    (forall f, k_limits s' f = k_limits Sample.keyed f) /\
    (forall j, j <> 2%nat -> k_data s' !! j = k_data Sample.keyed !! j) /\
    data_at s' 2%nat d' /\
    di_desc d' = 12 /\ di_max_data_size d' = 64%N /\ di_refcnt d' = 1.
Proof.
  apply (export_writes_only_the_buffer (hdr := Sample.headers) Sample.keyed
           (Sample.on_buffer 12) 0%nat Sample.key16 2%nat
           (Sample.buffer 12 64 [] 0) keyed_live).
  - split; reflexivity.
  - vm_compute. split; discriminate.
  - reflexivity.
  - vm_compute. discriminate.
Defined.

Lemma import_stores_the_request_witness :
  exists s' k',
    ncr_key_import (hdr := Sample.headers) (Sample.on_buffer 10) Sample.session
      = Some (0, s') /\
    key_at s' 0%nat k' /\
    ki_type k' = 1 /\
    ki_algorithm k' = 3 /\
    ki_key_id_size k' = 1%N /\
    take 1 (ki_key_id k') = [Byte.x09] /\
    material k' = [Byte.x01; Byte.x02; Byte.x03] /\
    ki_desc k' = 1 /\ ki_filp k' = 7%nat /\ ki_refcnt k' = 1 /\
    k_keys s' = k_keys Sample.session /\ k_data s' = k_data Sample.session.
Proof.
  apply (import_stores_the_request (hdr := Sample.headers) Sample.session
           (Sample.on_buffer 10) 0%nat Sample.item0 0%nat
           (Sample.buffer 10 16 [Byte.x01; Byte.x02; Byte.x03] 0)
           session_live).
  - split; reflexivity.
  - vm_compute. split; discriminate.
  - reflexivity.
  - vm_compute. discriminate.
  - vm_compute. discriminate.
  - vm_compute. lia.
  - vm_compute. lia.
Defined.

Lemma import_only_adds_exportability_witness :
  exists r s' k',
    ncr_key_import (hdr := Sample.headers) (Sample.on_buffer 11) Sample.session
      = Some (r, s') /\
    key_at s' 0%nat k' /\
    ki_flags k' =
      (if decide (has_flag 1 1) then N.lor 0 1 else 0%N) /\
    (has_flag (ki_flags k') 1 <-> has_flag 1 1 \/ has_flag 0 1).
Proof.
  apply (import_only_adds_exportability (hdr := Sample.headers) Sample.session
           (Sample.on_buffer 11) 0%nat Sample.item0 1%nat
           (Sample.buffer 11 2 [] 1) session_live).
  - split; reflexivity.
  - discriminate.
Defined.

Lemma generate_stores_random_bytes_witness :
  exists s' k',
    ncr_key_generate (hdr := Sample.headers) (Sample.gen_3des 128)
      Sample.session = Some (0, s') /\
    key_at s' 0%nat k' /\
    material k' = map (k_random Sample.session) (seq 0 16) /\
    ki_key_id_size k' = 5%N /\
    take 5 (ki_key_id k') =
      map (fun j => k_random Sample.session (16 + j)%nat) (seq 0 5) /\
    drop 16 (ki_secret_data k') = drop 16 (ki_secret_data Sample.item0) /\
    (forall j, k_random s' j = k_random Sample.session (16 + (5 + j))%nat).
Proof.
  apply (generate_stores_random_bytes (hdr := Sample.headers) Sample.session
           (Sample.gen_3des 128) 0%nat Sample.item0 session_live).
  - reflexivity.
  - reflexivity.
  - vm_compute. discriminate.
Defined.

Lemma fresh_key_is_empty_witness :
  exists h s1,
    ncr_key_init (hdr := Sample.headers) (Some Sample.key16) 7%nat 0
      Sample.session = Some ((0, h), s1) /\
    (forall q, info_key q = h ->
       ncr_key_info q s1 =
         Some ((0, {| info_key := h; info_flags := 0; info_type := 0;
                      info_algorithm := 0 |}), s1)) /\
    (1 <> 0 ->
     forall data, kd_key data = h ->
       exists s2, ncr_key_export (hdr := Sample.headers) data s1
                    = Some (- EINVAL, s2)).
Proof.
  apply (fresh_key_is_empty (hdr := Sample.headers) Sample.session
           Sample.key16 7%nat 0 session_ok).
  vm_compute. reflexivity.
Defined.

Lemma generated_key_reaches_buffer_witness :
  exists s1 s2 s3 d',
    ncr_key_init (hdr := Sample.headers) (Some Sample.key16) 8%nat 0
      Sample.session = Some ((0, 2), s1) /\
    ncr_key_generate (hdr := Sample.headers) Sample.gen_second s1
      = Some (0, s2) /\
    ncr_key_export (hdr := Sample.headers) (Sample.second_to 12) s2
      = Some (0, s3) /\
    data_at s3 2%nat d' /\
    buffer_bytes d' = map (k_random Sample.session) (seq 0 16) /\
    di_data_size d' = 16%N /\
    (has_flag (di_flags d') 1 <-> has_flag 1 1).
Proof.
  apply (generated_key_reaches_buffer (hdr := Sample.headers) Sample.session
           Sample.key16 8%nat 0 Sample.gen_second (Sample.second_to 12)
           2%nat (Sample.buffer 12 64 [] 0) session_ok).
  - vm_compute. reflexivity.
  - vm_compute. reflexivity.
  - vm_compute. reflexivity.
  - reflexivity.
  - reflexivity.
  - vm_compute. discriminate.
  - split; reflexivity.
  - vm_compute. discriminate.
  - discriminate.
Defined.

Lemma session_sized : sized (hdr := Sample.headers) Sample.session.
Proof.
  split.
  - intros [|p] k Hp; unfold key_at in Hp; cbn in Hp; [|discriminate].
    injection Hp as <-. by repeat split.
  - intros i d Hi. unfold data_at in Hi. cbn in Hi.
    destruct i as [|[|[|i]]]; cbn in Hi; [| | |discriminate];
      injection Hi as <-; by split.
Qed.

Lemma calls_return_to_a_sound_state_witness :
  (forall gen, exists r s',
     ncr_key_generate (hdr := Sample.headers) gen Sample.session
       = Some (r, s') /\ sound s' /\ sized (hdr := Sample.headers) s') /\
  (forall data, length (kd_key_id data) = 20%nat ->
     exists r s',
       ncr_key_import (hdr := Sample.headers) data Sample.session
         = Some (r, s') /\ sound s' /\ sized (hdr := Sample.headers) s') /\
  (forall data, exists r s',
     ncr_key_export (hdr := Sample.headers) data Sample.session
       = Some (r, s') /\ sound s' /\ sized (hdr := Sample.headers) s') /\
  (forall arg, exists r,
     ncr_key_info arg Sample.session = Some (r, Sample.session)) /\
  (forall junk filp arg, max_handle Sample.session < INT_MAX ->
     exists r s',
       ncr_key_init (hdr := Sample.headers) (Some junk) filp arg Sample.session
         = Some (r, s') /\ sound s' /\ sized (hdr := Sample.headers) s') /\
  (forall desc, exists s',
     ncr_key_deinit desc Sample.session = Some (0, s') /\
     sound s' /\ sized (hdr := Sample.headers) s') /\
  (exists s', ncr_key_list_deinit Sample.session = Some (tt, s') /\
              sound s' /\ sized (hdr := Sample.headers) s').
Proof.
  apply (calls_return_to_a_sound_state (hdr := Sample.headers) Sample.session
           session_sound session_sized).
  vm_compute. discriminate.
Defined.

Lemma handles_collide_past_int_max_witness :
  exists s1 s2,
    ncr_key_init (hdr := Sample.headers) (Some Sample.item0) 7%nat 0
      Sample.at_top = Some ((0, INT_MIN), s1) /\
    ncr_key_init (hdr := Sample.headers) (Some Sample.item1) 7%nat 0 s1
      = Some ((0, INT_MIN), s2) /\
    live s2 INT_MIN 2%nat (fresh_item (hdr := Sample.headers) 7%nat INT_MIN) /\
    key_at s2 1%nat (fresh_item (hdr := Sample.headers) 7%nat INT_MIN) /\
    1%nat ∈ k_keys s2.
Proof.
  apply (handles_collide_past_int_max (hdr := Sample.headers) Sample.at_top
           Sample.item0 Sample.item1 7%nat 0 0 at_top_ok).
  - vm_compute. reflexivity.
  - vm_compute. reflexivity.
Defined.

Lemma import_then_info_witness :
  exists s1,
    ncr_key_import (hdr := Sample.headers) (Sample.on_buffer 11) Sample.session
      = Some (0, s1) /\
    ncr_key_info Sample.ask s1 =
      Some ((0, {| info_key := 1;
                   info_flags := if decide (has_flag 1 1) then N.lor 0 1
                                 else 0%N;
                   info_type := 1;
                   info_algorithm := 3 |}), s1).
Proof.
  apply (import_then_info (hdr := Sample.headers) Sample.session
           (Sample.on_buffer 11) 0%nat Sample.item0 1%nat
           (Sample.buffer 11 2 [] 1) Sample.ask session_live).
  - split; reflexivity.
  - reflexivity.
  - vm_compute. discriminate.
  - vm_compute. discriminate.
  - reflexivity.
Defined.
